(** * ci-chat-bot: the provisioning run [launchJob] and its helpers

    A shallow embedding of [launchJob], [findTargetName],
    [waitForClusterReachable], [namespaceSafeHash], [containerSuccessful]
    (package main) and of [JobForConfig], [OverrideJobEnvironment]
    (package prow), followed by the properties the design document states
    about them.

    Conventions.
    - Go strings are [string]; byte slices are lists of [Z] in [0, 256).
    - A Go [error] value is an element of [error]; the nil error is [None].
    - The collaborators reached over the network (job resource API, pod API,
      remote command execution, log retrieval, the provisioned cluster) are
      deterministic oracles that see the list of calls made so far; every
      call is appended to that list, so "what the run did" is a list of
      [Event]s.
    - The request ([*Job]) is mutated through a pointer; it is threaded
      through the run together with the event list. *)

From Stdlib Require Import ZArith Lia List Ascii String Bool Btauto.
From stdpp Require Import base strings list gmap.
From coqutil Require Import Z.bitblast.

Open Scope Z_scope.

(** ** crypto/sha256 (Go standard library), FIPS 180-4 *)

Module sha256.

Definition w32 (x : Z) : Z := Z.land x 0xffffffff.

Definition rotr (n x : Z) : Z :=
  Z.lor (Z.shiftr x n) (w32 (Z.shiftl x (32 - n))).

Definition Ch (x y z : Z) : Z :=
  Z.lxor (Z.land x y) (Z.land (Z.lxor x 0xffffffff) z).

Definition Maj (x y z : Z) : Z :=
  Z.lxor (Z.lxor (Z.land x y) (Z.land x z)) (Z.land y z).

Definition bsig0 (x : Z) : Z := Z.lxor (Z.lxor (rotr 2 x) (rotr 13 x)) (rotr 22 x).
Definition bsig1 (x : Z) : Z := Z.lxor (Z.lxor (rotr 6 x) (rotr 11 x)) (rotr 25 x).
Definition ssig0 (x : Z) : Z := Z.lxor (Z.lxor (rotr 7 x) (rotr 18 x)) (Z.shiftr x 3).
Definition ssig1 (x : Z) : Z := Z.lxor (Z.lxor (rotr 17 x) (rotr 19 x)) (Z.shiftr x 10).

(** The round constants and the initial hash value are the first 32 bits
    of the fractional parts of the cube roots of the first 64 primes and
    of the square roots of the first 8. *)
Definition isPrime (n : Z) : bool :=
  forallb (fun d => negb (n mod Z.of_nat d =? 0)) (seq 2 (Z.to_nat n - 2)).

Definition primes : list Z := filter isPrime (map Z.of_nat (seq 2 310)).

(** The integer cube root of [n], found bit by bit from bit [bits] down. *)
Fixpoint cubeRoot (bits : nat) (n r : Z) : Z :=
  match bits with
  | O => r
  | S b =>
      let c := r + 2 ^ Z.of_nat b in
      if c * c * c <=? n then cubeRoot b n c else cubeRoot b n r
  end.

Definition K : list Z := map (fun p => w32 (cubeRoot 40 (p * 2 ^ 96) 0)) primes.

Definition H0 : list Z := map (fun p => w32 (Z.sqrt (p * 2 ^ 64))) (take 8 primes).

(** Big-endian encoding of [x] on [n] bytes. *)
Fixpoint be_bytes (n : nat) (x : Z) : list Z :=
  match n with
  | O => []
  | S n' => Z.land (Z.shiftr x (8 * Z.of_nat n')) 0xff :: be_bytes n' x
  end.

Definition be_word (bs : list Z) : Z :=
  fold_left (fun acc b => Z.lor (Z.shiftl acc 8) b) bs 0.

(** The message, one [0x80] byte, zeros up to 56 modulo 64, and the bit
    length on 8 bytes. *)
Definition pad (msg : list Z) : list Z :=
  let len := Z.of_nat (length msg) in
  let zeros := Z.to_nat ((55 - len) mod 64) in
  msg ++ 0x80 :: repeat 0 zeros ++ be_bytes 8 (8 * len).

Fixpoint chunks (fuel : nat) (k : nat) (bs : list Z) : list (list Z) :=
  match fuel with
  | O => []
  | S fuel' =>
      match bs with
      | [] => []
      | _ => take k bs :: chunks fuel' k (drop k bs)
      end
  end.

(** The message schedule, most recent word first. *)
Fixpoint schedule (n : nat) (w : list Z) : list Z :=
  match n with
  | O => w
  | S n' =>
      let x := w32 (ssig1 (nth 1 w 0) + nth 6 w 0 + ssig0 (nth 14 w 0) + nth 15 w 0) in
      schedule n' (x :: w)
  end.

Definition round (s : list Z) (kw : Z * Z) : list Z :=
  match s with
  | [a; b; c; d; e; f; g; h] =>
      let t1 := w32 (h + bsig1 e + Ch e f g + fst kw + snd kw) in
      let t2 := w32 (bsig0 a + Maj a b c) in
      [w32 (t1 + t2); a; b; c; w32 (d + t1); e; f; g]
  | _ => s
  end.

Definition compress (h : list Z) (block : list Z) : list Z :=
  let w16 := map be_word (chunks 16 4 block) in
  let w := rev (schedule 48 (rev w16)) in
  let s := fold_left round (combine K w) h in
  map (fun p => w32 (fst p + snd p)) (combine h s).

(** [Sum256 msg] is the 32-byte digest of [msg]. *)
Definition Sum256 (msg : list Z) : list Z :=
  let p := pad msg in
  let h := fold_left compress (chunks (length p) 64 p) H0 in
  concat (map (be_bytes 4) h).

End sha256.

(** ** encoding/base32 (Go standard library) *)

Module base32.

Record Encoding := {
  encode : string;           (* the 32-symbol alphabet *)
  padChar : option ascii     (* [None] is [NoPadding] *)
}.

Definition StdPadding : option ascii := Some "="%char.
Definition NoPadding : option ascii := None.

Definition NewEncoding (encoder : string) : Encoding :=
  {| encode := encoder; padChar := StdPadding |}.

Definition WithPadding (enc : Encoding) (padding : option ascii) : Encoding :=
  {| encode := encode enc; padChar := padding |}.

Definition EncodedLen (enc : Encoding) (n : Z) : Z :=
  match padChar enc with
  | None => (n * 8 + 4) / 5
  | Some _ => (n + 4) / 5 * 8
  end.

(** The eight 5-bit values of one quantum of at most five source bytes,
    as [Encode] computes them (the [switch] with fallthrough on the
    number of remaining bytes). *)
Definition quantum (src : list Z) : list Z :=
  let s i := nth i src 0 in
  let n := length src in
  let have k := (k <=? n)%nat in
  let b7 := if have 5%nat then Z.land (s 4%nat) 0x1F else 0 in
  let b6 := if have 5%nat then Z.shiftr (s 4%nat) 5 else 0 in
  let b6 := if have 4%nat then Z.lor b6 (Z.land (Z.shiftl (s 3%nat) 3) 0x1F) else b6 in
  let b5 := if have 4%nat then Z.land (Z.shiftr (s 3%nat) 2) 0x1F else 0 in
  let b4 := if have 4%nat then Z.shiftr (s 3%nat) 7 else 0 in
  let b4 := if have 3%nat then Z.lor b4 (Z.land (Z.shiftl (s 2%nat) 1) 0x1F) else b4 in
  let b3 := if have 3%nat then Z.land (Z.shiftr (s 2%nat) 4) 0x1F else 0 in
  let b3 := if have 2%nat then Z.lor b3 (Z.land (Z.shiftl (s 1%nat) 4) 0x1F) else b3 in
  let b2 := if have 2%nat then Z.land (Z.shiftr (s 1%nat) 1) 0x1F else 0 in
  let b1 := if have 2%nat then Z.land (Z.shiftr (s 1%nat) 6) 0x1F else 0 in
  let b1 := if have 1%nat then Z.lor b1 (Z.land (Z.shiftl (s 0%nat) 2) 0x1F) else b1 in
  let b0 := if have 1%nat then Z.shiftr (s 0%nat) 3 else 0 in
  [b0; b1; b2; b3; b4; b5; b6; b7].

Definition symbol (enc : Encoding) (v : Z) : ascii :=
  match String.get (Z.to_nat (Z.land v 31)) (encode enc) with
  | Some c => c
  | None => zero
  end.

(** Number of symbols of a final quantum of [n] < 5 bytes that carry data;
    the rest is padding. *)
Definition dataSymbols (n : nat) : nat :=
  match n with
  | 1 => 2 | 2 => 4 | 3 => 5 | 4 => 7 | _ => 8
  end%nat.

Definition encodeQuantum (enc : Encoding) (src : list Z) : list ascii :=
  let syms := map (symbol enc) (quantum src) in
  if (5 <=? length src)%nat then syms
  else
    let k := dataSymbols (length src) in
    match padChar enc with
    | None => take k syms
    | Some p => take k syms ++ repeat p (8 - k)
    end.

Fixpoint encodeLoop (fuel : nat) (enc : Encoding) (src : list Z) : list ascii :=
  match fuel with
  | O => []
  | S fuel' =>
      match src with
      | [] => []
      | _ => encodeQuantum enc (take 5 src) ++ encodeLoop fuel' enc (drop 5 src)
      end
  end.

Definition EncodeToString (enc : Encoding) (src : list Z) : string :=
  string_of_list_ascii (encodeLoop (length src) enc src).

End base32.

(** ** package main: the Identifier Hasher *)

Definition bytes_of_string (s : string) : list Z :=
  map (fun c => Z.of_N (N_of_ascii c)) (list_ascii_of_string s).

Definition oneWayNameEncoding : base32.Encoding :=
  base32.WithPadding (base32.NewEncoding "bcdfghijklmnpqrstvwxyz0123456789") base32.NoPadding.

Definition namespaceSafeHash (values : list string) : string :=
  let written := concat (map bytes_of_string values) in
  base32.EncodeToString oneWayNameEncoding (take 4 (sha256.Sum256 written)).

Definition hex_of_bytes (bs : list Z) : string :=
  let digit d := match String.get (Z.to_nat d) "0123456789abcdef" with
                 | Some c => c | None => zero end in
  string_of_list_ascii
    (concat (map (fun b => [digit (Z.shiftr b 4); digit (Z.land b 15)]) bs)).

(** ** Strings (package strings, fmt) *)

Definition len (s : string) : Z := Z.of_nat (String.length s).

Definition HasPrefix (s prefix : string) : bool := String.prefix prefix s.

Definition TrimPrefix (s prefix : string) : string :=
  if HasPrefix s prefix
  then String.substring (String.length prefix) (String.length s - String.length prefix) s
  else s.

Fixpoint Contains (s substr : string) : bool :=
  String.prefix substr s ||
  match s with
  | EmptyString => false
  | String _ s' => Contains s' substr
  end.

Definition quote : string := String "034"%char EmptyString.
Definition newline : ascii := "010"%char.

(** ** Errors

    [ErrWaitTimeout] is the sentinel of the wait package, which the code
    compares by identity; [StatusError] is an API status error with the
    reason the apimachinery predicates look at; [errorString] is any other
    error, among them the ones [fmt.Errorf] builds. *)

Inductive StatusReason :=
| StatusReasonUnknown
| StatusReasonNotFound
| StatusReasonAlreadyExists
| StatusReasonForbidden.

Inductive error :=
| ErrWaitTimeout
| StatusError (reason : StatusReason) (message : string)
| errorString (message : string).

Definition Error (e : error) : string :=
  match e with
  | ErrWaitTimeout => "timed out waiting for the condition"
  | StatusError _ message => message
  | errorString message => message
  end.

Definition Errorf (message : string) : error := errorString message.

Definition IsNotFound (e : error) : bool :=
  match e with StatusError StatusReasonNotFound _ => true | _ => false end.

Definition IsAlreadyExists (e : error) : bool :=
  match e with StatusError StatusReasonAlreadyExists _ => true | _ => false end.

Definition IsForbidden (e : error) : bool :=
  match e with StatusError StatusReasonForbidden _ => true | _ => false end.

Definition isErrWaitTimeout (e : error) : bool :=
  match e with ErrWaitTimeout => true | _ => false end.

(** ** Data model *)

Record EnvVar := {
  ev_Name : string;
  ev_Value : string
}.

Record Container := {
  c_Name : string;
  c_Args : list string;
  c_Env : list EnvVar
}.

Record PodSpec := {
  Containers : list Container
}.

Record ProwJobSpec := {
  spec_Type : string;
  spec_Job : string;
  spec_PodSpec : option PodSpec     (* a pointer, possibly nil *)
}.

Record TypeMeta := {
  APIVersion : string;
  Kind : string
}.

Record ObjectMeta := {
  om_Name : string;
  om_Namespace : string;
  Annotations : gmap string string;
  Labels : gmap string string
}.

Record ProwJobStatus := {
  StartTime : Z;
  status_State : string;
  status_URL : string
}.

Record ProwJob := {
  pj_TypeMeta : TypeMeta;
  pj_ObjectMeta : ObjectMeta;
  pj_Spec : ProwJobSpec;
  pj_Status : ProwJobStatus
}.

Record ContainerStateTerminated := {
  ExitCode : Z
}.

Record ContainerStatus := {
  cs_Name : string;
  cs_Terminated : option ContainerStateTerminated   (* State.Terminated *)
}.

Record Pod := {
  Phase : string;                                (* Status.Phase *)
  ContainerStatuses : list ContainerStatus       (* Status.ContainerStatuses *)
}.

(** The Provisioning Request, with the fields [launchJob] reads or writes. *)
Record Job := {
  Name : string;
  JobName : string;
  Mode : string;
  RequestedBy : string;
  RequestedChannel : string;
  InstallImage : string;
  UpgradeImage : string;
  InstallVersion : string;
  UpgradeVersion : string;
  URL : string;
  Credentials : string;
  PasswordSnippet : string
}.

Definition set_URL (job : Job) (v : string) : Job :=
  {| Name := Name job; JobName := JobName job; Mode := Mode job;
     RequestedBy := RequestedBy job; RequestedChannel := RequestedChannel job;
     InstallImage := InstallImage job; UpgradeImage := UpgradeImage job;
     InstallVersion := InstallVersion job; UpgradeVersion := UpgradeVersion job;
     URL := v; Credentials := Credentials job;
     PasswordSnippet := PasswordSnippet job |}.

Definition set_Credentials (job : Job) (v : string) : Job :=
  {| Name := Name job; JobName := JobName job; Mode := Mode job;
     RequestedBy := RequestedBy job; RequestedChannel := RequestedChannel job;
     InstallImage := InstallImage job; UpgradeImage := UpgradeImage job;
     InstallVersion := InstallVersion job; UpgradeVersion := UpgradeVersion job;
     URL := URL job; Credentials := v;
     PasswordSnippet := PasswordSnippet job |}.

Definition set_PasswordSnippet (job : Job) (v : string) : Job :=
  {| Name := Name job; JobName := JobName job; Mode := Mode job;
     RequestedBy := RequestedBy job; RequestedChannel := RequestedChannel job;
     InstallImage := InstallImage job; UpgradeImage := UpgradeImage job;
     InstallVersion := InstallVersion job; UpgradeVersion := UpgradeVersion job;
     URL := URL job; Credentials := Credentials job;
     PasswordSnippet := v |}.

(** An unstructured object either converts to a ProwJob or fails to. *)
Inductive Unstructured :=
| Uns (converted : error + ProwJob).

(** [ObjectToUnstructured] encodes to JSON and decodes again; the encoding
    of a ProwJob does not fail. *)
Definition ObjectToUnstructured (obj : ProwJob) : Unstructured := Uns (inr obj).

Definition UnstructuredToObject (u : Unstructured) : error + ProwJob :=
  match u with Uns r => r end.

Record RestConfig := {
  Host : string;
  Timeout : Z
}.

(** The request [commandContents] builds for the exec subresource. *)
Record ExecURL := {
  exec_Namespace : string;
  exec_Name : string;
  exec_Container : string;
  exec_Stdout : bool;
  exec_Stderr : bool;
  exec_Command : list string
}.

(** What a pod [Get] hands back: the pod, or an error next to whatever
    pointer the client returned with it. *)
Inductive PodGet :=
| PodGetOk (pod : Pod)
| PodGetErr (pod : option Pod) (err : error).

(** ** Calls that leave the process *)

Inductive Event :=
| EvConfig                                               (* prowConfigLoader.Config() *)
| EvCreate (ns : string) (obj : Unstructured)            (* prowClient create *)
| EvGetProwJob (ns name : string)                        (* prowClient get *)
| EvPatch (ns name patchType patch : string)             (* prowClient patch *)
| EvGetPod (ns name : string)                            (* pods get *)
| EvGetLogs (ns name container : string) (tailLines : Z) (* pods log *)
| EvExec (u : ExecURL)                                   (* SPDY stream *)
| EvGetNamespace (host name : string)                    (* provisioned cluster *)
| EvLog (message : string).                              (* log.Printf *)

Definition History := list Event.

Record ProwClient := {
  Create : History -> string -> Unstructured -> option error;
  Get : History -> string -> string -> error + Unstructured;
  Patch : History -> string -> string -> string -> string -> option error
}.

Record CoreClient := {
  PodsGet : History -> string -> string -> PodGet;
  GetLogs : History -> string -> string -> string -> Z -> string * option error
}.

(** Result of [clientcmd.NewClientConfigFromBytes]: an object whose
    [ClientConfig()] method yields the rest configuration or fails. *)
Record ClientConfigLoader := {
  ClientConfig : error + RestConfig
}.

(** What the run depends on besides its manager. Package prow/apiv1 is not
    among the sources at hand: its configuration types, the two functions
    [JobForConfig] calls and the state constant are taken as given. The
    other fields are the libraries and the clock; [ticks h interval timeout]
    is the number of further attempts the clock allows a poll that starts
    after [h], beyond its immediate first attempt. *)
Record World := {
  Config : Type;
  Periodic : Type;
  DecorationConfig : Type;
  HasProwJob : Config -> string -> option Periodic;
  DefaultDecorationConfig : Config -> DecorationConfig;
  ProwSpecForPeriodicConfig : Periodic -> DecorationConfig -> ProwJobSpec;
  TriggeredState : string;
  ticks : History -> Z -> Z -> nat;
  Now : History -> Z;
  NewSPDYExecutor : RestConfig -> ExecURL -> option error;
  Stream : History -> ExecURL -> string * option error;
  NewClientConfigFromBytes : string -> error + ClientConfigLoader;
  NewForConfig : RestConfig -> option error;
  NamespacesGet : History -> RestConfig -> string -> option error
}.

(** ** The run monad: the request behind the pointer and the calls so far *)

Record State := {
  job : Job;
  trace : History
}.

Definition M (A : Type) : Type := State -> A * State.

Definition ret {A} (a : A) : M A := fun s => (a, s).

Definition bind {A B} (c : M A) (k : A -> M B) : M B :=
  fun s => let (a, s') := c s in k a s'.

Notation "'let*' x ':=' c 'in' k" := (bind c (fun x => k))
  (at level 10, x pattern, c at level 100, k at level 200).

Definition getJob : M Job := fun s => (job s, s).

Definition putJob (j : Job) : M unit :=
  fun s => (tt, {| job := j; trace := trace s |}).

(** Perform the call [e]; the collaborator answers from the calls made
    before it. *)
Definition call {A} (e : Event) (answer : History -> A) : M A :=
  fun s => (answer (trace s), {| job := job s; trace := trace s ++ [e] |}).

Definition logPrintf (message : string) : M unit :=
  call (EvLog message) (fun _ => tt).

(** How a function body ends: it returns an error value (possibly nil), or
    it dereferences a nil pointer. *)
Inductive outcome :=
| Return (err : option error)
| Panic.

(** A segment of a function body either leaves the function or falls
    through with a value. *)
Inductive flow (A : Type) :=
| Exit (o : outcome)
| Next (a : A).
Arguments Exit {A} o.
Arguments Next {A} a.

Definition andThen {A} (c : M (flow A)) (k : A -> M outcome) : M outcome :=
  fun s => match c s with
           | (Exit o, s') => (o, s')
           | (Next a, s') => k a s'
           end.

Notation "'let+' x ':=' c 'in' k" := (andThen c (fun x => k))
  (at level 10, x pattern, c at level 100, k at level 200).

(** ** package main: pure helpers *)

Fixpoint findTargetArg (args : list string) : option string :=
  match args with
  | [] => None
  | arg :: rest =>
      if HasPrefix arg "--target=" then
        let name := TrimPrefix arg "--target=" in
        if len name >? 0 then Some name else findTargetArg rest
      else findTargetArg rest
  end.

Fixpoint findTargetContainers (containers : list Container) : option string :=
  match containers with
  | [] => None
  | container :: rest =>
      if negb (String.eqb (c_Name container) "") then findTargetContainers rest
      else
        match findTargetArg (c_Args container) with
        | Some name => Some name
        | None => findTargetContainers rest
        end
  end.

Definition findTargetName (spec : option PodSpec) : error + string :=
  match spec with
  | None => inl (Errorf "prow job has no pod spec, cannot find target pod name")
  | Some spec =>
      match findTargetContainers (Containers spec) with
      | Some name => inr name
      | None =>
          inl (Errorf "could not find argument --target=X in prow job pod spec to identify target pod name")
      end
  end.

Fixpoint containerSuccessfulIn (statuses : list ContainerStatus) (containerName : string)
  : bool * option error :=
  match statuses with
  | [] => (false, None)
  | container :: rest =>
      if negb (String.eqb (cs_Name container) containerName)
      then containerSuccessfulIn rest containerName
      else
        match cs_Terminated container with
        | None => (false, None)
        | Some t => (ExitCode t =? 0, None)
        end
  end.

Definition containerSuccessful (pod : Pod) (containerName : string) : bool * option error :=
  containerSuccessfulIn (ContainerStatuses pod) containerName.

(** [reFixLines.ReplaceAllString] with replacement [$1] for the multi-line
    pattern that anchors [level=info msg=], a double quote, a group of any
    characters and a closing double quote between the start and the end of
    a line: such a line is replaced by the group; other lines stay. *)
Definition fixLinePrefix : string := "level=info msg=" +:+ quote.

Definition fixLine (line : string) : string :=
  let n := String.length line in
  let p := String.length fixLinePrefix in
  if HasPrefix line fixLinePrefix && (p + 1 <=? n)%nat
     && String.eqb (String.substring (n - 1) 1 line) quote
  then String.substring p (n - p - 1) line
  else line.

Fixpoint splitLines (s : string) : list string :=
  match s with
  | EmptyString => [EmptyString]
  | String c s' =>
      if Ascii.eqb c newline then EmptyString :: splitLines s'
      else
        match splitLines s' with
        | l :: ls => String c l :: ls
        | [] => [String c EmptyString]
        end
  end.

Fixpoint joinLines (ls : list string) : string :=
  match ls with
  | [] => EmptyString
  | [l] => l
  | l :: rest => l +:+ String newline (joinLines rest)
  end.

Definition reFixLines_ReplaceAllString (s : string) : string :=
  joinLines (map fixLine (splitLines s)).

(** ** package prow *)

Definition overrideEnvVar (image initialImage namespace : string) (e : EnvVar) : EnvVar :=
  let name := ev_Name e in
  if String.eqb name "RELEASE_IMAGE_LATEST" then {| ev_Name := ev_Name e; ev_Value := image |}
  else if String.eqb name "RELEASE_IMAGE_INITIAL" then {| ev_Name := ev_Name e; ev_Value := initialImage |}
  else if String.eqb name "NAMESPACE" then {| ev_Name := ev_Name e; ev_Value := namespace |}
  else e.

Definition overrideContainer (image initialImage namespace : string) (c : Container) : Container :=
  {| c_Name := c_Name c;
     c_Args := c_Args c;
     c_Env := map (overrideEnvVar image initialImage namespace) (c_Env c) |}.

(** [None] is the nil dereference of [spec.PodSpec]. *)
Definition OverrideJobEnvironment (spec : ProwJobSpec) (image initialImage namespace : string)
  : option ProwJobSpec :=
  match spec_PodSpec spec with
  | None => None
  | Some ps =>
      Some {| spec_Type := spec_Type spec;
              spec_Job := spec_Job spec;
              spec_PodSpec :=
                Some {| Containers :=
                          map (overrideContainer image initialImage namespace) (Containers ps) |} |}
  end.

Definition Second : Z := 1000000000.
Definition Minute : Z := 60 * Second.

Section Launch.

Variable w : World.

Record jobManager := {
  prowConfigLoader : History -> option (Config w);
  prowClient : ProwClient;
  coreClient : CoreClient;
  coreConfig : RestConfig;
  prowNamespace : string
}.

Definition JobForConfig (loader : History -> option (Config w)) (jobName : string)
  : M (error + ProwJob) :=
  fun s =>
  let h := trace s in
  (let* config := call EvConfig loader in
   match config with
   | None =>
       ret (inl (Errorf ("the prow job " +:+ jobName
                         +:+ " is not valid: no prow jobs have been defined")))
   | Some config =>
       match HasProwJob w config jobName with
       | None =>
           ret (inl (Errorf ("the prow job " +:+ jobName
                             +:+ " is not valid: no job with that name")))
       | Some periodicConfig =>
           let spec := ProwSpecForPeriodicConfig w periodicConfig (DefaultDecorationConfig w config) in
           ret (inr {| pj_TypeMeta := {| APIVersion := "prow.k8s.io/v1"; Kind := "ProwJob" |};
                       pj_ObjectMeta := {| om_Name := ""; om_Namespace := "";
                                           Annotations := ∅; Labels := ∅ |};
                       pj_Spec := spec;
                       pj_Status := {| StartTime := Now w h;
                                       status_State := TriggeredState w;
                                       status_URL := "" |} |})
       end
   end) s.

(** ** k8s.io/apimachinery wait.PollImmediate

    The condition runs at once and then again on each tick until the
    timeout; an error of the condition ends the poll with that error, a
    true condition ends it with nil, and running out of ticks ends it with
    [ErrWaitTimeout]. The variables a closure captures and assigns are the
    value [L] threaded through the attempts. *)

Definition ConditionFunc (L : Type) : Type := L -> M ((bool * option error) * L).

Fixpoint pollLoop {L} (n : nat) (condition : ConditionFunc L) (l : L) : M (option error * L) :=
  fun s =>
  match condition l s with
  | ((_, Some err), l', s') => ((Some err, l'), s')
  | ((true, None), l', s') => ((None, l'), s')
  | ((false, None), l', s') =>
      match n with
      | O => ((Some ErrWaitTimeout, l'), s')
      | S n' => pollLoop n' condition l' s'
      end
  end.

Definition PollImmediate {L} (interval timeout : Z) (condition : ConditionFunc L) (l : L)
  : M (option error * L) :=
  fun s => pollLoop (ticks w (trace s) interval timeout) condition l s.

(** ** package main: talking to the provisioned cluster and to pods *)

Definition loadKubeconfigContents (contents : string) : error + RestConfig :=
  match NewClientConfigFromBytes w contents with
  | inl err => inl (Errorf ("could not load client configuration: " +:+ Error err))
  | inr cfg =>
      match ClientConfig cfg with
      | inl err => inl (Errorf ("could not load client configuration: " +:+ Error err))
      | inr clusterConfig => inr clusterConfig
      end
  end.

Definition reachableCondition (cfg : RestConfig) : ConditionFunc unit :=
  fun _ =>
  let* err := call (EvGetNamespace (Host cfg) "openshift-apiserver")
                   (fun h => NamespacesGet w h cfg "openshift-apiserver") in
  match err with
  | None => ret ((true, None), tt)
  | Some err =>
      let* _ := logPrintf ("cluster is not yet reachable " +:+ Host cfg +:+ ": " +:+ Error err) in
      ret ((false, None), tt)
  end.

Definition waitForClusterReachable (kubeconfig : string) : M (option error) :=
  match loadKubeconfigContents kubeconfig with
  | inl err => ret (Some err)
  | inr cfg =>
      let cfg := {| Host := Host cfg; Timeout := 15 * Second |} in
      match NewForConfig w cfg with
      | Some err => ret (Some err)
      | None =>
          let* r := PollImmediate (15 * Second) (20 * Minute) (reachableCondition cfg) tt in
          ret (fst r)
      end
  end.

Definition commandContents (podRESTConfig : RestConfig) (ns name containerName : string)
    (command : list string) : M (string * option error) :=
  let u := {| exec_Namespace := ns; exec_Name := name; exec_Container := containerName;
              exec_Stdout := true; exec_Stderr := false; exec_Command := command |} in
  match NewSPDYExecutor w podRESTConfig u with
  | Some err =>
      ret ("", Some (Errorf ("could not initialize a new SPDY executor: " +:+ Error err)))
  | None =>
      let* r := call (EvExec u) (fun h => Stream w h u) in
      match snd r with
      | Some err => ret ("", Some err)
      | None => ret (fst r, None)
      end
  end.

Definition terminalPhase (pod : Pod) : bool :=
  String.eqb (Phase pod) "Succeeded" || String.eqb (Phase pod) "Failed".

(** ** package main: the conditions [launchJob] polls *)

(** Lines 112-126; the closure assigns [job.URL]. *)
Definition urlCondition (m : jobManager) : ConditionFunc unit :=
  fun _ =>
  let* job := getJob in
  let* r := call (EvGetProwJob (prowNamespace m) (Name job))
                 (fun h => Get (prowClient m) h (prowNamespace m) (Name job)) in
  match r with
  | inl err => ret ((false, Some err), tt)
  | inr uns =>
      match UnstructuredToObject uns with
      | inl err => ret ((false, Some err), tt)
      | inr pj =>
          if len (status_URL (pj_Status pj)) >? 0 then
            let* _ := putJob (set_URL job (status_URL (pj_Status pj))) in
            ret ((true, None), tt)
          else ret ((false, None), tt)
      end
  end.

(** Lines 136-152; the closure captures [seen]. *)
Definition podCondition (m : jobManager) : ConditionFunc bool :=
  fun seen =>
  let* job := getJob in
  let* r := call (EvGetPod (prowNamespace m) (Name job))
                 (fun h => PodsGet (coreClient m) h (prowNamespace m) (Name job)) in
  match r with
  | PodGetErr _ err =>
      if negb (IsNotFound err) then ret ((false, Some err), seen)
      else if seen then ret ((false, Some (Errorf "pod was deleted")), seen)
      else ret ((false, None), seen)
  | PodGetOk pod =>
      let seen := true in
      if terminalPhase pod then ret ((false, Some (Errorf "pod has already exited")), seen)
      else ret ((true, None), seen)
  end.

(** Lines 161-183; the closure captures [seen] and [lastErr]. *)
Definition setupCondition (m : jobManager) (namespace targetPodName : string)
  : ConditionFunc (bool * option error) :=
  fun '(seen, lastErr) =>
  let* r := call (EvGetPod namespace targetPodName)
                 (fun h => PodsGet (coreClient m) h namespace targetPodName) in
  match r with
  | PodGetErr _ err =>
      if negb (IsNotFound err) && negb (IsForbidden err) then
        let lastErr := Some err in
        ret ((false, Some err), (seen, lastErr))
      else if seen then ret ((false, Some (Errorf "pod was deleted")), (seen, lastErr))
      else ret ((false, None), (seen, lastErr))
  | PodGetOk pod =>
      let seen := true in
      if terminalPhase pod
      then ret ((false, Some (Errorf "pod has already exited")), (seen, lastErr))
      else
        let '(ok, err) := containerSuccessful pod "setup" in
        match err with
        | Some err => ret ((false, Some err), (seen, lastErr))
        | None => ret ((ok, None), (seen, lastErr))
        end
  end.

(** Lines 194-211; the closure assigns [kubeconfig]. *)
Definition kubeconfigCondition (m : jobManager) (namespace targetPodName : string)
  : ConditionFunc string :=
  fun kubeconfig =>
  let* r := commandContents (coreConfig m) namespace targetPodName "test"
                            ["cat"; "/tmp/admin.kubeconfig"] in
  let contents := fst r in
  match snd r with
  | Some err =>
      if Contains (Error err) "container not found" then
        let* g := call (EvGetPod namespace targetPodName)
                       (fun h => PodsGet (coreClient m) h namespace targetPodName) in
        let pod := match g with PodGetOk pod => Some pod | PodGetErr pod _ => pod end in
        let notFound := match g with PodGetOk _ => false | PodGetErr _ err => IsNotFound err end in
        if notFound || match pod with Some pod => terminalPhase pod | None => false end
        then ret ((false,
                   Some (Errorf "pod cannot be found or has been deleted, assume cluster won't come up")),
                  kubeconfig)
        else ret ((false, None), kubeconfig)
      else
        let* _ := logPrintf ("Unable to retrieve config contents: " +:+ Error err) in
        ret ((false, None), kubeconfig)
  | None =>
      let kubeconfig := contents in
      ret ((len contents >? 0, None), kubeconfig)
  end.

(** ** package main: [launchJob], by segments of its body *)

Definition channelPatch : string :=
  "{" +:+ quote +:+ "metadata" +:+ quote +:+ ":{" +:+ quote +:+ "annotations" +:+ quote
  +:+ ":{" +:+ quote +:+ "ci-chat-bot.openshift.io/channel" +:+ quote +:+ ":"
  +:+ quote +:+ quote +:+ "}}}".

Definition MergePatchType : string := "application/merge-patch+json".

(** Lines 68-95: identity, annotations and labels of the job resource. *)
Definition stampMeta (m : jobManager) (job : Job) (namespace : string) (pj : ProwJob)
  : ObjectMeta :=
  let annotations : gmap string string :=
    list_to_map
      [ ("ci-chat-bot.openshift.io/mode", Mode job);
        ("ci-chat-bot.openshift.io/user", RequestedBy job);
        ("ci-chat-bot.openshift.io/channel", RequestedChannel job);
        ("ci-chat-bot.openshift.io/ns", namespace);
        ("ci-chat-bot.openshift.io/releaseImage", InstallImage job);
        ("ci-chat-bot.openshift.io/upgradeImage", UpgradeImage job);
        ("prow.k8s.io/job", spec_Job (pj_Spec pj)) ] in
  let labels : gmap string string :=
    list_to_map
      [ ("ci-chat-bot.openshift.io/launch", "true");
        ("prow.k8s.io/type", spec_Type (pj_Spec pj));
        ("prow.k8s.io/job", spec_Job (pj_Spec pj)) ] in
  if (len (InstallVersion job) >? 0) && (len (UpgradeVersion job) >? 0) then
    {| om_Name := Name job;
       om_Namespace := prowNamespace m;
       Annotations := <["release.openshift.io/tag" := UpgradeVersion job]>
                        (<["release.openshift.io/from-tag" := InstallVersion job]> annotations);
       Labels := <["release.openshift.io/verify" := "true"]> labels |}
  else
    {| om_Name := Name job;
       om_Namespace := prowNamespace m;
       Annotations := annotations;
       Labels := labels |}.

(** Line 56. *)
Definition derivedNamespace (name : string) : string :=
  "ci-ln-" +:+ namespaceSafeHash [name].

(** Lines 68-103: the template stamped with the request's identity and with
    its environment overridden. [None] is the nil dereference inside
    [OverrideJobEnvironment]. *)
Definition jobResource (m : jobManager) (job : Job) (namespace : string) (pj : ProwJob)
  : option ProwJob :=
  let meta := stampMeta m job namespace pj in
  let image := InstallImage job in
  let initialImage := "" in
  let '(image, initialImage) :=
    if len (UpgradeImage job) >? 0 then (UpgradeImage job, image)
    else (image, initialImage) in
  match OverrideJobEnvironment (pj_Spec pj) image initialImage namespace with
  | None => None
  | Some spec =>
      Some {| pj_TypeMeta := pj_TypeMeta pj; pj_ObjectMeta := meta;
              pj_Spec := spec; pj_Status := pj_Status pj |}
  end.

(** Lines 56-111: resolve the template, stamp it, override its environment
    and create the job resource. Falls through with the derived namespace
    and the target pod name. *)
Definition submit (m : jobManager) : M (flow (string * string)) :=
  let* job := getJob in
  let namespace := derivedNamespace (Name job) in
  let* r := JobForConfig (prowConfigLoader m) (JobName job) in
  match r with
  | inl err => ret (Exit (Return (Some err)))
  | inr pj =>
      match findTargetName (spec_PodSpec (pj_Spec pj)) with
      | inl err => ret (Exit (Return (Some err)))
      | inr targetPodName =>
          match jobResource m job namespace pj with
          | None => ret (Exit Panic)
          | Some pj =>
              let* err := call (EvCreate (prowNamespace m) (ObjectToUnstructured pj))
                               (fun h => Create (prowClient m) h (prowNamespace m)
                                                (ObjectToUnstructured pj)) in
              let proceed :=
                let* _ := logPrintf ("prow job " +:+ Name job
                                     +:+ " launched to target namespace " +:+ namespace) in
                ret (Next (namespace, targetPodName)) in
              match err with
              | Some err =>
                  if negb (IsAlreadyExists err) then ret (Exit (Return (Some err)))
                  else proceed
              | None => proceed
              end
          end
      end
  end.

(** Lines 112-129. *)
Definition awaitURL (m : jobManager) : M (flow unit) :=
  let* r := PollImmediate (10 * Second) (15 * Minute) (urlCondition m) tt in
  match fst r with
  | Some err =>
      ret (Exit (Return (Some (Errorf ("did not retrieve job url due to an error: "
                                       +:+ Error err)))))
  | None => ret (Next tt)
  end.

(** Lines 135-155. *)
Definition awaitPod (m : jobManager) : M (flow unit) :=
  let seen := false in
  let* r := PollImmediate (5 * Second) (15 * Minute) (podCondition m) seen in
  match fst r with
  | Some err =>
      ret (Exit (Return (Some (Errorf ("unable to check launch status: " +:+ Error err)))))
  | None => ret (Next tt)
  end.

(** Lines 157-189. *)
Definition awaitSetup (m : jobManager) (namespace targetPodName : string) : M (flow unit) :=
  let* _ := logPrintf ("waiting for setup container in pod " +:+ namespace +:+ "/"
                       +:+ targetPodName +:+ " to complete") in
  let seen := false in
  let lastErr : option error := None in
  let* r := PollImmediate (5 * Second) (45 * Minute)
                          (setupCondition m namespace targetPodName) (seen, lastErr) in
  let '(_, lastErr) := snd r in
  match fst r with
  | Some err =>
      let err :=
        match lastErr with
        | Some lastErr => if isErrWaitTimeout err then lastErr else err
        | None => err
        end in
      ret (Exit (Return (Some (Errorf ("pod never became available: " +:+ Error err)))))
  | None => ret (Next tt)
  end.

(** Lines 191-214. Falls through with the kubeconfig. *)
Definition fetchKubeconfig (m : jobManager) (namespace targetPodName : string)
  : M (flow string) :=
  let* _ := logPrintf "trying to grab the kubeconfig from launched pod" in
  let kubeconfig := "" in
  let* r := PollImmediate (30 * Second) (10 * Minute)
                          (kubeconfigCondition m namespace targetPodName) kubeconfig in
  let kubeconfig := snd r in
  match fst r with
  | Some err =>
      ret (Exit (Return (Some (Errorf ("could not retrieve kubeconfig from pod: "
                                       +:+ Error err)))))
  | None => ret (Next kubeconfig)
  end.

(** Lines 216-240. *)
Definition deliver (m : jobManager) (namespace targetPodName kubeconfig : string)
  : M outcome :=
  let* job := getJob in
  let* _ := putJob (set_Credentials job kubeconfig) in
  let* r := waitForClusterReachable kubeconfig in
  let* waitErr :=
    match r with
    | Some err =>
        let* _ := logPrintf ("error: unable to wait for the cluster to start: "
                             +:+ Error err) in
        let* job := getJob in
        let* _ := putJob (set_Credentials job "") in
        ret (Some (Errorf ("cluster did not become reachable: " +:+ Error err)))
    | None => ret None
    end in
  let lines := 2 in
  let* r := call (EvGetLogs namespace targetPodName "setup" lines)
                 (fun h => GetLogs (coreClient m) h namespace targetPodName "setup" lines) in
  let logs := fst r in
  let* _ := match snd r with
            | Some _ => logPrintf "error: unable to get setup logs"
            | None => ret tt
            end in
  let* job := getJob in
  let* _ := putJob (set_PasswordSnippet job (reFixLines_ReplaceAllString logs)) in
  let patch := channelPatch in
  let* perr := call (EvPatch (prowNamespace m) (Name job) MergePatchType patch)
                    (fun h => Patch (prowClient m) h (prowNamespace m) (Name job)
                                    MergePatchType patch) in
  let* _ := match perr with
            | Some err =>
                logPrintf ("error: unable to clear channel annotation from prow job: "
                           +:+ Error err)
            | None => ret tt
            end in
  ret (Return waitErr).

(** Line 52: the request already carries both outputs. *)
Definition fulfilled (job : Job) : bool :=
  (len (Credentials job) >? 0) && (len (PasswordSnippet job) >? 0).

(** Lines 131-240: what follows once the URL is recorded. *)
Definition afterURL (m : jobManager) (namespace targetPodName : string) : M outcome :=
  let* job := getJob in
  if negb (String.eqb (Mode job) "launch") then ret (Return None)
  else
    let+ _ := awaitPod m in
    let+ _ := awaitSetup m namespace targetPodName in
    let+ kubeconfig := fetchKubeconfig m namespace targetPodName in
    deliver m namespace targetPodName kubeconfig.

(** [launchJob] creates a ProwJob and watches its status as it goes. *)
Definition launchJob (m : jobManager) : M outcome :=
  let* job := getJob in
  if fulfilled job then ret (Return None)
  else
    let+ (namespace, targetPodName) := submit m in
    let+ _ := awaitURL m in
    afterURL m namespace targetPodName.

(** ** Vocabulary for statements about a run *)

(** The run from [s] has submitted the job and recorded its URL: it stands
    at line 130 in state [s2], with the derived namespace and target. *)
Definition urlRecorded (m : jobManager) (s : State) (namespace targetPodName : string)
    (s2 : State) : Prop :=
  fulfilled (job s) = false /\
  exists s1, submit m s = (Next (namespace, targetPodName), s1) /\
             awaitURL m s1 = (Next tt, s2).

(** The run from [s] has retrieved the kubeconfig: it stands at line 215
    in state [s5]. *)
Definition credentialsRetrieved (m : jobManager) (s : State)
    (namespace targetPodName kubeconfig : string) (s5 : State) : Prop :=
  exists s2 s3 s4,
    urlRecorded m s namespace targetPodName s2 /\
    Mode (job s2) = "launch" /\
    awaitPod m s2 = (Next tt, s3) /\
    awaitSetup m namespace targetPodName s3 = (Next tt, s4) /\
    fetchKubeconfig m namespace targetPodName s4 = (Next kubeconfig, s5).


(** The manager [m] with a job resource API whose create always succeeds. *)
Definition createSucceeds (m : jobManager) : jobManager :=
  {| prowConfigLoader := prowConfigLoader m;
     prowClient := {| Create := fun _ _ _ => None;
                      Get := Get (prowClient m);
                      Patch := Patch (prowClient m) |};
     coreClient := coreClient m;
     coreConfig := coreConfig m;
     prowNamespace := prowNamespace m |}.

End Launch.

Arguments prowConfigLoader {w} _.
Arguments prowClient {w} _.
Arguments coreClient {w} _.
Arguments coreConfig {w} _.
Arguments prowNamespace {w} _.

(** [s'] is [s] after more calls, all of them in the class [P]. *)
Definition appends (P : Event -> Prop) (s s' : State) : Prop :=
  exists evs, trace s' = trace s ++ evs /\ Forall P evs.

(** The request [j'] is [j] with at most its URL rewritten. *)
Definition sameButURL (j j' : Job) : Prop := j' = set_URL j (URL j').

Definition advances (P : Event -> Prop) (s s' : State) : Prop :=
  appends P s s' /\ sameButURL (job s) (job s').

(** The calls of the submission and URL stages. *)
Definition submissionEvent (e : Event) : Prop :=
  match e with
  | EvConfig | EvCreate _ _ | EvGetProwJob _ _ | EvLog _ => True
  | _ => False
  end.

Definition anyEvent (e : Event) : Prop := True.


(** What one fresh fetch of the target pod reports (lines 199-200). *)
Definition reportsNotFound (g : PodGet) : bool :=
  match g with
  | PodGetOk _ => false
  | PodGetErr _ err => IsNotFound err
  end.

Definition reportsTerminalPhase (g : PodGet) : bool :=
  match g with
  | PodGetOk pod => terminalPhase pod
  | PodGetErr (Some pod) _ => terminalPhase pod
  | PodGetErr None _ => false
  end.

(** ** The encoding, read as the design document words it

    The four bytes as one big-endian 32-bit number, followed by three zero
    bits, cut into seven groups of five bits from the most significant
    end; each group indexes the alphabet. *)

Definition word_of_bytes (b0 b1 b2 b3 : Z) : Z :=
  Z.lor (Z.lor (Z.lor (Z.shiftl b0 24) (Z.shiftl b1 16)) (Z.shiftl b2 8)) b3.

Definition group (v : Z) (k : Z) : Z :=
  Z.land (Z.shiftr (Z.shiftl v 3) (5 * (6 - k))) 31.

Definition alphabet : list ascii :=
  list_ascii_of_string (base32.encode oneWayNameEncoding).

Definition encodeWord (v : Z) : string :=
  string_of_list_ascii
    (map (fun k => nth (Z.to_nat (group v k)) alphabet zero) [0; 1; 2; 3; 4; 5; 6]).

Definition isDigit (c : ascii) : bool :=
  (48 <=? nat_of_ascii c)%nat && (nat_of_ascii c <=? 57)%nat.

Definition isLower (c : ascii) : bool :=
  (97 <=? nat_of_ascii c)%nat && (nat_of_ascii c <=? 122)%nat.

(** The lowercase letters the alphabet leaves out. *)
Definition leftOut (c : ascii) : bool :=
  existsb (Ascii.eqb c) (list_ascii_of_string "aeou").

(** Pairs of lowercase letters and digits that are easily taken for one
    another: zero and the letter o, one and the letters l and i. *)
Definition confusable (a b : ascii) : bool :=
  existsb (fun p => (Ascii.eqb a (fst p) && Ascii.eqb b (snd p))
                    || (Ascii.eqb a (snd p) && Ascii.eqb b (fst p)))
          [("0"%char, "o"%char); ("1"%char, "l"%char); ("1"%char, "i"%char);
           ("l"%char, "i"%char)].

(** An alphabet excludes visually ambiguous characters when no two of its
    symbols can be taken for one another. *)
Definition excludesAmbiguous (symbols : list ascii) : Prop :=
  forall a b, In a symbols -> In b symbols -> confusable a b = false.

(** ** Concrete platforms and requests *)

Module Scenario.

Definition template : ProwJobSpec :=
  {| spec_Type := "periodic";
     spec_Job := "release-launch";
     spec_PodSpec :=
       Some {| Containers :=
                 [ {| c_Name := "";
                      c_Args := ["--artifact-dir=/artifacts"; "--target=test"];
                      c_Env := [ {| ev_Name := "RELEASE_IMAGE_LATEST"; ev_Value := "stale" |};
                                 {| ev_Name := "NAMESPACE"; ev_Value := "" |};
                                 {| ev_Name := "CLUSTER_TYPE"; ev_Value := "aws" |} ] |} ] |} |}.

Definition lookupJob (config : list (string * ProwJobSpec)) (jobName : string)
  : option ProwJobSpec :=
  match List.find (fun p => String.eqb (fst p) jobName) config with
  | Some p => Some (snd p)
  | None => None
  end.

(** A platform whose clock allows [attempts] further attempts per poll,
    whose exec stream answers [exec] and whose provisioned cluster answers
    [cluster]. *)
Definition world (attempts : nat) (exec : string * option error) (cluster : option error)
  : World :=
  {| Config := list (string * ProwJobSpec);
     Periodic := ProwJobSpec;
     DecorationConfig := unit;
     HasProwJob := lookupJob;
     DefaultDecorationConfig := fun _ => tt;
     ProwSpecForPeriodicConfig := fun periodic _ => periodic;
     TriggeredState := "triggered";
     ticks := fun _ _ _ => attempts;
     Now := fun _ => 0;
     NewSPDYExecutor := fun _ _ => None;
     Stream := fun _ _ => exec;
     NewClientConfigFromBytes :=
       fun _ => inr {| ClientConfig := inr {| Host := "https://api.cluster"; Timeout := 0 |} |};
     NewForConfig := fun _ => None;
     NamespacesGet := fun _ _ _ => cluster |}.

Definition reported (url : string) : ProwJob :=
  {| pj_TypeMeta := {| APIVersion := "prow.k8s.io/v1"; Kind := "ProwJob" |};
     pj_ObjectMeta := {| om_Name := ""; om_Namespace := ""; Annotations := ∅; Labels := ∅ |};
     pj_Spec := template;
     pj_Status := {| StartTime := 0; status_State := "pending"; status_URL := url |} |}.

Definition settingUp : Pod :=
  {| Phase := "Running";
     ContainerStatuses := [ {| cs_Name := "setup"; cs_Terminated := Some {| ExitCode := 0 |} |} ] |}.

Definition loginLine : string :=
  "level=info msg=" +:+ quote +:+ "Login to the console with user: kubeadmin" +:+ quote.

(** A manager over such a platform, with its answer to create and its pod
    API. *)
Definition manager (attempts : nat) (exec : string * option error) (cluster : option error)
    (create : option error) (pods : History -> string -> string -> PodGet)
  : jobManager (world attempts exec cluster) :=
  Build_jobManager (world attempts exec cluster)
    (fun _ => Some [("release-launch", template)])
    {| Create := fun _ _ _ => create;
       Get := fun _ _ _ => inr (Uns (inr (reported "https://prow/view/1")));
       Patch := fun _ _ _ _ _ => None |}
    {| PodsGet := pods;
       GetLogs := fun _ _ _ _ _ => (loginLine, None) |}
    {| Host := "https://api.ci"; Timeout := 0 |}
    "ci".

Definition request (mode credentials snippet : string) : Job :=
  {| Name := "launch-abc123"; JobName := "release-launch"; Mode := mode;
     RequestedBy := "U123"; RequestedChannel := "C456";
     InstallImage := "registry/img:latest"; UpgradeImage := "";
     InstallVersion := ""; UpgradeVersion := "";
     URL := ""; Credentials := credentials; PasswordSnippet := snippet |}.

Definition start (job : Job) : State := {| job := job; trace := [] |}.

Definition podsUp : History -> string -> string -> PodGet :=
  fun _ _ _ => PodGetOk settingUp.

(** The job's own pod is up; the target pod is not yet ours to read. *)
Definition podsForbidden : History -> string -> string -> PodGet :=
  fun _ ns _ =>
    if String.eqb ns "ci" then PodGetOk settingUp
    else PodGetErr None (StatusError StatusReasonForbidden
                           "pods is forbidden: User cannot get resource pods").


Definition podsGone : History -> string -> string -> PodGet :=
  fun _ _ _ => PodGetErr None (StatusError StatusReasonNotFound "pods not found").

Definition refused : option error := Some (errorString "connection refused").
Definition alreadyExists : option error :=
  Some (StatusError StatusReasonAlreadyExists "prowjobs.prow.k8s.io already exists").
Definition containerNotFound : string * option error :=
  ("", Some (errorString "unable to upgrade connection: container not found (test)")).

(** Everything answers well. *)
Definition wUp : World := world 3 ("kubeconfig", None) None.
Definition mUp : jobManager wUp := manager 3 ("kubeconfig", None) None None podsUp.

(** The provisioned cluster never answers. *)
Definition wDown : World := world 3 ("kubeconfig", None) refused.
Definition mDown : jobManager wDown := manager 3 ("kubeconfig", None) refused None podsUp.

(** The target container is not there and the pod is gone. *)
Definition wStarting : World := world 3 containerNotFound None.
Definition mStarting : jobManager wStarting := manager 3 containerNotFound None None podsGone.

Definition mForbidden : jobManager wUp :=
  manager 3 ("kubeconfig", None) None None podsForbidden.


Definition mExists : jobManager wUp :=
  manager 3 ("kubeconfig", None) None alreadyExists podsUp.

Definition namespace : string := "ci-ln-p4iyd72".
Definition target : string := "test".

(** The template as [JobForConfig] hands it over on these platforms. *)
Definition resolved : ProwJob :=
  {| pj_TypeMeta := {| APIVersion := "prow.k8s.io/v1"; Kind := "ProwJob" |};
     pj_ObjectMeta := {| om_Name := ""; om_Namespace := ""; Annotations := ∅; Labels := ∅ |};
     pj_Spec := template;
     pj_Status := {| StartTime := 0; status_State := "triggered"; status_URL := "" |} |}.

Definition configLoaded : State := {| job := request "launch" "" ""; trace := [EvConfig] |}.

(** Where the run of [mDown] stands once the kubeconfig is retrieved, and
    after the probe of the cluster. *)
Definition submitted : State := snd (submit wDown mDown (start (request "launch" "" ""))).
Definition urlKnown : State := snd (awaitURL wDown mDown submitted).
Definition podVisible : State := snd (awaitPod wDown mDown urlKnown).
Definition setupDone : State := snd (awaitSetup wDown mDown namespace target podVisible).
Definition atCredentials : State :=
  snd (fetchKubeconfig wDown mDown namespace target setupDone).

Definition afterProbe : State :=
  snd (waitForClusterReachable wDown "kubeconfig"
         {| job := set_Credentials (job atCredentials) "kubeconfig";
            trace := trace atCredentials |}).

(** Where the run of [mUp] for a "build" request stands once the URL is
    recorded. *)
Definition atURL : State :=
  snd (awaitURL wUp mUp (snd (submit wUp mUp (start (request "build" "" ""))))).

Definition catKubeconfig : list string := ["cat"; "/tmp/admin.kubeconfig"].

Definition afterExec : State :=
  snd (commandContents wStarting (coreConfig mStarting) namespace target "test"
         catKubeconfig (start (request "launch" "" ""))).

End Scenario.

(** ** Vocabulary for further statements *)

(** The result of the run as lines 221-225 make it from the probe's. *)
Definition wrapUnreachable (r : option error) : option error :=
  match r with
  | Some err => Some (Errorf ("cluster did not become reachable: " +:+ Error err))
  | None => None
  end.

Definition alnum (c : ascii) : bool := isDigit c || isLower c.

Definition labelChar (c : ascii) : bool := alnum c || Ascii.eqb c "-".

(** A DNS-1123 label, as a namespace name must be: at most 63 characters,
    lowercase letters, digits or dashes, the first and the last not a
    dash. *)
Definition dns1123Label (s : string) : bool :=
  let cs := list_ascii_of_string s in
  (length cs <=? 63)%nat
  && forallb labelChar cs
  && match cs with c :: _ => alnum c | [] => false end
  && match rev cs with c :: _ => alnum c | [] => false end.

(** A string without a line break. *)
Definition oneLine (l : string) : Prop := ~ In newline (list_ascii_of_string l).

(** ** Further platforms and requests *)

Module Cases.

Import Scenario.

Definition testContainer : Container :=
  {| c_Name := "";
     c_Args := ["--artifact-dir=/artifacts"; "--target=test"];
     c_Env := [ {| ev_Name := "RELEASE_IMAGE_LATEST"; ev_Value := "stale" |};
                {| ev_Name := "NAMESPACE"; ev_Value := "" |};
                {| ev_Name := "CLUSTER_TYPE"; ev_Value := "aws" |} ] |}.

Definition templatePod : PodSpec := {| Containers := [testContainer] |}.

(** A request to install one image and upgrade to another. *)
Definition upgradeRequest : Job :=
  {| Name := "launch-abc123"; JobName := "release-launch"; Mode := "launch";
     RequestedBy := "U123"; RequestedChannel := "C456";
     InstallImage := "registry/img:latest"; UpgradeImage := "registry/img:next";
     InstallVersion := "4.1.0"; UpgradeVersion := "4.2.0";
     URL := ""; Credentials := ""; PasswordSnippet := "" |}.

Definition upgradeResource : ProwJob :=
  match jobResource wUp mUp upgradeRequest namespace resolved with
  | Some pj => pj
  | None => resolved
  end.

(** A request for a job the configuration does not have. *)
Definition strayRequest : Job :=
  {| Name := "launch-abc123"; JobName := "no-such-job"; Mode := "launch";
     RequestedBy := "U123"; RequestedChannel := "C456";
     InstallImage := "registry/img:latest"; UpgradeImage := "";
     InstallVersion := ""; UpgradeVersion := "";
     URL := ""; Credentials := ""; PasswordSnippet := "" |}.

Definition pendingPod : Pod :=
  {| Phase := "Running";
     ContainerStatuses := [ {| cs_Name := "setup"; cs_Terminated := None |} ] |}.

Definition exitedPod : Pod :=
  {| Phase := "Succeeded";
     ContainerStatuses := [ {| cs_Name := "setup"; cs_Terminated := Some {| ExitCode := 0 |} |} ] |}.

Definition isPodFetch (e : Event) : bool :=
  match e with
  | EvGetPod _ _ => true
  | _ => false
  end.

(** The pod is setting up on the first fetch and gone on the next ones. *)
Definition podsLeaving : History -> string -> string -> PodGet :=
  fun h _ _ =>
    if existsb isPodFetch h
    then PodGetErr None (StatusError StatusReasonNotFound "pods not found")
    else PodGetOk pendingPod.

Definition mLeaving : jobManager wUp :=
  manager 3 ("kubeconfig", None) None None podsLeaving.

Definition mExited : jobManager wUp :=
  manager 3 ("kubeconfig", None) None None (fun _ _ _ => PodGetOk exitedPod).

Definition fresh : State := start (request "launch" "" "").

(** The run of [mUp], stage by stage. *)
Definition upSubmitted : State := snd (submit wUp mUp fresh).
Definition upURL : State := snd (awaitURL wUp mUp upSubmitted).
Definition upPod : State := snd (awaitPod wUp mUp upURL).
Definition upSetup : State := snd (awaitSetup wUp mUp namespace target upPod).
Definition upCredentials : State := snd (fetchKubeconfig wUp mUp namespace target upSetup).
Definition upDone : State := snd (launchJob wUp mUp fresh).

Definition forbiddenEnd : State := snd (launchJob wUp mForbidden fresh).

Definition noSuchJob : error :=
  Errorf "the prow job no-such-job is not valid: no job with that name".

Definition setupLog : list string :=
  ["level=debug msg=done"; loginLine; "Install complete"].

End Cases.

(** * Properties *)

(** ** Test vectors *)

Example sha256_abc :
  hex_of_bytes (sha256.Sum256 (bytes_of_string "abc"))
  = "ba7816bf8f01cfea414140de5dae2223b00361a396177a9cb410ff61f20015ad".
Proof. vm_compute. reflexivity. Qed.

Example sha256_empty :
  hex_of_bytes (sha256.Sum256 [])
  = "e3b0c44298fc1c149afbf4c8996fb92427ae41e4649b934ca495991b7852b855".
Proof. vm_compute. reflexivity. Qed.

Example sha256_two_blocks :
  hex_of_bytes (sha256.Sum256 (repeat 97 100))
  = "2816597888e4a0d3a36b82b83316ab32680eb8f00f8cd3b904d681246d285a0e".
Proof. vm_compute. reflexivity. Qed.

Example namespaceSafeHash_launch_abc123 :
  namespaceSafeHash ["launch-abc123"] = "p4iyd72".
Proof. vm_compute. reflexivity. Qed.

(** ** The Identifier Hasher *)

Lemma round_length s kw : length s = 8%nat -> length (sha256.round s kw) = 8%nat.
Proof.
  intros H. do 9 (destruct s as [|? s]; try discriminate H). reflexivity.
Qed.

Lemma rounds_length kws : forall s, length s = 8%nat -> length (fold_left sha256.round kws s) = 8%nat.
Proof.
  induction kws as [|kw kws IH]; intros s H; cbn; [exact H|].
  apply IH, round_length, H.
Qed.

Lemma compress_length h block : length h = 8%nat -> length (sha256.compress h block) = 8%nat.
Proof.
  intros H. unfold sha256.compress.
  rewrite length_map, length_combine, rounds_length by exact H. lia.
Qed.

Lemma blocks_length blocks : forall h, length h = 8%nat -> length (fold_left sha256.compress blocks h) = 8%nat.
Proof.
  induction blocks as [|b bs IH]; intros h H; cbn; [exact H|].
  apply IH, compress_length, H.
Qed.

Lemma be_bytes_range n x : Forall (fun b => 0 <= b < 256) (sha256.be_bytes n x).
Proof.
  induction n as [|n IH]; cbn [sha256.be_bytes]; constructor; [|exact IH].
  change 255 with (Z.ones 8). rewrite Z.land_ones by lia.
  apply Z.mod_pos_bound. lia.
Qed.

Lemma be_bytes_length n x : length (sha256.be_bytes n x) = n.
Proof. induction n as [|n IH]; cbn; [reflexivity | now rewrite IH]. Qed.

Lemma Sum256_range msg : Forall (fun b => 0 <= b < 256) (sha256.Sum256 msg).
Proof.
  unfold sha256.Sum256. apply Forall_concat, Forall_map, Forall_forall.
  intros x _. apply be_bytes_range.
Qed.

Lemma Sum256_length msg : length (sha256.Sum256 msg) = 32%nat.
Proof.
  unfold sha256.Sum256.
  pose proof (blocks_length (sha256.chunks (length (sha256.pad msg)) 64 (sha256.pad msg))
                sha256.H0 eq_refl) as H.
  destruct (fold_left _ _ _) as [|h0 l]; [discriminate H|].
  do 8 (destruct l as [|? l]; try discriminate H).
  reflexivity.
Qed.

Lemma Sum256_first4 msg :
  exists b0 b1 b2 b3,
    take 4 (sha256.Sum256 msg) = [b0; b1; b2; b3] /\
    0 <= b0 < 256 /\ 0 <= b1 < 256 /\ 0 <= b2 < 256 /\ 0 <= b3 < 256.
Proof.
  pose proof (Sum256_length msg) as Hl. pose proof (Sum256_range msg) as Hr.
  destruct (sha256.Sum256 msg) as [|b0 [|b1 [|b2 [|b3 rest]]]]; try discriminate Hl.
  exists b0, b1, b2, b3. split; [reflexivity|].
  inversion_clear Hr as [|? ? H0 Hr0]. inversion_clear Hr0 as [|? ? H1 Hr1].
  inversion_clear Hr1 as [|? ? H2 Hr2]. inversion_clear Hr2 as [|? ? H3 _].
  auto.
Qed.

Ltac bytes_blast :=
  repeat match goal with
         | H : 0 <= ?b < 256 |- _ =>
             rewrite <- (Z.mod_small b (2 ^ 8)) by (exact H); clear H
         end;
  change 31 with (Z.ones 5); rewrite ?Z.land_ones by lia;
  Z.bitblast;
  repeat match goal with
         | |- context [Z.testbit ?b ?l] => rewrite (Z.testbit_neg_r b l) by lia
         end;
  cbn [andb orb negb]; try btauto; try reflexivity.

Lemma quantum_groups b0 b1 b2 b3 :
  0 <= b0 < 256 -> 0 <= b1 < 256 -> 0 <= b2 < 256 -> 0 <= b3 < 256 ->
  base32.quantum [b0; b1; b2; b3]
  = map (group (word_of_bytes b0 b1 b2 b3)) [0; 1; 2; 3; 4; 5; 6] ++ [0].
Proof.
  intros H0 H1 H2 H3. unfold base32.quantum, group, word_of_bytes.
  cbn [length Nat.leb nth map app].
  change (5 * (6 - 0)) with 30. change (5 * (6 - 1)) with 25. change (5 * (6 - 2)) with 20.
  change (5 * (6 - 3)) with 15. change (5 * (6 - 4)) with 10. change (5 * (6 - 5)) with 5.
  change (5 * (6 - 6)) with 0.
  repeat (apply (f_equal2 (@cons Z)); [ bytes_blast | ]). reflexivity.
Qed.

Lemma group_range v k : 0 <= group v k < 32.
Proof.
  unfold group. change 31 with (Z.ones 5). rewrite Z.land_ones by lia.
  apply Z.mod_pos_bound. lia.
Qed.

Lemma symbol_alphabet v :
  0 <= v < 32 ->
  base32.symbol oneWayNameEncoding v = nth (Z.to_nat v) alphabet zero
  /\ In (nth (Z.to_nat v) alphabet zero) alphabet.
Proof.
  intros Hv. unfold base32.symbol.
  replace (Z.land v 31) with v
    by (change 31 with (Z.ones 5); rewrite Z.land_ones by lia; symmetry; apply Z.mod_small; lia).
  assert (Hn : (Z.to_nat v < 32)%nat) by lia.
  set (n := Z.to_nat v) in *. clearbody n. clear Hv.
  do 32 (destruct n as [|n]; [split; [reflexivity | vm_compute; tauto] |]).
  lia.
Qed.

Lemma encode_first4 b0 b1 b2 b3 :
  0 <= b0 < 256 -> 0 <= b1 < 256 -> 0 <= b2 < 256 -> 0 <= b3 < 256 ->
  base32.EncodeToString oneWayNameEncoding [b0; b1; b2; b3]
  = encodeWord (word_of_bytes b0 b1 b2 b3).
Proof.
  intros H0 H1 H2 H3. unfold base32.EncodeToString, encodeWord.
  cbn [length base32.encodeLoop take drop].
  unfold base32.encodeQuantum. cbn [length Nat.leb base32.dataSymbols].
  change (base32.padChar oneWayNameEncoding) with (@None ascii). cbv iota.
  rewrite quantum_groups by assumption.
  cbn [map app take]. rewrite ?app_nil_r.
  f_equal.
  repeat (apply (f_equal2 (@cons ascii)); [ apply symbol_alphabet, group_range | ]).
  reflexivity.
Qed.

Lemma alphabet_members c :
  existsb (Ascii.eqb c) alphabet = isDigit c || isLower c && negb (leftOut c).
Proof.
  destruct c as [[] [] [] [] [] [] [] []]; vm_compute; reflexivity.
Qed.

(** C7, as the code has it. The hash of a sequence of strings is the
    encoding of the first four bytes of the SHA-256 digest of their
    concatenated bytes: seven symbols, one per five-bit group of those
    bytes, no padding, each drawn from an alphabet of 32 distinct symbols
    which are the digits and the lowercase letters other than a, e, o and
    u. It is a function of the concatenated bytes alone. *)
Theorem namespaceSafeHash_encoding (values : list string) :
  let digest := sha256.Sum256 (concat (map bytes_of_string values)) in
  (exists b0 b1 b2 b3,
      take 4 digest = [b0; b1; b2; b3]
      /\ namespaceSafeHash values = encodeWord (word_of_bytes b0 b1 b2 b3))
  /\ String.length (namespaceSafeHash values) = 7%nat
  /\ (forall c, In c (list_ascii_of_string (namespaceSafeHash values)) -> In c alphabet)
  /\ (forall values',
        concat (map bytes_of_string values') = concat (map bytes_of_string values) ->
        namespaceSafeHash values' = namespaceSafeHash values)
  /\ base32.padChar oneWayNameEncoding = base32.NoPadding
  /\ length alphabet = 32%nat
  /\ NoDup alphabet
  /\ (forall c, In c alphabet <-> isDigit c || isLower c && negb (leftOut c) = true).
Proof.
  intros digest.
  destruct (Sum256_first4 (concat (map bytes_of_string values)))
    as (b0 & b1 & b2 & b3 & Ht & H0 & H1 & H2 & H3).
  assert (He : namespaceSafeHash values = encodeWord (word_of_bytes b0 b1 b2 b3)).
  { unfold namespaceSafeHash. rewrite Ht. apply encode_first4; assumption. }
  split; [exists b0, b1, b2, b3; split; [exact Ht | exact He] |].
  split; [rewrite He; reflexivity |].
  split.
  { intros c. rewrite He. unfold encodeWord. rewrite list_ascii_of_string_of_list_ascii.
    rewrite in_map_iff. intros (k & <- & _). apply symbol_alphabet, group_range. }
  split; [intros values' Hc; unfold namespaceSafeHash; now rewrite Hc |].
  split; [reflexivity |].
  split; [reflexivity |].
  split.
  { apply (bool_decide_unpack _). vm_compute. exact I. }
  intros c. rewrite <- alphabet_members, existsb_exists. split.
  - intros Hc. exists c. split; [exact Hc | apply Ascii.eqb_refl].
  - intros (x & Hx & Heq). apply Ascii.eqb_eq in Heq. now subst x.
Qed.

(** Against C7 as worded: the alphabet holds both the digit one and the
    letter l, which are taken for one another. *)
Lemma alphabet_keeps_one_and_l : ~ excludesAmbiguous alphabet.
Proof.
  intros H. specialize (H "1"%char "l"%char).
  assert (H1 : In "1"%char alphabet) by (vm_compute; tauto).
  assert (Hl : In "l"%char alphabet) by (vm_compute; tauto).
  specialize (H H1 Hl). vm_compute in H. discriminate H.
Qed.

(** Against C4 as worded: what follows "ci-ln-" in the namespace derived
    for "launch-abc123" does not have eight characters. *)
Lemma namespace_hash_not_8 :
  ~ exists h, derivedNamespace "launch-abc123" = "ci-ln-" +:+ h /\ String.length h = 8%nat.
Proof.
  intros (h & Hn & Hl).
  assert (Hd : derivedNamespace "launch-abc123" = "ci-ln-" +:+ "p4iyd72")
    by (vm_compute; reflexivity).
  rewrite Hd in Hn. cbv [String.append] in Hn. injection Hn as Hh. subst h. discriminate Hl.
Qed.

(** ** Frames: what a segment may touch *)

Lemma sameButURL_refl j : sameButURL j j.
Proof. unfold sameButURL. destruct j; reflexivity. Qed.

Lemma sameButURL_trans j1 j2 j3 : sameButURL j1 j2 -> sameButURL j2 j3 -> sameButURL j1 j3.
Proof. unfold sameButURL. intros H12 H23. rewrite H23, H12. reflexivity. Qed.

Lemma sameButURL_set_URL j v : sameButURL j (set_URL j v).
Proof. reflexivity. Qed.

Lemma appends_refl P s : appends P s s.
Proof. exists []. split; [now rewrite app_nil_r | constructor]. Qed.

Lemma appends_trans P s1 s2 s3 : appends P s1 s2 -> appends P s2 s3 -> appends P s1 s3.
Proof.
  intros (e1 & H1 & F1) (e2 & H2 & F2). exists (e1 ++ e2). split.
  - rewrite H2, H1. now rewrite app_assoc.
  - apply Forall_app; auto.
Qed.

Lemma appends_weaken (P Q : Event -> Prop) s s' :
  (forall e, P e -> Q e) -> appends P s s' -> appends Q s s'.
Proof.
  intros HPQ (evs & H & F). exists evs. split; [exact H|].
  eapply Forall_impl; [exact F | exact HPQ].
Qed.

Lemma advances_refl P s : advances P s s.
Proof. split; [apply appends_refl | apply sameButURL_refl]. Qed.

Lemma advances_trans P s1 s2 s3 : advances P s1 s2 -> advances P s2 s3 -> advances P s1 s3.
Proof.
  intros [A1 J1] [A2 J2]. split; [eapply appends_trans | eapply sameButURL_trans]; eauto.
Qed.

Lemma advances_weaken (P Q : Event -> Prop) s s' :
  (forall e, P e -> Q e) -> advances P s s' -> advances Q s s'.
Proof. intros HPQ [A J]. split; [eapply appends_weaken; eauto | exact J]. Qed.

Lemma advances_call {A} (P : Event -> Prop) e (answer : History -> A) s :
  P e -> advances P s (snd (call e answer s)).
Proof.
  intros He. split; [|apply sameButURL_refl].
  exists [e]. split; [reflexivity | repeat constructor; exact He].
Qed.

Lemma advances_log (P : Event -> Prop) msg s :
  P (EvLog msg) -> advances P s (snd (logPrintf msg s)).
Proof. apply advances_call. Qed.

(** ** The poll *)

Section Poll.

Variable w : World.
Context {L : Type}.
Variable condition : ConditionFunc L.

Lemma pollLoop_unfold n l s :
  pollLoop n condition l s =
  match condition l s with
  | ((_, Some err), l', s') => ((Some err, l'), s')
  | ((true, None), l', s') => ((None, l'), s')
  | ((false, None), l', s') =>
      match n with
      | O => ((Some ErrWaitTimeout, l'), s')
      | S n' => pollLoop n' condition l' s'
      end
  end.
Proof. destruct n; reflexivity. Qed.

(** A poll keeps whatever every attempt keeps. *)
Lemma pollLoop_advances P :
  (forall l s, advances P s (snd (condition l s))) ->
  forall n l s, advances P s (snd (pollLoop n condition l s)).
Proof.
  intros Hc n. induction n as [|n IH]; intros l s; rewrite pollLoop_unfold;
    specialize (Hc l s); destruct (condition l s) as [[[[] [err|]] l'] s'];
    cbn [snd] in *; try exact Hc.
  eapply advances_trans; [exact Hc | apply IH].
Qed.

Lemma PollImmediate_advances P interval timeout :
  (forall l s, advances P s (snd (condition l s))) ->
  forall l s, advances P s (snd (PollImmediate w interval timeout condition l s)).
Proof. intros Hc l s. unfold PollImmediate. apply pollLoop_advances, Hc. Qed.

(** A poll starts with one attempt. *)
Lemma pollLoop_first_attempt P :
  (forall l s, advances P s (snd (condition l s))) ->
  forall n l s, advances P (snd (condition l s)) (snd (pollLoop n condition l s)).
Proof.
  intros Hc n l s. rewrite pollLoop_unfold.
  destruct (condition l s) as [[[[] [err|]] l'] s']; cbn [snd]; try apply advances_refl.
  destruct n; cbn [snd]; [apply advances_refl | apply pollLoop_advances, Hc].
Qed.

(** A poll that ends with nil ended on an attempt that answered true. *)
Lemma pollLoop_success n : forall l s l' s',
  pollLoop n condition l s = ((None, l'), s') ->
  exists l0 s0, condition l0 s0 = ((true, None), l', s').
Proof.
  induction n as [|n IH]; intros l s l' s'; rewrite pollLoop_unfold;
    destruct (condition l s) as [[[[] [err|]] l1] s1] eqn:Hc;
    try discriminate.
  - intros [= <- <-]. eauto.
  - intros [= <- <-]. eauto.
  - apply IH.
Qed.

(** A poll whose attempts all answer not-ready runs out of ticks. *)
Lemma pollLoop_timeout (I : L -> State -> Prop) :
  (forall l s, I l s ->
     exists l' s', condition l s = ((false, None), l', s') /\ I l' s') ->
  forall n l s, I l s ->
    exists l' s', pollLoop n condition l s = ((Some ErrWaitTimeout, l'), s') /\ I l' s'.
Proof.
  intros Hc n. induction n as [|n IH]; intros l s Hi; rewrite pollLoop_unfold;
    destruct (Hc l s Hi) as (l' & s' & -> & Hi'); [eauto | apply IH, Hi'].
Qed.

End Poll.

(** ** Frames of the segments of [launchJob] *)

(** Case analysis on an innermost scrutinee of the goal. *)
Ltac scrutinee t :=
  lazymatch t with
  | context [match ?y with _ => _ end] => scrutinee y
  | _ => t
  end.

Ltac break_match :=
  lazymatch goal with
  | |- ?g =>
      let x := scrutinee g in
      tryif constr_eq x g then fail else destruct x eqn:?
  end.

Ltac appends_now :=
  cbn [snd fst job trace];
  first [ exists []; split; [symmetry; apply app_nil_r | constructor]
        | eexists; split; [rewrite <- ?app_assoc; reflexivity | repeat constructor] ].

Ltac frame_now :=
  cbn [snd fst job trace];
  split; [ appends_now | first [ apply sameButURL_refl | reflexivity ] ].

Ltac run_body :=
  cbv beta iota zeta delta [bind ret call getJob putJob logPrintf];
  cbn [snd fst job trace].

(** Name the poll of the goal, record what it keeps and forget how it ran. *)
Ltac poll_frame lem :=
  match goal with
  | |- context [PollImmediate ?w ?i ?t ?c ?l ?s1] =>
      let H := fresh "H" in
      pose proof (PollImmediate_advances w c _ i t lem l s1) as H;
      destruct (PollImmediate w i t c l s1) as [[e l'] s'];
      cbn [fst snd] in *
  end.

Ltac run_cases := repeat (progress run_body || break_match).

Section Frames.

Variable w : World.
Variable m : jobManager w.

Lemma JobForConfig_state jobName s :
  snd (JobForConfig w (prowConfigLoader m) jobName s)
  = {| job := job s; trace := trace s ++ [EvConfig] |}.
Proof.
  unfold JobForConfig. run_cases; reflexivity.
Qed.

Lemma submit_advances s : advances submissionEvent s (snd (submit w m s)).
Proof.
  unfold submit, bind at 1 2, getJob. cbn [fst snd].
  pose proof (JobForConfig_state (JobName (job s)) s) as Hs.
  destruct (JobForConfig w (prowConfigLoader m) (JobName (job s)) s) as [r s1].
  cbn [snd] in Hs. subst s1. run_cases; frame_now.
Qed.

Lemma urlCondition_advances l s : advances submissionEvent s (snd (urlCondition w m l s)).
Proof. unfold urlCondition. run_cases; frame_now. Qed.

Lemma awaitURL_advances s : advances submissionEvent s (snd (awaitURL w m s)).
Proof.
  unfold awaitURL, bind.
  pose proof (PollImmediate_advances w (urlCondition w m) submissionEvent
                (10 * Second) (15 * Minute) urlCondition_advances tt s) as H.
  destruct (PollImmediate _ _ _ _ _ _) as [[[e|] l] s']; exact H.
Qed.

Lemma podCondition_advances l s : advances anyEvent s (snd (podCondition w m l s)).
Proof. unfold podCondition. run_cases; frame_now. Qed.

Lemma awaitPod_advances s : advances anyEvent s (snd (awaitPod w m s)).
Proof.
  unfold awaitPod, bind.
  pose proof (PollImmediate_advances w (podCondition w m) anyEvent
                (5 * Second) (15 * Minute) podCondition_advances false s) as H.
  destruct (PollImmediate _ _ _ _ _ _) as [[[e|] l] s']; exact H.
Qed.

Lemma setupCondition_advances namespace target l s :
  advances anyEvent s (snd (setupCondition w m namespace target l s)).
Proof.
  unfold setupCondition. destruct l as [seen lastErr]. run_cases; frame_now.
Qed.

Lemma awaitSetup_advances namespace target s :
  advances anyEvent s (snd (awaitSetup w m namespace target s)).
Proof.
  unfold awaitSetup. run_body.
  poll_frame (setupCondition_advances namespace target).
  destruct l' as [seen lastErr].
  eapply advances_trans; [|destruct e; exact H]. frame_now.
Qed.

Lemma commandContents_advances cfg ns name container command s :
  advances anyEvent s (snd (commandContents w cfg ns name container command s)).
Proof. unfold commandContents. run_cases; frame_now. Qed.

Lemma kubeconfigCondition_advances namespace target l s :
  advances anyEvent s (snd (kubeconfigCondition w m namespace target l s)).
Proof.
  unfold kubeconfigCondition, bind at 1.
  pose proof (commandContents_advances (coreConfig m) namespace target "test"
                ["cat"; "/tmp/admin.kubeconfig"] s) as H.
  destruct (commandContents _ _ _ _ _ _ _) as [[contents err] s1]. cbn [fst snd] in *.
  eapply advances_trans; [exact H |]. run_cases; frame_now.
Qed.

Lemma fetchKubeconfig_advances namespace target s :
  advances anyEvent s (snd (fetchKubeconfig w m namespace target s)).
Proof.
  unfold fetchKubeconfig. run_body.
  poll_frame (kubeconfigCondition_advances namespace target).
  eapply advances_trans; [|destruct e; exact H]. frame_now.
Qed.

Lemma reachableCondition_advances cfg l s :
  advances anyEvent s (snd (reachableCondition w cfg l s)).
Proof. unfold reachableCondition. run_cases; frame_now. Qed.

Lemma waitForClusterReachable_advances kubeconfig s :
  advances anyEvent s (snd (waitForClusterReachable w kubeconfig s)).
Proof.
  unfold waitForClusterReachable.
  destruct (loadKubeconfigContents w kubeconfig) as [err|cfg]; [apply advances_refl|].
  destruct (NewForConfig w _) as [err|]; [apply advances_refl|].
  unfold bind.
  match goal with
  | |- context [PollImmediate w ?i ?t (reachableCondition w ?c) tt s] =>
      pose proof (PollImmediate_advances w (reachableCondition w c) anyEvent i t
                    (reachableCondition_advances c) tt s) as H;
      destruct (PollImmediate w i t (reachableCondition w c) tt s) as [[e l] s']
  end.
  exact H.
Qed.

End Frames.

(** ** How [launchJob] decomposes *)

Section Run.

Variable w : World.
Variable m : jobManager w.

Lemma len_nonempty (x : string) : x <> "" -> (len x >? 0) = true.
Proof.
  destruct x; [congruence|]. intros _. unfold len. cbn [String.length].
  rewrite Z.gtb_ltb. apply Z.ltb_lt. lia.
Qed.

Lemma len_positive (x : string) : (len x >? 0) = true -> x <> "".
Proof. destruct x; [discriminate | congruence]. Qed.

Lemma deliver_appends namespace target kubeconfig s :
  appends anyEvent s (snd (deliver w m namespace target kubeconfig s)).
Proof.
  unfold deliver. run_body.
  match goal with
  | |- context [waitForClusterReachable w ?k ?s0] =>
      destruct (waitForClusterReachable_advances w k s0) as [Ha _];
      destruct (waitForClusterReachable w k s0) as [r s6]
  end.
  cbn [snd trace] in Ha. eapply appends_trans; [exact Ha|].
  run_cases; appends_now.
Qed.

Lemma afterURL_appends namespace target s :
  appends anyEvent s (snd (afterURL w m namespace target s)).
Proof.
  unfold afterURL, andThen. run_body.
  destruct (negb _); [apply appends_refl|].
  pose proof (awaitPod_advances w m s) as [H1 _].
  destruct (awaitPod w m s) as [[o|[]] s3]; [exact H1|]. cbn [snd] in H1.
  pose proof (awaitSetup_advances w m namespace target s3) as [H2 _].
  destruct (awaitSetup w m namespace target s3) as [[o|[]] s4];
    [eapply appends_trans; eauto|]. cbn [snd] in H2.
  pose proof (fetchKubeconfig_advances w m namespace target s4) as [H3 _].
  destruct (fetchKubeconfig w m namespace target s4) as [[o|k] s5];
    [eapply appends_trans; [|eapply appends_trans]; eauto|]. cbn [snd] in H3.
  pose proof (deliver_appends namespace target k s5) as H4.
  eapply appends_trans; [|eapply appends_trans; [|eapply appends_trans]]; eauto.
Qed.

Lemma launchJob_after_url s namespace target s2 :
  urlRecorded w m s namespace target s2 ->
  launchJob w m s = afterURL w m namespace target s2.
Proof.
  intros (Hf & s1 & Hs & Hu). unfold launchJob, andThen. run_body.
  rewrite Hf, Hs, Hu. reflexivity.
Qed.

Lemma launchJob_after_credentials s namespace target kubeconfig s5 :
  credentialsRetrieved w m s namespace target kubeconfig s5 ->
  launchJob w m s = deliver w m namespace target kubeconfig s5.
Proof.
  intros (s2 & s3 & s4 & Hu & Hm & Hp & Hse & Hk).
  rewrite (launchJob_after_url _ _ _ _ Hu). unfold afterURL, andThen. run_body.
  rewrite Hm. change (negb (String.eqb "launch" "launch")) with false. cbv beta iota.
  rewrite Hp, Hse, Hk. reflexivity.
Qed.

Lemma urlRecorded_advances s namespace target s2 :
  urlRecorded w m s namespace target s2 -> advances submissionEvent s s2.
Proof.
  intros (_ & s1 & Hs & Hu).
  pose proof (submit_advances w m s) as H1. rewrite Hs in H1.
  pose proof (awaitURL_advances w m s1) as H2. rewrite Hu in H2.
  eapply advances_trans; eauto.
Qed.

Lemma credentialsRetrieved_advances s namespace target kubeconfig s5 :
  credentialsRetrieved w m s namespace target kubeconfig s5 -> advances anyEvent s s5.
Proof.
  intros (s2 & s3 & s4 & Hu & Hm & Hp & Hse & Hk).
  pose proof (urlRecorded_advances _ _ _ _ Hu) as H0.
  apply (advances_weaken _ anyEvent) in H0; [|intros; exact I].
  pose proof (awaitPod_advances w m s2) as H1. rewrite Hp in H1.
  pose proof (awaitSetup_advances w m namespace target s3) as H2. rewrite Hse in H2.
  pose proof (fetchKubeconfig_advances w m namespace target s4) as H3. rewrite Hk in H3.
  eapply advances_trans; [|eapply advances_trans; [|eapply advances_trans]]; eauto.
Qed.

(** The kubeconfig the poll hands over is the non-empty output of its last
    attempt. *)
Lemma fetchKubeconfig_nonempty namespace target s kubeconfig s' :
  fetchKubeconfig w m namespace target s = (Next kubeconfig, s') -> kubeconfig <> "".
Proof.
  unfold fetchKubeconfig. run_body. unfold PollImmediate.
  destruct (pollLoop _ _ _ _) as [[[e|] k] s1] eqn:Hp; cbn [fst snd]; [discriminate|].
  intros [= <- <-].
  apply pollLoop_success in Hp. destruct Hp as (l0 & s0 & Hc).
  revert Hc. unfold kubeconfigCondition. run_body.
  destruct (commandContents _ _ _ _ _ _ _) as [[contents [err|]] s2]; cbn [fst snd].
  - run_cases; discriminate.
  - intros [= Hlen <- _]. apply len_positive, Hlen.
Qed.

Lemma urlCondition_trace l s :
  trace (snd (urlCondition w m l s))
  = trace s ++ [EvGetProwJob (prowNamespace m) (Name (job s))].
Proof. unfold urlCondition. run_cases; reflexivity. Qed.

(** The URL stage starts by fetching the job resource. *)
Lemma awaitURL_first_call s :
  exists rest,
    trace (snd (awaitURL w m s))
    = (trace s ++ [EvGetProwJob (prowNamespace m) (Name (job s))]) ++ rest.
Proof.
  unfold awaitURL. run_body. unfold PollImmediate.
  pose proof (pollLoop_first_attempt (urlCondition w m) submissionEvent
                (urlCondition_advances w m)
                (ticks w (trace s) (10 * Second) (15 * Minute)) tt s) as [[r1 [H1 _]] _].
  rewrite urlCondition_trace in H1.
  destruct (pollLoop _ _ _ _) as [[[e1|] l1] s3]; run_body; exists r1; exact H1.
Qed.

(** What [submit] does once the template resolves. *)
Lemma submit_resolved s tmpl s1 target :
  JobForConfig w (prowConfigLoader m) (JobName (job s)) s = (inr tmpl, s1) ->
  findTargetName (spec_PodSpec (pj_Spec tmpl)) = inr target ->
  let namespace := derivedNamespace (Name (job s)) in
  exists pj,
    jobResource w m (job s) namespace tmpl = Some pj /\
    s1 = {| job := job s; trace := trace s ++ [EvConfig] |} /\
    let create := EvCreate (prowNamespace m) (ObjectToUnstructured pj) in
    let logged := EvLog ("prow job " +:+ Name (job s)
                         +:+ " launched to target namespace " +:+ namespace) in
    let proceed := (Next (namespace, target),
                    {| job := job s; trace := trace s1 ++ [create; logged] |}) in
    submit w m s =
    match Create (prowClient m) (trace s1) (prowNamespace m) (ObjectToUnstructured pj) with
    | Some err =>
        if IsAlreadyExists err then proceed
        else (Exit (Return (Some err)), {| job := job s; trace := trace s1 ++ [create] |})
    | None => proceed
    end.
Proof.
  intros Hj Ht namespace.
  pose proof (JobForConfig_state w m (JobName (job s)) s) as Hs1. rewrite Hj in Hs1.
  cbn [snd] in Hs1.
  assert (Hr : exists pj, jobResource w m (job s) namespace tmpl = Some pj).
  { unfold jobResource, OverrideJobEnvironment.
    destruct (spec_PodSpec (pj_Spec tmpl)) as [ps|]; [|discriminate Ht].
    destruct (len (UpgradeImage (job s)) >? 0); eauto. }
  destruct Hr as [pj Hr]. exists pj. split; [exact Hr|]. split; [exact Hs1|].
  unfold submit. cbv beta iota zeta delta [bind getJob]. rewrite Hj. rewrite Ht.
  fold namespace. rewrite Hr. run_body. subst s1. cbn [job trace].
  destruct (Create _ _ _ _) as [err|]; [destruct (IsAlreadyExists err)|];
    cbn [negb]; run_body; rewrite <- ?app_assoc; reflexivity.
Qed.

End Run.

(** ** No nil dereference

    [findTargetName] has checked the pod spec before
    [OverrideJobEnvironment] dereferences it. *)

Section NoPanic.

Variable w : World.
Variable m : jobManager w.

Lemma submit_returns s o :
  fst (submit w m s) = Exit o -> exists err, o = Return err.
Proof.
  unfold submit, jobResource, OverrideJobEnvironment, findTargetName.
  cbv beta iota zeta delta [bind getJob].
  destruct (JobForConfig w (prowConfigLoader m) (JobName (job s)) s) as [[err|pj] s1];
    run_body; [intros [= <-]; eauto|].
  destruct (spec_PodSpec (pj_Spec pj)) as [ps|]; [|intros [= <-]; eauto].
  destruct (findTargetContainers (Containers ps)); [|intros [= <-]; eauto].
  destruct (len (UpgradeImage (job s)) >? 0); run_body;
    destruct (Create _ _ _ _) as [e|]; try destruct (IsAlreadyExists e); cbn [negb];
    run_body; intros [= <-]; eauto.
Qed.

Lemma awaitURL_returns s o :
  fst (awaitURL w m s) = Exit o -> exists err, o = Return err.
Proof.
  unfold awaitURL. run_body.
  destruct (PollImmediate _ _ _ _ _ _) as [[[e|] l] s']; run_body; intros [= <-]; eauto.
Qed.

Lemma awaitPod_returns s o :
  fst (awaitPod w m s) = Exit o -> exists err, o = Return err.
Proof.
  unfold awaitPod. run_body.
  destruct (PollImmediate _ _ _ _ _ _) as [[[e|] l] s']; run_body; intros [= <-]; eauto.
Qed.

Lemma awaitSetup_returns namespace target s o :
  fst (awaitSetup w m namespace target s) = Exit o -> exists err, o = Return err.
Proof.
  unfold awaitSetup. run_body.
  destruct (PollImmediate _ _ _ _ _ _) as [[[e|] [seen lastErr]] s']; run_body;
    intros [= <-]; eauto.
Qed.

Lemma fetchKubeconfig_returns namespace target s o :
  fst (fetchKubeconfig w m namespace target s) = Exit o -> exists err, o = Return err.
Proof.
  unfold fetchKubeconfig. run_body.
  destruct (PollImmediate _ _ _ _ _ _) as [[[e|] l] s']; run_body; intros [= <-]; eauto.
Qed.

Lemma deliver_returns namespace target kubeconfig s :
  exists err, fst (deliver w m namespace target kubeconfig s) = Return err.
Proof.
  unfold deliver. run_body.
  destruct (waitForClusterReachable w kubeconfig _) as [[e|] s6]; run_cases; eauto.
Qed.

Lemma launchJob_returns s : exists err, fst (launchJob w m s) = Return err.
Proof.
  unfold launchJob, afterURL, andThen. run_body.
  destruct (fulfilled (job s)); [eauto|].
  pose proof (submit_returns s) as H1.
  destruct (submit w m s) as [[o|[namespace target]] s1]; cbn [fst] in *;
    [destruct (H1 o eq_refl) as [err ->]; eauto|].
  pose proof (awaitURL_returns s1) as H2.
  destruct (awaitURL w m s1) as [[o|[]] s2]; cbn [fst] in *;
    [destruct (H2 o eq_refl) as [err ->]; eauto|].
  destruct (negb _); [eauto|].
  pose proof (awaitPod_returns s2) as H3.
  destruct (awaitPod w m s2) as [[o|[]] s3]; cbn [fst] in *;
    [destruct (H3 o eq_refl) as [err ->]; eauto|].
  pose proof (awaitSetup_returns namespace target s3) as H4.
  destruct (awaitSetup w m namespace target s3) as [[o|[]] s4]; cbn [fst] in *;
    [destruct (H4 o eq_refl) as [err ->]; eauto|].
  pose proof (fetchKubeconfig_returns namespace target s4) as H5.
  destruct (fetchKubeconfig w m namespace target s4) as [[o|k] s5]; cbn [fst] in *;
    [destruct (H5 o eq_refl) as [err ->]; eauto|].
  apply deliver_returns.
Qed.

End NoPanic.

(** ** Properties of the provisioning run *)

Section Properties.

Variable w : World.
Variable m : jobManager w.

(** C1. A request that already carries a credential artifact and a
    connection snippet makes [launchJob] return nil at once: no call is
    made and the request is left as it was. *)
Theorem launchJob_fulfilled_noop s :
  Credentials (job s) <> "" ->
  PasswordSnippet (job s) <> "" ->
  launchJob w m s = (Return None, s).
Proof.
  intros Hc Hp. unfold launchJob. run_body.
  unfold fulfilled. rewrite (len_nonempty _ Hc), (len_nonempty _ Hp). reflexivity.
Qed.

(** C2. When the kubeconfig was retrieved and the probe of the provisioned
    cluster fails with [err], the run clears the credential artifact it had
    just stored (a non-empty one), still fetches the setup logs and patches
    the channel annotation, and returns the probe's error. *)
Theorem unreachable_cluster_clears_credentials s namespace target kubeconfig s5 err s6 :
  credentialsRetrieved w m s namespace target kubeconfig s5 ->
  waitForClusterReachable w kubeconfig
    {| job := set_Credentials (job s5) kubeconfig; trace := trace s5 |} = (Some err, s6) ->
  exists s' evs,
    launchJob w m s
    = (Return (Some (Errorf ("cluster did not become reachable: " +:+ Error err))), s')
    /\ kubeconfig <> ""
    /\ Credentials (job s') = ""
    /\ trace s' = trace s6 ++ evs
    /\ In (EvGetLogs namespace target "setup" 2) evs
    /\ In (EvPatch (prowNamespace m) (Name (job s)) MergePatchType channelPatch) evs
    /\ exists logs, PasswordSnippet (job s') = reFixLines_ReplaceAllString logs.
Proof.
  intros Hcr Hw.
  assert (Hne : kubeconfig <> "").
  { destruct Hcr as (s2 & s3 & s4 & _ & _ & _ & _ & Hk).
    eapply fetchKubeconfig_nonempty, Hk. }
  pose proof (credentialsRetrieved_advances w m _ _ _ _ _ Hcr) as [_ Hj5].
  pose proof (waitForClusterReachable_advances w kubeconfig
                {| job := set_Credentials (job s5) kubeconfig; trace := trace s5 |}) as [_ Hj6].
  rewrite Hw in Hj6. cbn [snd job] in Hj6.
  assert (Hname : Name (job s6) = Name (job s)).
  { rewrite Hj6, Hj5. reflexivity. }
  rewrite (launchJob_after_credentials w m _ _ _ _ _ Hcr).
  unfold deliver. run_body. rewrite Hw.
  run_cases; cbn [Name set_Credentials set_PasswordSnippet]; rewrite Hname;
    (do 2 eexists; split; [reflexivity|]; split; [exact Hne|];
    split; [reflexivity|]; split; [rewrite <- ?app_assoc; reflexivity|];
    split; [cbn; tauto|]; split; [cbn; tauto|]; eexists; reflexivity).
Qed.

(** C3. One attempt of the credential poll. A failed execution whose
    message contains "container not found" ends the poll with the fatal
    error when a fresh fetch of the target pod reports NotFound or a
    terminal phase, and otherwise leaves it to the next attempt; any other
    failed execution is logged and left to the next attempt; an execution
    that succeeds ends the poll with nil exactly when its output is not
    empty. *)
Theorem kubeconfig_poll_attempt namespace target n kubeconfig s contents oerr s1 :
  commandContents w (coreConfig m) namespace target "test"
                  ["cat"; "/tmp/admin.kubeconfig"] s = ((contents, oerr), s1) ->
  let cond := kubeconfigCondition w m namespace target in
  let fresh := PodsGet (coreClient m) (trace s1) namespace target in
  let fetched := {| job := job s1; trace := trace s1 ++ [EvGetPod namespace target] |} in
  let next l s' :=
    match n with
    | O => ((Some ErrWaitTimeout, l), s')
    | S n' => pollLoop n' cond l s'
    end in
  pollLoop n cond kubeconfig s =
  match oerr with
  | Some err =>
      if Contains (Error err) "container not found" then
        if reportsNotFound fresh || reportsTerminalPhase fresh then
          ((Some (Errorf "pod cannot be found or has been deleted, assume cluster won't come up"),
            kubeconfig), fetched)
        else next kubeconfig fetched
      else
        next kubeconfig
             {| job := job s1;
                trace := trace s1
                         ++ [EvLog ("Unable to retrieve config contents: " +:+ Error err)] |}
  | None =>
      if len contents >? 0 then ((None, contents), s1) else next contents s1
  end
  /\ (fst (fst (fst (cond kubeconfig s))) = true <-> oerr = None /\ contents <> "").
Proof.
  intros Hc cond fresh fetched next.
  assert (Hstep : cond kubeconfig s =
    match oerr with
    | Some err =>
        if Contains (Error err) "container not found" then
          if reportsNotFound fresh || reportsTerminalPhase fresh then
            ((false, Some (Errorf "pod cannot be found or has been deleted, assume cluster won't come up")),
             kubeconfig, fetched)
          else ((false, None), kubeconfig, fetched)
        else
          ((false, None), kubeconfig,
           {| job := job s1;
              trace := trace s1
                       ++ [EvLog ("Unable to retrieve config contents: " +:+ Error err)] |})
    | None => ((len contents >? 0, None), contents, s1)
    end).
  { subst cond. unfold kubeconfigCondition. cbv beta iota zeta delta [bind]. rewrite Hc.
    cbn [fst snd]. destruct oerr as [err|]; [|reflexivity].
    destruct (Contains (Error err) "container not found"); [|reflexivity].
    run_body. fold fresh. fold fetched.
    destruct fresh as [pod|[pod|] e]; cbn [reportsNotFound reportsTerminalPhase];
      repeat match goal with
             | |- context [if ?b then _ else _] => destruct b; cbn [orb]
             end; reflexivity. }
  split.
  - rewrite pollLoop_unfold. fold cond. rewrite Hstep.
    destruct oerr as [err|].
    + destruct (Contains (Error err) "container not found"); [|reflexivity].
      destruct (reportsNotFound fresh || reportsTerminalPhase fresh); reflexivity.
    + destruct (len contents >? 0); reflexivity.
  - rewrite Hstep. destruct oerr as [err|].
    + destruct (Contains (Error err) "container not found");
        [destruct (reportsNotFound fresh || reportsTerminalPhase fresh)|];
        cbn [fst]; split; [discriminate | intros [? _]; discriminate
                          | discriminate | intros [? _]; discriminate
                          | discriminate | intros [? _]; discriminate].
    + cbn [fst]. split.
      * intros H. split; [reflexivity | apply len_positive, H].
      * intros [_ H]. apply len_nonempty, H.
Qed.

(** C8. With the template resolved, a create answered with AlreadyExists
    leaves the run exactly what it is under a create that succeeds, and the
    run goes on to fetch the job resource for its URL; a create answered
    with any other error ends [launchJob] with that error, nothing else
    being called. *)
Theorem create_already_exists_proceeds s tmpl s1 target :
  fulfilled (job s) = false ->
  JobForConfig w (prowConfigLoader m) (JobName (job s)) s = (inr tmpl, s1) ->
  findTargetName (spec_PodSpec (pj_Spec tmpl)) = inr target ->
  exists pj,
    jobResource w m (job s) (derivedNamespace (Name (job s))) tmpl = Some pj /\
    let create := EvCreate (prowNamespace m) (ObjectToUnstructured pj) in
    let logged := EvLog ("prow job " +:+ Name (job s) +:+ " launched to target namespace "
                         +:+ derivedNamespace (Name (job s))) in
    let answer := Create (prowClient m) (trace s1) (prowNamespace m)
                         (ObjectToUnstructured pj) in
    (forall e, answer = Some e -> IsAlreadyExists e = true ->
       launchJob w m s = launchJob w (createSucceeds w m) s
       /\ exists rest,
            trace (snd (launchJob w m s))
            = trace s1 ++ [create; logged; EvGetProwJob (prowNamespace m) (Name (job s))]
                       ++ rest)
    /\ (forall e, answer = Some e -> IsAlreadyExists e = false ->
         launchJob w m s
         = (Return (Some e), {| job := job s; trace := trace s1 ++ [create] |})).
Proof.
  intros Hf Hj Ht.
  destruct (submit_resolved w m s tmpl s1 target Hj Ht) as (pj & Hr & Hs1 & Hsub).
  exists pj. split; [exact Hr|]. cbv zeta in Hsub |- *.
  split.
  - intros e He Hae. rewrite He, Hae in Hsub.
    assert (Hsub' : submit w (createSucceeds w m) s = submit w m s).
    { destruct (submit_resolved w (createSucceeds w m) s tmpl s1 target Hj Ht)
        as (pj' & Hr' & _ & Hsub').
      assert (Hsame : jobResource w (createSucceeds w m) (job s)
                        (derivedNamespace (Name (job s))) tmpl
                      = jobResource w m (job s) (derivedNamespace (Name (job s))) tmpl)
        by reflexivity.
      assert (pj' = pj) by congruence. subst pj'.
      cbv zeta in Hsub'. cbn [createSucceeds prowClient Create prowNamespace] in Hsub'.
      rewrite Hsub'. symmetry. exact Hsub. }
    split.
    + unfold launchJob. cbv beta iota zeta delta [bind getJob andThen].
      rewrite Hf, Hsub'. reflexivity.
    + unfold launchJob. cbv beta iota zeta delta [bind getJob andThen].
      rewrite Hf, Hsub.
      set (s2 := {| job := job s; trace := _ |}).
      destruct (awaitURL_first_call w m s2) as [r1 Hu].
      destruct (awaitURL w m s2) as [[o|[]] s3]; cbn [snd] in Hu; cbv beta iota; cbn [snd].
      * exists r1. rewrite Hu. subst s2. cbn [trace]. now rewrite <- !app_assoc.
      * pose proof (afterURL_appends w m (derivedNamespace (Name (job s))) target s3)
          as (r2 & H2 & _).
        exists (r1 ++ r2). rewrite H2, Hu. subst s2. cbn [trace]. now rewrite <- !app_assoc.
  - intros e He Hae. rewrite He, Hae in Hsub.
    unfold launchJob. cbv beta iota zeta delta [bind getJob andThen].
    rewrite Hf, Hsub. reflexivity.
Qed.

(** C10. For a request whose mode is not "launch", once the URL is
    recorded [launchJob] returns nil in that very state: up to there only
    the template, the job resource and the log were touched, only the URL
    of the request was written, and the credential artifact and the
    connection snippet are what they were (empty when they were empty). *)
Theorem other_mode_returns_after_url s namespace target s2 :
  urlRecorded w m s namespace target s2 ->
  Mode (job s) <> "launch" ->
  launchJob w m s = (Return None, s2)
  /\ appends submissionEvent s s2
  /\ job s2 = set_URL (job s) (URL (job s2))
  /\ Credentials (job s2) = Credentials (job s)
  /\ PasswordSnippet (job s2) = PasswordSnippet (job s).
Proof.
  intros Hu Hm.
  pose proof (urlRecorded_advances w m _ _ _ _ Hu) as [Ha Hj]. unfold sameButURL in Hj.
  split; [|split; [exact Ha | split; [exact Hj | rewrite Hj; split; reflexivity]]].
  rewrite (launchJob_after_url w m _ _ _ _ Hu). unfold afterURL. run_body.
  replace (Mode (job s2)) with (Mode (job s)) by (rewrite Hj; reflexivity).
  apply String.eqb_neq in Hm. rewrite Hm. reflexivity.
Qed.

(** C4, as the code has it. For the request named "launch-abc123" with mode
    "launch" and install image "registry/img:latest" and no upgrade image,
    whose template resolves, the derived namespace is "ci-ln-" followed by
    the seven-character hash "p4iyd72"; the job resource handed to create
    carries the template's containers with every RELEASE_IMAGE_LATEST
    variable set to the install image and every NAMESPACE variable set to
    that namespace. *)
Theorem launch_abc123_resource s tmpl s1 target :
  Name (job s) = "launch-abc123" ->
  Mode (job s) = "launch" ->
  InstallImage (job s) = "registry/img:latest" ->
  UpgradeImage (job s) = "" ->
  fulfilled (job s) = false ->
  JobForConfig w (prowConfigLoader m) (JobName (job s)) s = (inr tmpl, s1) ->
  findTargetName (spec_PodSpec (pj_Spec tmpl)) = inr target ->
  derivedNamespace (Name (job s)) = "ci-ln-" +:+ "p4iyd72"
  /\ String.length (namespaceSafeHash [Name (job s)]) = 7%nat
  /\ exists pj tps ps rest,
       trace (snd (launchJob w m s))
       = trace s ++ EvConfig :: EvCreate (prowNamespace m) (ObjectToUnstructured pj) :: rest
       /\ Annotations (pj_ObjectMeta pj) !! "ci-chat-bot.openshift.io/ns"
          = Some "ci-ln-p4iyd72"
       /\ spec_PodSpec (pj_Spec tmpl) = Some tps
       /\ spec_PodSpec (pj_Spec pj) = Some ps
       /\ Containers ps
          = map (overrideContainer "registry/img:latest" "" "ci-ln-p4iyd72") (Containers tps)
       /\ forall c e, In c (Containers ps) -> In e (c_Env c) ->
            (ev_Name e = "RELEASE_IMAGE_LATEST" -> ev_Value e = "registry/img:latest")
            /\ (ev_Name e = "NAMESPACE" -> ev_Value e = "ci-ln-p4iyd72").
Proof.
  intros Hn Hmode Hi Hup Hf Hj Ht.
  assert (Hns : derivedNamespace (Name (job s)) = "ci-ln-p4iyd72")
    by (rewrite Hn; vm_compute; reflexivity).
  split; [exact Hns|]. split; [rewrite Hn; vm_compute; reflexivity|].
  destruct (submit_resolved w m s tmpl s1 target Hj Ht) as (pj & Hr & Hs1 & Hsub).
  cbv zeta in Hsub.
  unfold jobResource, OverrideJobEnvironment in Hr. rewrite Hup, Hi, Hns in Hr.
  change (len "" >? 0) with false in Hr. cbv iota in Hr.
  destruct (spec_PodSpec (pj_Spec tmpl)) as [tps|] eqn:Htps; [|discriminate Hr].
  injection Hr as Hpj.
  assert (Htrace : exists rest,
            trace (snd (launchJob w m s))
            = trace s ++ EvConfig :: EvCreate (prowNamespace m) (ObjectToUnstructured pj) :: rest).
  { unfold launchJob. cbv beta iota zeta delta [bind getJob andThen]. rewrite Hf, Hsub.
    subst s1. cbn [trace].
    destruct (Create _ _ _ _) as [e|]; [destruct (IsAlreadyExists e)|]; cbv beta iota.
    2:{ cbn [snd trace]. exists []. now rewrite <- app_assoc. }
    all: match goal with
         | |- context [awaitURL w m ?s2] =>
             pose proof (awaitURL_advances w m s2) as [(r1 & H1 & _) _];
             destruct (awaitURL w m s2) as [[o|[]] s3]; cbn [snd trace] in H1;
             cbv beta iota; cbn [snd]
         end.
    all: try (eexists; rewrite H1, <- !app_assoc; cbn [app]; reflexivity).
    all: pose proof (afterURL_appends w m (derivedNamespace (Name (job s))) target s3)
           as (r2 & H2 & _);
         eexists; rewrite H2, H1, <- !app_assoc; cbn [app]; reflexivity. }
  destruct Htrace as [rest Htrace].
  exists pj, tps, {| Containers := map (overrideContainer "registry/img:latest" "" "ci-ln-p4iyd72")
                                       (Containers tps) |}, rest.
  split; [exact Htrace|]. subst pj. cbn [pj_ObjectMeta pj_Spec spec_PodSpec Containers].
  split.
  { unfold stampMeta. destruct (_ && _); cbn [Annotations];
      rewrite ?lookup_insert_ne by discriminate; reflexivity. }
  split; [reflexivity|]. split; [reflexivity|]. split; [reflexivity|].
  intros c e Hc He. apply in_map_iff in Hc. destruct Hc as (c0 & <- & _).
  cbn [overrideContainer c_Env] in He. apply in_map_iff in He. destruct He as (e0 & <- & _).
  unfold overrideEnvVar.
  destruct (String.eqb_spec (ev_Name e0) "RELEASE_IMAGE_LATEST") as [E1|E1].
  { cbn [ev_Name ev_Value]. split; [reflexivity | rewrite E1; discriminate]. }
  destruct (String.eqb_spec (ev_Name e0) "RELEASE_IMAGE_INITIAL") as [E2|E2].
  { cbn [ev_Name ev_Value]. split; [congruence | rewrite E2; discriminate]. }
  destruct (String.eqb_spec (ev_Name e0) "NAMESPACE") as [E3|E3].
  { cbn [ev_Name ev_Value]. split; [congruence | reflexivity]. }
  split; congruence.
Qed.

(** The setup poll records an error only on the attempt that ends it with
    that same error: when [lastErr] is set, it is what the poll returned. *)
Lemma setup_poll_lastErr namespace target n : forall seen s e seen' le s',
  pollLoop n (setupCondition w m namespace target) (seen, None) s
  = ((Some e, (seen', Some le)), s') ->
  le = e.
Proof.
  induction n as [|n IH]; intros seen s e seen' le s'; rewrite pollLoop_unfold;
    unfold setupCondition at 1; run_body;
    destruct (PodsGet _ _ _ _) as [pod|p err].
  1, 3: destruct (terminalPhase pod); run_body; [discriminate|];
        destruct (containerSuccessful pod "setup") as [[] [e0|]]; run_body;
        try discriminate; try (intros [= <- <- <- <-]; fail); apply IH.
  all: destruct (negb (IsNotFound err) && negb (IsForbidden err)); run_body;
       [intros [= <- _ <- _]; reflexivity|];
       destruct seen; run_body; try discriminate; apply IH.
Qed.

(** Hence the substitution of lines 185-187 never changes the error: the
    setup stage reports the error of its poll, whatever it is. *)
Lemma awaitSetup_reports_poll_error namespace target s o s' :
  awaitSetup w m namespace target s = (Exit o, s') ->
  exists e, o = Return (Some (Errorf ("pod never became available: " +:+ Error e)))
            /\ fst (fst (PollImmediate w (5 * Second) (45 * Minute)
                           (setupCondition w m namespace target) (false, None)
                           (snd (logPrintf ("waiting for setup container in pod "
                                            +:+ namespace +:+ "/" +:+ target
                                            +:+ " to complete") s))))
               = Some e.
Proof.
  unfold awaitSetup. run_body. unfold PollImmediate. cbn [trace].
  destruct (pollLoop _ _ _ _) as [[[e|] [seen lastErr]] s1] eqn:Hp; run_body;
    [|discriminate].
  intros [= <- <-]. exists e. split; [|reflexivity].
  destruct lastErr as [le|]; [|reflexivity].
  apply setup_poll_lastErr in Hp. subst le. destruct (isErrWaitTimeout e); reflexivity.
Qed.

(** C5, what the code does. When every fetch of the target pod is answered
    NotFound or Forbidden, the setup stage runs out of attempts and fails
    with the bare timeout message: the not-ready answers it saw are not in
    the error it returns. *)
Theorem awaitSetup_timeout_drops_detail namespace target s :
  (forall h, exists p e,
      PodsGet (coreClient m) h namespace target = PodGetErr p e
      /\ IsNotFound e || IsForbidden e = true) ->
  fst (awaitSetup w m namespace target s)
  = Exit (Return (Some (Errorf
            "pod never became available: timed out waiting for the condition"))).
Proof.
  intros Hget.
  assert (Hstep : forall (l : bool * option error) s0, l = (false, None) ->
            exists l' s', setupCondition w m namespace target l s0 = ((false, None), l', s')
                          /\ l' = (false, None)).
  { intros l s0 ->. unfold setupCondition. run_body.
    destruct (Hget (trace s0)) as (p & e & -> & He).
    replace (negb (IsNotFound e) && negb (IsForbidden e)) with false
      by (destruct (IsNotFound e), (IsForbidden e); try reflexivity; discriminate He).
    run_body. eauto. }
  unfold awaitSetup. run_body. unfold PollImmediate. cbn [trace].
  match goal with
  | |- context [pollLoop ?n ?c ?l0 ?s1] =>
      destruct (pollLoop_timeout c (fun x _ => x = (false, None)) Hstep n l0 s1 eq_refl)
        as (l' & s' & Hp & Hl)
  end.
  rewrite Hp. subst l'. reflexivity.
Qed.




(** In the poll itself a fetched pod ends the stage on the spot, ready or
    already exited; no attempt follows it. *)
Lemma pod_poll_ends_when_fetched n seen s pod :
  PodsGet (coreClient m) (trace s) (prowNamespace m) (Name (job s)) = PodGetOk pod ->
  pollLoop n (podCondition w m) seen s
  = ((if terminalPhase pod then Some (Errorf "pod has already exited") else None, true),
     {| job := job s; trace := trace s ++ [EvGetPod (prowNamespace m) (Name (job s))] |}).
Proof.
  intros Hg. rewrite pollLoop_unfold. unfold podCondition. run_body. rewrite Hg.
  destruct (terminalPhase pod); reflexivity.
Qed.

End Properties.

Lemma lookup_map {A B} (f : A -> B) (l : list A) i : map f l !! i = f <$> (l !! i).
Proof.
  revert i. induction l as [|x l IH]; intros [|i]; cbn; try reflexivity. apply IH.
Qed.

(** C9. [OverrideJobEnvironment] keeps the containers and, in each, the
    variables of its environment, in number, order and name; it sets the
    value of RELEASE_IMAGE_LATEST, RELEASE_IMAGE_INITIAL and NAMESPACE and
    leaves a variable of any other name as it was. *)
Theorem OverrideJobEnvironment_frame spec ps image initialImage namespace :
  spec_PodSpec spec = Some ps ->
  exists ps',
    OverrideJobEnvironment spec image initialImage namespace
    = Some {| spec_Type := spec_Type spec; spec_Job := spec_Job spec;
              spec_PodSpec := Some ps' |}
    /\ length (Containers ps') = length (Containers ps)
    /\ forall i c, Containers ps !! i = Some c ->
         exists c',
           Containers ps' !! i = Some c'
           /\ c_Name c' = c_Name c
           /\ c_Args c' = c_Args c
           /\ length (c_Env c') = length (c_Env c)
           /\ forall j e, c_Env c !! j = Some e ->
                exists e',
                  c_Env c' !! j = Some e'
                  /\ ev_Name e' = ev_Name e
                  /\ (ev_Name e = "RELEASE_IMAGE_LATEST" -> ev_Value e' = image)
                  /\ (ev_Name e = "RELEASE_IMAGE_INITIAL" -> ev_Value e' = initialImage)
                  /\ (ev_Name e = "NAMESPACE" -> ev_Value e' = namespace)
                  /\ (ev_Name e <> "RELEASE_IMAGE_LATEST" ->
                      ev_Name e <> "RELEASE_IMAGE_INITIAL" ->
                      ev_Name e <> "NAMESPACE" -> e' = e).
Proof.
  intros Hps. unfold OverrideJobEnvironment. rewrite Hps. eexists. split; [reflexivity|].
  cbn [Containers]. split; [apply length_map|].
  intros i c Hc. exists (overrideContainer image initialImage namespace c).
  split; [rewrite lookup_map, Hc; reflexivity|].
  split; [reflexivity|]. split; [reflexivity|].
  cbn [overrideContainer c_Env]. split; [apply length_map|].
  intros j e He. exists (overrideEnvVar image initialImage namespace e).
  split; [rewrite lookup_map, He; reflexivity|].
  unfold overrideEnvVar.
  destruct (String.eqb_spec (ev_Name e) "RELEASE_IMAGE_LATEST") as [E1|E1].
  { cbn [ev_Name ev_Value]. rewrite E1. repeat split; try discriminate; congruence. }
  destruct (String.eqb_spec (ev_Name e) "RELEASE_IMAGE_INITIAL") as [E2|E2].
  { cbn [ev_Name ev_Value]. rewrite E2. repeat split; try discriminate; congruence. }
  destruct (String.eqb_spec (ev_Name e) "NAMESPACE") as [E3|E3].
  { cbn [ev_Name ev_Value]. rewrite E3. repeat split; try discriminate; congruence. }
  repeat split; congruence.
Qed.

Import Scenario.

(** ** The statements at concrete inputs *)

Lemma launchJob_fulfilled_noop_witness :
  Credentials (job (start (request "launch" "kubeconfig" "password"))) <> ""
  /\ PasswordSnippet (job (start (request "launch" "kubeconfig" "password"))) <> ""
  /\ launchJob wUp mUp (start (request "launch" "kubeconfig" "password"))
     = (Return None, start (request "launch" "kubeconfig" "password")).
Proof.
  split; [discriminate|]. split; [discriminate|].
  apply (launchJob_fulfilled_noop wUp mUp); discriminate.
Defined.

Lemma unreachable_cluster_clears_credentials_witness :
  credentialsRetrieved wDown mDown (start (request "launch" "" "")) namespace target
                       "kubeconfig" atCredentials
  /\ waitForClusterReachable wDown "kubeconfig"
       {| job := set_Credentials (job atCredentials) "kubeconfig";
          trace := trace atCredentials |} = (Some ErrWaitTimeout, afterProbe)
  /\ exists s' evs,
       launchJob wDown mDown (start (request "launch" "" ""))
       = (Return (Some (Errorf ("cluster did not become reachable: "
                                +:+ Error ErrWaitTimeout))), s')
       /\ "kubeconfig" <> ""
       /\ Credentials (job s') = ""
       /\ trace s' = trace afterProbe ++ evs
       /\ In (EvGetLogs namespace target "setup" 2) evs
       /\ In (EvPatch (prowNamespace mDown) (Name (request "launch" "" ""))
                      MergePatchType channelPatch) evs
       /\ exists logs, PasswordSnippet (job s') = reFixLines_ReplaceAllString logs.
Proof.
  set (s := start (request "launch" "" "")).
  assert (H1 : credentialsRetrieved wDown mDown s namespace target "kubeconfig" atCredentials).
  { exists urlKnown, podVisible, setupDone.
    split; [split; [reflexivity | exists submitted; split; vm_compute; reflexivity]|].
    repeat split; vm_compute; reflexivity. }
  assert (H2 : waitForClusterReachable wDown "kubeconfig"
                 {| job := set_Credentials (job atCredentials) "kubeconfig";
                    trace := trace atCredentials |} = (Some ErrWaitTimeout, afterProbe))
    by (vm_compute; reflexivity).
  split; [exact H1|]. split; [exact H2|].
  exact (unreachable_cluster_clears_credentials wDown mDown s _ _ _ atCredentials _ _ H1 H2).
Defined.

Lemma kubeconfig_poll_attempt_witness :
  commandContents wStarting (coreConfig mStarting) namespace target "test" catKubeconfig
                  (start (request "launch" "" ""))
  = (containerNotFound, afterExec)
  /\ pollLoop 3 (kubeconfigCondition wStarting mStarting namespace target) ""
              (start (request "launch" "" ""))
     = ((Some (Errorf "pod cannot be found or has been deleted, assume cluster won't come up"),
         ""),
        {| job := job afterExec; trace := trace afterExec ++ [EvGetPod namespace target] |}).
Proof.
  assert (Hc : commandContents wStarting (coreConfig mStarting) namespace target "test"
                 catKubeconfig (start (request "launch" "" ""))
               = (containerNotFound, afterExec)) by (vm_compute; reflexivity).
  split; [exact Hc|].
  destruct (kubeconfig_poll_attempt wStarting mStarting namespace target 3 ""
              (start (request "launch" "" "")) _ _ afterExec Hc) as [H _].
  exact H.
Defined.

Lemma launch_abc123_resource_witness :
  JobForConfig wUp (prowConfigLoader mUp) "release-launch" (start (request "launch" "" ""))
  = (inr resolved, configLoaded)
  /\ findTargetName (spec_PodSpec (pj_Spec resolved)) = inr target
  /\ derivedNamespace "launch-abc123" = "ci-ln-" +:+ "p4iyd72"
  /\ String.length (namespaceSafeHash ["launch-abc123"]) = 7%nat.
Proof.
  assert (Hj : JobForConfig wUp (prowConfigLoader mUp)
                 (JobName (job (start (request "launch" "" ""))))
                 (start (request "launch" "" ""))
               = (inr resolved, configLoaded)) by (vm_compute; reflexivity).
  assert (Ht : findTargetName (spec_PodSpec (pj_Spec resolved)) = inr target)
    by (vm_compute; reflexivity).
  split; [exact Hj|]. split; [exact Ht|].
  destruct (launch_abc123_resource wUp mUp (start (request "launch" "" "")) resolved
              configLoaded target eq_refl eq_refl eq_refl eq_refl eq_refl Hj Ht)
    as (H1 & H2 & _).
  split; [exact H1 | exact H2].
Defined.

Lemma awaitSetup_timeout_drops_detail_witness :
  (forall h, exists p e,
      PodsGet (coreClient mForbidden) h namespace target = PodGetErr p e
      /\ IsNotFound e || IsForbidden e = true)
  /\ fst (awaitSetup wUp mForbidden namespace target (start (request "launch" "" "")))
     = Exit (Return (Some (Errorf
               "pod never became available: timed out waiting for the condition"))).
Proof.
  assert (H : forall h, exists p e,
             PodsGet (coreClient mForbidden) h namespace target = PodGetErr p e
             /\ IsNotFound e || IsForbidden e = true).
  { intros h. eexists _, _. split; reflexivity. }
  split; [exact H|].
  exact (awaitSetup_timeout_drops_detail wUp mForbidden namespace target _ H).
Defined.


Lemma create_already_exists_proceeds_witness :
  fulfilled (request "launch" "" "") = false
  /\ JobForConfig wUp (prowConfigLoader mExists) "release-launch"
       (start (request "launch" "" "")) = (inr resolved, configLoaded)
  /\ findTargetName (spec_PodSpec (pj_Spec resolved)) = inr target
  /\ launchJob wUp mExists (start (request "launch" "" ""))
     = launchJob wUp (createSucceeds wUp mExists) (start (request "launch" "" "")).
Proof.
  assert (Hj : JobForConfig wUp (prowConfigLoader mExists)
                 (JobName (job (start (request "launch" "" ""))))
                 (start (request "launch" "" ""))
               = (inr resolved, configLoaded)) by (vm_compute; reflexivity).
  assert (Ht : findTargetName (spec_PodSpec (pj_Spec resolved)) = inr target)
    by (vm_compute; reflexivity).
  split; [reflexivity|]. split; [exact Hj|]. split; [exact Ht|].
  destruct (create_already_exists_proceeds wUp mExists (start (request "launch" "" ""))
              resolved configLoaded target eq_refl Hj Ht) as (pj & _ & Hae & _).
  destruct (Hae (StatusError StatusReasonAlreadyExists "prowjobs.prow.k8s.io already exists")
                eq_refl eq_refl) as [H _].
  exact H.
Defined.

Lemma OverrideJobEnvironment_frame_witness :
  spec_PodSpec template
  = Some {| Containers := [ {| c_Name := "";
                               c_Args := ["--artifact-dir=/artifacts"; "--target=test"];
                               c_Env := [ {| ev_Name := "RELEASE_IMAGE_LATEST";
                                             ev_Value := "stale" |};
                                          {| ev_Name := "NAMESPACE"; ev_Value := "" |};
                                          {| ev_Name := "CLUSTER_TYPE";
                                             ev_Value := "aws" |} ] |} ] |}
  /\ exists ps',
       OverrideJobEnvironment template "registry/img:latest" "" namespace
       = Some {| spec_Type := "periodic"; spec_Job := "release-launch";
                 spec_PodSpec := Some ps' |}
       /\ length (Containers ps') = 1%nat.
Proof.
  split; [reflexivity|].
  destruct (OverrideJobEnvironment_frame template _ "registry/img:latest" "" namespace
              eq_refl) as (ps' & H1 & H2 & _).
  exists ps'. split; [exact H1 | exact H2].
Defined.

Lemma other_mode_returns_after_url_witness :
  urlRecorded wUp mUp (start (request "build" "" "")) namespace target atURL
  /\ Mode (request "build" "" "") <> "launch"
  /\ launchJob wUp mUp (start (request "build" "" "")) = (Return None, atURL)
  /\ Credentials (job atURL) = ""
  /\ PasswordSnippet (job atURL) = "".
Proof.
  assert (Hu : urlRecorded wUp mUp (start (request "build" "" "")) namespace target atURL).
  { split; [reflexivity|].
    exists (snd (submit wUp mUp (start (request "build" "" "")))).
    split; vm_compute; reflexivity. }
  assert (Hm : Mode (job (start (request "build" "" ""))) <> "launch") by discriminate.
  split; [exact Hu|]. split; [exact Hm|].
  destruct (other_mode_returns_after_url wUp mUp _ _ _ _ Hu Hm) as (H1 & _ & _ & H2 & H3).
  split; [exact H1|]. split; [exact H2 | exact H3].
Defined.

Lemma namespaceSafeHash_encoding_witness :
  String.length (namespaceSafeHash ["launch-abc123"]) = 7%nat
  /\ forall c, In c (list_ascii_of_string (namespaceSafeHash ["launch-abc123"])) ->
               In c alphabet.
Proof.
  destruct (namespaceSafeHash_encoding ["launch-abc123"]) as (_ & H1 & H2 & _).
  split; [exact H1 | exact H2].
Defined.

(** The whole run on a platform where the target pod is forbidden at every
    attempt: it ends on the bare timeout message. *)
Example launchJob_forbidden_times_out :
  fst (launchJob wUp mForbidden (start (request "launch" "" "")))
  = Return (Some (Errorf "pod never became available: timed out waiting for the condition")).
Proof. vm_compute. reflexivity. Qed.

(** The log line of the design document's example, decoration stripped. *)
Example fixLines_login :
  reFixLines_ReplaceAllString loginLine = "Login to the console with user: kubeadmin".
Proof. vm_compute. reflexivity. Qed.

(** * Further properties *)

(** ** Strings *)

Lemma prefix_nil s : String.prefix "" s = true.
Proof. destruct s; reflexivity. Qed.

Lemma HasPrefix_app p : forall x, HasPrefix (p +:+ x) p = true.
Proof.
  unfold HasPrefix. induction p as [|c p IH]; intros x.
  - apply prefix_nil.
  - change (String c p +:+ x) with (String c (p +:+ x)). cbn [String.prefix].
    destruct (ascii_dec c c); [apply IH | congruence].
Qed.

Lemma HasPrefix_inv p : forall s, HasPrefix s p = true -> exists x, s = p +:+ x.
Proof.
  unfold HasPrefix. induction p as [|c p IH]; intros s H.
  - exists s. reflexivity.
  - destruct s as [|d s]; [discriminate|]. cbn [String.prefix] in H.
    destruct (ascii_dec c d) as [<-|]; [|discriminate].
    destruct (IH s H) as [x ->]. exists x. reflexivity.
Qed.

Lemma substring_all x : String.substring 0 (String.length x) x = x.
Proof. induction x as [|c x IH]; cbn; [reflexivity | now rewrite IH]. Qed.

Lemma length_append p x :
  String.length (p +:+ x) = (String.length p + String.length x)%nat.
Proof.
  induction p as [|c p IH]; [reflexivity|].
  change (String c p +:+ x) with (String c (p +:+ x)). cbn [String.length]. now rewrite IH.
Qed.

Lemma substring_append p x :
  String.substring (String.length p) (String.length x) (p +:+ x) = x.
Proof.
  induction p as [|c p IH].
  - apply substring_all.
  - change (String c p +:+ x) with (String c (p +:+ x)).
    cbn [String.length String.substring]. exact IH.
Qed.

Lemma TrimPrefix_app p x : TrimPrefix (p +:+ x) p = x.
Proof.
  unfold TrimPrefix. rewrite HasPrefix_app, length_append.
  replace (String.length p + String.length x - String.length p)%nat
    with (String.length x) by lia.
  apply substring_append.
Qed.

(** ** [findTargetName] *)

Lemma findTargetArg_sound args : forall name,
  findTargetArg args = Some name ->
  name <> "" /\ In ("--target=" +:+ name) args.
Proof.
  induction args as [|arg rest IH]; intros name; cbn [findTargetArg]; [discriminate|].
  destruct (HasPrefix arg "--target=") eqn:Hp.
  - apply HasPrefix_inv in Hp. destruct Hp as [x ->]. rewrite TrimPrefix_app.
    destruct (len x >? 0) eqn:Hl.
    + intros [= <-]. split; [destruct x; [discriminate Hl | discriminate] | left; reflexivity].
    + intros H. destruct (IH _ H). split; [assumption | right; assumption].
  - intros H. destruct (IH _ H). split; [assumption | right; assumption].
Qed.

Lemma findTargetArg_complete args x :
  x <> "" -> In ("--target=" +:+ x) args -> exists name, findTargetArg args = Some name.
Proof.
  intros Hx. induction args as [|arg rest IH]; intros Hin; [destruct Hin|].
  cbn [findTargetArg]. destruct Hin as [->|Hin].
  - rewrite HasPrefix_app, TrimPrefix_app.
    destruct x; [congruence|]. unfold len. cbn [String.length].
    replace (Z.of_nat (S (String.length x)) >? 0) with true
      by (symmetry; rewrite Z.gtb_ltb; apply Z.ltb_lt; lia).
    eauto.
  - destruct (HasPrefix arg "--target="); [destruct (len _ >? 0)|]; eauto.
Qed.

(** X1. A name [findTargetName] returns was read off the pod spec: the
    spec is there, the name is not empty and an unnamed container has the
    argument [--target=name]. *)
Theorem findTargetName_sound spec name :
  findTargetName spec = inr name ->
  name <> ""
  /\ exists ps c,
       spec = Some ps /\ In c (Containers ps) /\ c_Name c = ""
       /\ In ("--target=" +:+ name) (c_Args c).
Proof.
  unfold findTargetName. destruct spec as [ps|]; [|discriminate].
  destruct (findTargetContainers (Containers ps)) as [n|] eqn:Hf; [|discriminate].
  intros [= <-].
  assert (H : n <> "" /\ exists c, In c (Containers ps) /\ c_Name c = ""
                                  /\ In ("--target=" +:+ n) (c_Args c)).
  { revert Hf. induction (Containers ps) as [|c cs IH]; cbn [findTargetContainers];
      [discriminate|].
    destruct (String.eqb_spec (c_Name c) "") as [Hn|Hn]; cbn [negb].
    - destruct (findTargetArg (c_Args c)) as [n'|] eqn:Ha.
      + intros [= <-]. destruct (findTargetArg_sound _ _ Ha) as [H1 H2].
        split; [exact H1|]. exists c. repeat split; auto. left; reflexivity.
      + intros H. destruct (IH H) as (H1 & c' & H2 & H3). split; [exact H1|].
        exists c'. split; [right; exact H2 | exact H3].
    - intros H. destruct (IH H) as (H1 & c' & H2 & H3). split; [exact H1|].
      exists c'. split; [right; exact H2 | exact H3]. }
  destruct H as (H1 & c & H2 & H3 & H4). split; [exact H1|]. exists ps, c. auto.
Qed.

(** X2. [findTargetName] finds a target whenever an unnamed container
    names one that is not empty. *)
Theorem findTargetName_complete ps c x :
  In c (Containers ps) -> c_Name c = "" -> In ("--target=" +:+ x) (c_Args c) -> x <> "" ->
  exists name, findTargetName (Some ps) = inr name.
Proof.
  intros Hc Hn Ha Hx. unfold findTargetName.
  assert (H : exists name, findTargetContainers (Containers ps) = Some name).
  { induction (Containers ps) as [|c' cs IH]; [destruct Hc|].
    cbn [findTargetContainers]. destruct Hc as [->|Hc].
    - rewrite Hn. cbn. destruct (findTargetArg_complete _ _ Hx Ha) as [n ->]. eauto.
    - destruct (negb _); [auto|]. destruct (findTargetArg _); eauto. }
  destruct H as [name ->]. eauto.
Qed.

(** X3. Named containers play no part. *)
Theorem findTargetName_skips_named ps :
  findTargetName (Some ps)
  = findTargetName
      (Some {| Containers := List.filter (fun c => String.eqb (c_Name c) "")
                                         (Containers ps) |}).
Proof.
  unfold findTargetName. cbn [Containers].
  replace (findTargetContainers
             (List.filter (fun c => String.eqb (c_Name c) "") (Containers ps)))
    with (findTargetContainers (Containers ps)); [reflexivity|].
  induction (Containers ps) as [|c cs IH]; [reflexivity|].
  cbn [findTargetContainers List.filter].
  destruct (String.eqb (c_Name c) "") eqn:Hn; cbn [negb].
  - cbn [findTargetContainers]. rewrite Hn. cbn [negb]. now rewrite IH.
  - exact IH.
Qed.

(** ** [containerSuccessful] *)

Lemma containerSuccessful_no_error pod containerName :
  snd (containerSuccessful pod containerName) = None.
Proof.
  unfold containerSuccessful.
  induction (ContainerStatuses pod) as [|c cs IH]; cbn [containerSuccessfulIn];
    [reflexivity|].
  destruct (String.eqb (cs_Name c) containerName); cbn [negb]; [|exact IH].
  destruct (cs_Terminated c) as [[code]|]; reflexivity.
Qed.

(** X4. [containerSuccessful] never fails, and answers true exactly when the
    first status of that name is terminated with exit code zero. *)
Theorem containerSuccessful_first_status pod containerName :
  snd (containerSuccessful pod containerName) = None
  /\ (fst (containerSuccessful pod containerName) = true <->
      exists before status after,
        ContainerStatuses pod = before ++ status :: after
        /\ Forall (fun c => cs_Name c <> containerName) before
        /\ cs_Name status = containerName
        /\ cs_Terminated status = Some {| ExitCode := 0 |}).
Proof.
  unfold containerSuccessful.
  induction (ContainerStatuses pod) as [|c cs [IHe IHb]]; cbn [containerSuccessfulIn].
  - split; [reflexivity|]. split; [discriminate|].
    intros (b & st & a & H & _). destruct b; discriminate H.
  - destruct (String.eqb_spec (cs_Name c) containerName) as [Hn|Hn]; cbn [negb].
    + destruct (cs_Terminated c) as [[code]|] eqn:Ht; cbn [fst snd ExitCode].
      * split; [reflexivity|]. split.
        -- intros Hz. apply Z.eqb_eq in Hz. subst code.
           exists [], c, cs. repeat split; auto.
        -- intros (b & st & a & H & Hb & Hs & Hterm).
           destruct b as [|c0 b].
           ++ injection H as <- _. rewrite Ht in Hterm. injection Hterm as ->. reflexivity.
           ++ injection H as <- _. inversion_clear Hb. contradiction.
      * split; [reflexivity|]. split; [discriminate|].
        intros (b & st & a & H & Hb & Hs & Hterm).
        destruct b as [|c0 b].
        -- injection H as <- _. congruence.
        -- injection H as <- _. inversion_clear Hb. contradiction.
    + split; [exact IHe|]. rewrite IHb. split.
      * intros (b & st & a & H & Hb & Hs & Hterm).
        exists (c :: b), st, a. rewrite H. repeat split; auto.
      * intros (b & st & a & H & Hb & Hs & Hterm).
        destruct b as [|c0 b].
        -- injection H as <- _. contradiction.
        -- injection H as <- H. inversion_clear Hb. exists b, st, a. auto.
Qed.

(** ** [OverrideJobEnvironment] *)

Lemma overrideEnvVar_twice a b c a' b' c' e :
  overrideEnvVar a' b' c' (overrideEnvVar a b c e) = overrideEnvVar a' b' c' e.
Proof.
  unfold overrideEnvVar.
  destruct (String.eqb (ev_Name e) "RELEASE_IMAGE_LATEST") eqn:E1; cbn [ev_Name];
    [rewrite E1; reflexivity|].
  destruct (String.eqb (ev_Name e) "RELEASE_IMAGE_INITIAL") eqn:E2; cbn [ev_Name];
    [rewrite E1, E2; reflexivity|].
  destruct (String.eqb (ev_Name e) "NAMESPACE") eqn:E3; cbn [ev_Name];
    rewrite E1, E2, E3; reflexivity.
Qed.

(** X5. Overriding twice is overriding with the later values; a spec
    without a pod spec panics on the first call already. *)
Theorem OverrideJobEnvironment_last_wins spec image initialImage namespace
    image' initialImage' namespace' :
  match OverrideJobEnvironment spec image initialImage namespace with
  | Some spec1 => OverrideJobEnvironment spec1 image' initialImage' namespace'
  | None => None
  end
  = OverrideJobEnvironment spec image' initialImage' namespace'.
Proof.
  unfold OverrideJobEnvironment. destruct (spec_PodSpec spec) as [ps|]; [|reflexivity].
  cbn [spec_PodSpec spec_Type spec_Job Containers]. do 4 f_equal.
  rewrite map_map. apply map_ext. intros c. unfold overrideContainer.
  cbn [c_Name c_Args c_Env]. f_equal. rewrite map_map. apply map_ext. intros e.
  apply overrideEnvVar_twice.
Qed.

(** ** More on the poll *)

Section PollRelations.

Context {L : Type}.
Variable condition : ConditionFunc L.
Variable R : State -> State -> Prop.
Hypothesis R_refl : forall s, R s s.
Hypothesis R_trans : forall s1 s2 s3, R s1 s2 -> R s2 s3 -> R s1 s3.

(** What every attempt keeps, the poll keeps. *)
Lemma pollLoop_keeps :
  (forall l s, R s (snd (condition l s))) ->
  forall n l s, R s (snd (pollLoop n condition l s)).
Proof.
  intros Hc n. induction n as [|n IH]; intros l s; rewrite pollLoop_unfold;
    specialize (Hc l s); destruct (condition l s) as [[[[] [err|]] l'] s'];
    cbn [snd] in *; try exact Hc.
  eapply R_trans; [exact Hc | apply IH].
Qed.

(** What every attempt other than a successful one keeps, a failed poll
    keeps. *)
Lemma pollLoop_failure_keeps :
  (forall l s, fst (fst (condition l s)) <> (true, None) -> R s (snd (condition l s))) ->
  forall n l s e l' s',
    pollLoop n condition l s = ((Some e, l'), s') -> R s s'.
Proof.
  intros Hc n. induction n as [|n IH]; intros l s e l' s'; rewrite pollLoop_unfold;
    specialize (Hc l s); destruct (condition l s) as [[[[] [err|]] l1] s1];
    cbn [fst snd] in *; try discriminate; intros [= <- <- <-] || intros Hp;
    try (apply Hc; discriminate).
  eapply R_trans; [apply Hc; discriminate | eapply IH, Hp].
Qed.

End PollRelations.

Section PollCount.

Context {L : Type}.
Variable condition : ConditionFunc L.
Variable e : Event.

(** When each attempt makes the one call [e], a poll of [n] ticks makes it
    at least once and at most [n + 1] times, and nothing else. *)
Lemma pollLoop_calls :
  (forall l s, snd (condition l s)
               = {| job := job (snd (condition l s)); trace := trace s ++ [e] |}) ->
  forall n l s, exists k,
    (1 <= k <= S n)%nat /\ trace (snd (pollLoop n condition l s)) = trace s ++ repeat e k.
Proof.
  intros Hc n. induction n as [|n IH]; intros l s; rewrite pollLoop_unfold;
    pose proof (Hc l s) as H; destruct (condition l s) as [[[[] [err|]] l1] s1];
    cbn [snd] in *; try (exists 1%nat; split; [lia | rewrite H; reflexivity]).
  destruct (IH l1 s1) as (k & Hk & Ht). exists (S k). split; [lia|].
  rewrite Ht, H. cbn [trace repeat]. now rewrite <- app_assoc.
Qed.

End PollCount.

(** ** The request resource *)

Section Resource.

Variable w : World.
Variable m : jobManager w.

(** X6. The resource built from a template keeps its type, status and
    number of containers, is named after the request, and has the three
    variables set by role: the image to run is the upgrade image when one
    is requested, the install image otherwise, and the initial image is
    the install image only in an upgrade. *)
Theorem jobResource_image_roles job namespace tmpl pj :
  jobResource w m job namespace tmpl = Some pj ->
  pj_TypeMeta pj = pj_TypeMeta tmpl
  /\ pj_Status pj = pj_Status tmpl
  /\ om_Name (pj_ObjectMeta pj) = Name job
  /\ om_Namespace (pj_ObjectMeta pj) = prowNamespace m
  /\ exists tps ps,
       spec_PodSpec (pj_Spec tmpl) = Some tps
       /\ spec_PodSpec (pj_Spec pj) = Some ps
       /\ length (Containers ps) = length (Containers tps)
       /\ forall c e, In c (Containers ps) -> In e (c_Env c) ->
            (ev_Name e = "RELEASE_IMAGE_LATEST" ->
               ev_Value e = if String.eqb (UpgradeImage job) "" then InstallImage job
                            else UpgradeImage job)
            /\ (ev_Name e = "RELEASE_IMAGE_INITIAL" ->
                  ev_Value e = if String.eqb (UpgradeImage job) "" then ""
                               else InstallImage job)
            /\ (ev_Name e = "NAMESPACE" -> ev_Value e = namespace).
Proof.
  unfold jobResource, OverrideJobEnvironment.
  destruct (spec_PodSpec (pj_Spec tmpl)) as [tps|] eqn:Htps.
  2:{ destruct (len (UpgradeImage job) >? 0); discriminate. }
  assert (Hrole : (if len (UpgradeImage job) >? 0 then (UpgradeImage job, InstallImage job)
                   else (InstallImage job, ""))
                  = (if String.eqb (UpgradeImage job) "" then InstallImage job
                     else UpgradeImage job,
                     if String.eqb (UpgradeImage job) "" then "" else InstallImage job)).
  { destruct (UpgradeImage job) as [|c u]; reflexivity. }
  rewrite Hrole. intros [= <-]. cbn [pj_TypeMeta pj_Status pj_ObjectMeta pj_Spec spec_PodSpec].
  split; [reflexivity|]. split; [reflexivity|].
  split; [unfold stampMeta; destruct (_ && _); reflexivity|].
  split; [unfold stampMeta; destruct (_ && _); reflexivity|].
  eexists _, _. split; [reflexivity|]. split; [reflexivity|]. cbn [Containers].
  split; [apply length_map|].
  intros c e Hc He. apply in_map_iff in Hc. destruct Hc as (c0 & <- & _).
  cbn [overrideContainer c_Env] in He. apply in_map_iff in He. destruct He as (e0 & <- & _).
  unfold overrideEnvVar.
  destruct (String.eqb_spec (ev_Name e0) "RELEASE_IMAGE_LATEST") as [E1|E1].
  { cbn [ev_Name ev_Value]. rewrite E1. repeat split; try discriminate; reflexivity. }
  destruct (String.eqb_spec (ev_Name e0) "RELEASE_IMAGE_INITIAL") as [E2|E2].
  { cbn [ev_Name ev_Value]. rewrite E2. repeat split; try discriminate; reflexivity. }
  destruct (String.eqb_spec (ev_Name e0) "NAMESPACE") as [E3|E3].
  { cbn [ev_Name ev_Value]. rewrite E3. repeat split; try discriminate; reflexivity. }
  repeat split; congruence.
Qed.

(** X7. The verification label and the two tag annotations are stamped
    exactly when both versions are given; the other labels and
    annotations are stamped always. *)
Theorem stampMeta_verification job namespace pj :
  let meta := stampMeta w m job namespace pj in
  let both := negb (String.eqb (InstallVersion job) "")
              && negb (String.eqb (UpgradeVersion job) "") in
  Labels meta !! "release.openshift.io/verify" = (if both then Some "true" else None)
  /\ Annotations meta !! "release.openshift.io/from-tag"
     = (if both then Some (InstallVersion job) else None)
  /\ Annotations meta !! "release.openshift.io/tag"
     = (if both then Some (UpgradeVersion job) else None)
  /\ Labels meta !! "ci-chat-bot.openshift.io/launch" = Some "true"
  /\ Labels meta !! "prow.k8s.io/job" = Some (spec_Job (pj_Spec pj))
  /\ Labels meta !! "prow.k8s.io/type" = Some (spec_Type (pj_Spec pj))
  /\ Annotations meta !! "ci-chat-bot.openshift.io/mode" = Some (Mode job)
  /\ Annotations meta !! "ci-chat-bot.openshift.io/user" = Some (RequestedBy job)
  /\ Annotations meta !! "ci-chat-bot.openshift.io/channel" = Some (RequestedChannel job)
  /\ Annotations meta !! "ci-chat-bot.openshift.io/ns" = Some namespace
  /\ Annotations meta !! "ci-chat-bot.openshift.io/releaseImage" = Some (InstallImage job)
  /\ Annotations meta !! "ci-chat-bot.openshift.io/upgradeImage" = Some (UpgradeImage job)
  /\ Annotations meta !! "prow.k8s.io/job" = Some (spec_Job (pj_Spec pj)).
Proof.
  intros meta both. subst meta both. unfold stampMeta.
  assert (Hb : (len (InstallVersion job) >? 0) && (len (UpgradeVersion job) >? 0)
               = negb (String.eqb (InstallVersion job) "")
                 && negb (String.eqb (UpgradeVersion job) "")).
  { destruct (InstallVersion job), (UpgradeVersion job); reflexivity. }
  rewrite Hb. clear Hb.
  destruct (negb (String.eqb (InstallVersion job) "")
            && negb (String.eqb (UpgradeVersion job) "")); cbn [Labels Annotations];
    repeat split;
    rewrite ?lookup_insert_eq; rewrite ?lookup_insert_ne by discriminate;
    rewrite ?lookup_insert_eq; reflexivity.
Qed.

End Resource.

(** ** The stages, one by one *)

Section Stages.

Variable w : World.
Variable m : jobManager w.

(** X8. A template that cannot be used ends the run before anything is
    created. *)
Theorem launchJob_unusable_template s e :
  fulfilled (job s) = false ->
  (fst (JobForConfig w (prowConfigLoader m) (JobName (job s)) s) = inl e
   \/ exists tmpl,
        fst (JobForConfig w (prowConfigLoader m) (JobName (job s)) s) = inr tmpl
        /\ findTargetName (spec_PodSpec (pj_Spec tmpl)) = inl e) ->
  launchJob w m s = (Return (Some e), {| job := job s; trace := trace s ++ [EvConfig] |}).
Proof.
  intros Hf H. unfold launchJob, andThen, submit.
  cbv beta iota zeta delta [bind getJob]. rewrite Hf.
  pose proof (JobForConfig_state w m (JobName (job s)) s) as Hs.
  destruct (JobForConfig w (prowConfigLoader m) (JobName (job s)) s) as [r s1].
  cbn [fst snd] in *. subst s1.
  destruct H as [->|(tmpl & -> & Ht)]; [reflexivity|]. rewrite Ht. reflexivity.
Qed.

Lemma urlCondition_attempt l s :
  let g := Get (prowClient m) (trace s) (prowNamespace m) (Name (job s)) in
  let s1 := {| job := job s;
               trace := trace s ++ [EvGetProwJob (prowNamespace m) (Name (job s))] |} in
  urlCondition w m l s
  = match g with
    | inl err => ((false, Some err), tt, s1)
    | inr uns =>
        match UnstructuredToObject uns with
        | inl err => ((false, Some err), tt, s1)
        | inr pj =>
            if len (status_URL (pj_Status pj)) >? 0
            then ((true, None), tt,
                  {| job := set_URL (job s) (status_URL (pj_Status pj)); trace := trace s1 |})
            else ((false, None), tt, s1)
        end
    end.
Proof. unfold urlCondition. run_cases; reflexivity. Qed.

Lemma awaitURL_cases s fl s' :
  awaitURL w m s = (fl, s') ->
  (fl = Next tt
   /\ URL (job s') <> ""
   /\ job s' = set_URL (job s) (URL (job s'))
   /\ exists h uns pj,
        trace s' = h ++ [EvGetProwJob (prowNamespace m) (Name (job s))]
        /\ Get (prowClient m) h (prowNamespace m) (Name (job s)) = inr uns
        /\ UnstructuredToObject uns = inr pj
        /\ URL (job s') = status_URL (pj_Status pj))
  \/ (exists e,
        fl = Exit (Return (Some (Errorf ("did not retrieve job url due to an error: "
                                         +:+ Error e))))
        /\ job s' = job s).
Proof.
  unfold awaitURL. run_body. unfold PollImmediate.
  destruct (pollLoop _ _ _ _) as [[[e|] l] s1] eqn:Hp; run_body; intros [= <- <-].
  - right. exists e. split; [reflexivity|].
    refine (pollLoop_failure_keeps (urlCondition w m) (fun a b => job b = job a)
              _ _ _ _ _ _ _ _ Hp); [intros; congruence|].
    intros l0 s0. rewrite urlCondition_attempt.
    destruct (Get _ _ _ _) as [err|uns]; [reflexivity|].
    destruct (UnstructuredToObject uns) as [err|pj]; [reflexivity|].
    destruct (len _ >? 0); [intros H; exfalso; apply H; reflexivity | reflexivity].
  - left. split; [reflexivity|].
    pose proof (pollLoop_advances (urlCondition w m) submissionEvent
                  (urlCondition_advances w m)
                  (ticks w (trace s) (10 * Second) (15 * Minute)) tt s) as [_ Hj].
    rewrite Hp in Hj. cbn [snd] in Hj.
    apply pollLoop_success in Hp. destruct Hp as (l0 & s0 & Hc).
    rewrite urlCondition_attempt in Hc.
    destruct (Get _ _ _ _) as [err|uns] eqn:Hg; [discriminate|].
    destruct (UnstructuredToObject uns) as [err|pj] eqn:Hu; [discriminate|].
    destruct (len _ >? 0) eqn:Hl; [|discriminate].
    injection Hc as <- <-. cbn [job trace URL set_URL] in *.
    assert (Hn : Name (job s0) = Name (job s)).
    { unfold sameButURL in Hj. apply (f_equal Name) in Hj. cbn in Hj. exact Hj. }
    rewrite Hn in *.
    split; [apply len_positive, Hl|]. split; [exact Hj|].
    exists (trace s0), uns, pj. auto.
Qed.

(** X10. The URL stage either records a non-empty URL, the one the last fetch of
    the job resource reported, or fails and leaves the request as it was. *)
Theorem awaitURL_outcome s fl s' :
  awaitURL w m s = (fl, s') ->
  (fl = Next tt
   /\ URL (job s') <> ""
   /\ job s' = set_URL (job s) (URL (job s'))
   /\ exists h uns pj,
        trace s' = h ++ [EvGetProwJob (prowNamespace m) (Name (job s))]
        /\ Get (prowClient m) h (prowNamespace m) (Name (job s)) = inr uns
        /\ UnstructuredToObject uns = inr pj
        /\ URL (job s') = status_URL (pj_Status pj))
  \/ (exists e,
        fl = Exit (Return (Some (Errorf ("did not retrieve job url due to an error: "
                                         +:+ Error e))))
        /\ job s' = job s).
Proof. exact (awaitURL_cases s fl s'). Qed.

(** X11. The URL stage fetches its own job resource and nothing else, at least
    once and at most once more than the clock gives ticks. *)
Theorem awaitURL_calls s :
  exists k,
    (1 <= k <= S (ticks w (trace s) (10 * Second) (15 * Minute)))%nat
    /\ trace (snd (awaitURL w m s))
       = trace s ++ repeat (EvGetProwJob (prowNamespace m) (Name (job s))) k.
Proof.
  assert (Hgen : forall n s0, Name (job s0) = Name (job s) ->
            exists k, (1 <= k <= S n)%nat
                      /\ trace (snd (pollLoop n (urlCondition w m) tt s0))
                         = trace s0 ++ repeat (EvGetProwJob (prowNamespace m) (Name (job s))) k).
  { induction n as [|n IH]; intros s0 Hn; rewrite pollLoop_unfold, urlCondition_attempt;
      rewrite Hn;
      destruct (Get _ _ _ _) as [err|uns]; try (exists 1%nat; split; [lia | reflexivity]);
      destruct (UnstructuredToObject uns) as [err|pj];
      try (exists 1%nat; split; [lia | reflexivity]);
      destruct (len _ >? 0); try (exists 1%nat; split; [lia | reflexivity]).
    match goal with
    | |- context [pollLoop n _ tt ?s1] => destruct (IH s1 Hn) as (k & Hk & Ht)
    end.
    exists (S k). split; [lia|]. rewrite Ht. cbn [trace repeat]. now rewrite <- app_assoc. }
  unfold awaitURL. run_body. unfold PollImmediate.
  destruct (Hgen (ticks w (trace s) (10 * Second) (15 * Minute)) s eq_refl) as (k & Hk & Ht).
  exists k. split; [exact Hk|].
  destruct (pollLoop _ _ _ _) as [[[e|] l] s1]; run_body; exact Ht.
Qed.

Lemma podCondition_keeps_job l s : job (snd (podCondition w m l s)) = job s.
Proof. unfold podCondition. run_cases; reflexivity. Qed.

Lemma setupCondition_keeps_job namespace target l s :
  job (snd (setupCondition w m namespace target l s)) = job s.
Proof. unfold setupCondition. destruct l. run_cases; reflexivity. Qed.

Lemma awaitPod_cases s fl s' :
  awaitPod w m s = (fl, s') ->
  job s' = job s
  /\ ((fl = Next tt
       /\ exists h pod,
            trace s' = h ++ [EvGetPod (prowNamespace m) (Name (job s))]
            /\ PodsGet (coreClient m) h (prowNamespace m) (Name (job s)) = PodGetOk pod
            /\ terminalPhase pod = false)
      \/ exists e,
           fl = Exit (Return (Some (Errorf ("unable to check launch status: "
                                            +:+ Error e))))).
Proof.
  unfold awaitPod. run_body. unfold PollImmediate.
  pose proof (pollLoop_keeps (podCondition w m) (fun a b => job b = job a)
                (fun _ _ _ H1 H2 => eq_trans H2 H1)
                podCondition_keeps_job
                (ticks w (trace s) (5 * Second) (15 * Minute)) false s) as Hj.
  destruct (pollLoop _ _ _ _) as [[[e|] l] s1] eqn:Hp; run_body; intros [= <- <-];
    cbn [snd] in Hj; (split; [exact Hj|]); [right; eauto|].
  left. split; [reflexivity|].
  apply pollLoop_success in Hp. destruct Hp as (l0 & s0 & Hc).
  assert (Hj0 : job s0 = job s1).
  { pose proof (podCondition_keeps_job l0 s0) as H. rewrite Hc in H. symmetry. exact H. }
  revert Hc. unfold podCondition. run_body. rewrite Hj0, Hj.
  destruct (PodsGet _ _ _ _) as [pod|p err] eqn:Hg.
  - destruct (terminalPhase pod) eqn:Ht; run_body; [discriminate|].
    intros [= _ <-]. cbn [trace]. exists (trace s0), pod. auto.
  - run_cases; discriminate.
Qed.

(** X12. The visibility stage passes only on a fetch that handed back the
    job's pod in a phase that is not terminal; it never writes to the
    request. *)
Theorem awaitPod_outcome s fl s' :
  awaitPod w m s = (fl, s') ->
  job s' = job s
  /\ ((fl = Next tt
       /\ exists h pod,
            trace s' = h ++ [EvGetPod (prowNamespace m) (Name (job s))]
            /\ PodsGet (coreClient m) h (prowNamespace m) (Name (job s)) = PodGetOk pod
            /\ terminalPhase pod = false)
      \/ exists e,
           fl = Exit (Return (Some (Errorf ("unable to check launch status: "
                                            +:+ Error e))))).
Proof. exact (awaitPod_cases s fl s'). Qed.

Lemma awaitSetup_cases namespace target s fl s' :
  awaitSetup w m namespace target s = (fl, s') ->
  job s' = job s
  /\ ((fl = Next tt
       /\ exists h pod,
            trace s' = h ++ [EvGetPod namespace target]
            /\ PodsGet (coreClient m) h namespace target = PodGetOk pod
            /\ terminalPhase pod = false
            /\ fst (containerSuccessful pod "setup") = true)
      \/ exists e,
           fl = Exit (Return (Some (Errorf ("pod never became available: "
                                            +:+ Error e))))).
Proof.
  unfold awaitSetup. run_body. unfold PollImmediate. cbn [trace].
  match goal with
  | |- context [pollLoop ?n ?c ?l0 ?s1] =>
      pose proof (pollLoop_keeps c (fun a b => job b = job a)
                    (fun _ _ _ H1 H2 => eq_trans H2 H1)
                    (setupCondition_keeps_job namespace target) n l0 s1) as Hj;
      destruct (pollLoop n c l0 s1) as [[[e|] [seen lastErr]] s2] eqn:Hp
  end; run_body; intros [= <- <-]; cbn [snd job] in Hj; (split; [exact Hj|]);
    [right; eauto|].
  left. split; [reflexivity|].
  apply pollLoop_success in Hp. destruct Hp as (l0 & s0 & Hc).
  revert Hc. unfold setupCondition. destruct l0 as [seen0 lastErr0]. run_body.
  destruct (PodsGet _ _ _ _) as [pod|p err] eqn:Hg.
  - destruct (terminalPhase pod) eqn:Ht; run_body; [discriminate|].
    destruct (containerSuccessful pod "setup") as [ok [e0|]] eqn:Hok; run_body;
      [discriminate|].
    intros [= -> _ _ <-]. cbn [trace]. exists (trace s0), pod.
    rewrite Hok. auto.
  - run_cases; discriminate.
Qed.

(** X13. The setup stage passes only on a fetch that handed back the target pod
    in a phase that is not terminal and with its setup container
    terminated with exit code zero; it never writes to the request. *)
Theorem awaitSetup_outcome namespace target s fl s' :
  awaitSetup w m namespace target s = (fl, s') ->
  job s' = job s
  /\ ((fl = Next tt
       /\ exists h pod,
            trace s' = h ++ [EvGetPod namespace target]
            /\ PodsGet (coreClient m) h namespace target = PodGetOk pod
            /\ terminalPhase pod = false
            /\ fst (containerSuccessful pod "setup") = true)
      \/ exists e,
           fl = Exit (Return (Some (Errorf ("pod never became available: "
                                            +:+ Error e))))).
Proof. exact (awaitSetup_cases namespace target s fl s'). Qed.

(** X14. The target pod, once fetched, must stay: when the first attempt finds
    it still setting up and the next fetch is answered NotFound or
    Forbidden, the setup stage fails with "pod was deleted". *)
Theorem awaitSetup_pod_deleted namespace target s n pod p e :
  let h1 := trace s ++ [EvLog ("waiting for setup container in pod " +:+ namespace +:+ "/"
                               +:+ target +:+ " to complete")] in
  let h2 := h1 ++ [EvGetPod namespace target] in
  ticks w h1 (5 * Second) (45 * Minute) = S n ->
  PodsGet (coreClient m) h1 namespace target = PodGetOk pod ->
  terminalPhase pod = false ->
  fst (containerSuccessful pod "setup") = false ->
  PodsGet (coreClient m) h2 namespace target = PodGetErr p e ->
  IsNotFound e || IsForbidden e = true ->
  awaitSetup w m namespace target s
  = (Exit (Return (Some (Errorf "pod never became available: pod was deleted"))),
     {| job := job s; trace := h2 ++ [EvGetPod namespace target] |}).
Proof.
  intros h1 h2 Hn Hg1 Ht Hok Hg2 He.
  unfold awaitSetup. run_body. unfold PollImmediate. cbn [trace]. fold h1. rewrite Hn.
  rewrite pollLoop_unfold. unfold setupCondition at 1. run_body. fold h1. rewrite Hg1, Ht.
  pose proof (containerSuccessful_no_error pod "setup") as Herr.
  destruct (containerSuccessful pod "setup") as [ok err]. cbn [fst snd] in *. subst ok err.
  run_body. rewrite pollLoop_unfold. unfold setupCondition at 1. run_body. fold h2.
  rewrite Hg2.
  replace (negb (IsNotFound e) && negb (IsForbidden e)) with false
    by (destruct (IsNotFound e), (IsForbidden e); try reflexivity; discriminate He).
  reflexivity.
Qed.

(** X15. A pod in a terminal phase fails the setup stage at once, whatever its
    setup container reports. *)
Theorem awaitSetup_terminal_phase namespace target s pod :
  let h1 := trace s ++ [EvLog ("waiting for setup container in pod " +:+ namespace +:+ "/"
                               +:+ target +:+ " to complete")] in
  PodsGet (coreClient m) h1 namespace target = PodGetOk pod ->
  terminalPhase pod = true ->
  awaitSetup w m namespace target s
  = (Exit (Return (Some (Errorf "pod never became available: pod has already exited"))),
     {| job := job s; trace := h1 ++ [EvGetPod namespace target] |}).
Proof.
  intros h1 Hg Ht. unfold awaitSetup. run_body. unfold PollImmediate. cbn [trace]. fold h1.
  rewrite pollLoop_unfold. unfold setupCondition at 1. run_body. fold h1. rewrite Hg, Ht.
  reflexivity.
Qed.

End Stages.

(** ** The probe and the remote command *)

Section Probe.

Variable w : World.

Lemma reachableCondition_attempt cfg l s :
  let s1 := {| job := job s;
               trace := trace s ++ [EvGetNamespace (Host cfg) "openshift-apiserver"] |} in
  reachableCondition w cfg l s
  = match NamespacesGet w (trace s) cfg "openshift-apiserver" with
    | None => ((true, None), tt, s1)
    | Some err =>
        ((false, None), tt,
         {| job := job s;
            trace := trace s1 ++ [EvLog ("cluster is not yet reachable " +:+ Host cfg
                                         +:+ ": " +:+ Error err)] |})
    end.
Proof. unfold reachableCondition. run_cases; reflexivity. Qed.

Lemma waitForClusterReachable_cases kubeconfig s r s' :
  waitForClusterReachable w kubeconfig s = (r, s') ->
  job s' = job s
  /\ match r with
     | None =>
         exists cfg h,
           loadKubeconfigContents w kubeconfig = inr cfg
           /\ trace s' = h ++ [EvGetNamespace (Host cfg) "openshift-apiserver"]
           /\ NamespacesGet w h {| Host := Host cfg; Timeout := 15 * Second |}
                            "openshift-apiserver" = None
     | Some e =>
         (s' = s
          /\ (loadKubeconfigContents w kubeconfig = inl e
              \/ exists cfg, loadKubeconfigContents w kubeconfig = inr cfg
                             /\ NewForConfig w {| Host := Host cfg; Timeout := 15 * Second |}
                                = Some e))
         \/ e = ErrWaitTimeout
     end.
Proof.
  unfold waitForClusterReachable.
  destruct (loadKubeconfigContents w kubeconfig) as [err|cfg] eqn:Hl.
  { intros [= <- <-]. split; [reflexivity|]. left. auto. }
  destruct (NewForConfig w _) as [err|] eqn:Hn.
  { intros [= <- <-]. split; [reflexivity|]. left. split; [reflexivity|]. right. eauto. }
  run_body. unfold PollImmediate.
  set (cfg' := {| Host := Host cfg; Timeout := 15 * Second |}).
  set (n := ticks w (trace s) (15 * Second) (20 * Minute)).
  assert (Hkeep : forall l s0, job (snd (reachableCondition w cfg' l s0)) = job s0).
  { intros l s0. rewrite reachableCondition_attempt. destruct (NamespacesGet _ _ _ _);
      reflexivity. }
  pose proof (pollLoop_keeps (reachableCondition w cfg') (fun a b => job b = job a)
                (fun _ _ _ H1 H2 => eq_trans H2 H1) Hkeep n tt s) as Hj.
  destruct (pollLoop n (reachableCondition w cfg') tt s) as [[[e|] l] s1] eqn:Hp;
    run_body; intros [= <- <-]; cbn [snd] in Hj; (split; [exact Hj|]).
  - right. clear Hj. clearbody n. revert s Hp. induction n as [|n IH]; intros s;
      rewrite pollLoop_unfold, reachableCondition_attempt;
      destruct (NamespacesGet _ _ _ _); try discriminate.
    + intros [= <- _ _]. reflexivity.
    + apply IH.
  - apply pollLoop_success in Hp. destruct Hp as (l0 & s0 & Hc).
    rewrite reachableCondition_attempt in Hc.
    destruct (NamespacesGet w (trace s0) cfg' "openshift-apiserver") eqn:Hg; [discriminate|].
    injection Hc as _ <-. exists cfg, (trace s0). auto.
Qed.

(** X18. The probe of the provisioned cluster leaves the request alone. It
    answers nil only after a fetch of the well-known namespace that the
    cluster answered without error, made with the 15 second timeout; when
    it fails, either the kubeconfig could not be turned into a client and
    nothing was called, or the poll ran out of time: an error of the
    cluster itself is never what it returns. *)
Theorem waitForClusterReachable_outcome kubeconfig s r s' :
  waitForClusterReachable w kubeconfig s = (r, s') ->
  job s' = job s
  /\ match r with
     | None =>
         exists cfg h,
           loadKubeconfigContents w kubeconfig = inr cfg
           /\ trace s' = h ++ [EvGetNamespace (Host cfg) "openshift-apiserver"]
           /\ NamespacesGet w h {| Host := Host cfg; Timeout := 15 * Second |}
                            "openshift-apiserver" = None
     | Some e =>
         (s' = s
          /\ (loadKubeconfigContents w kubeconfig = inl e
              \/ exists cfg, loadKubeconfigContents w kubeconfig = inr cfg
                             /\ NewForConfig w {| Host := Host cfg; Timeout := 15 * Second |}
                                = Some e))
         \/ e = ErrWaitTimeout
     end.
Proof. exact (waitForClusterReachable_cases kubeconfig s r s'). Qed.

(** X17. [commandContents] never hands back output together with an error, and
    when the executor cannot be set up it does not reach the pod. *)
Theorem commandContents_error_has_no_output cfg ns name container command s :
  let r := commandContents w cfg ns name container command s in
  job (snd r) = job s
  /\ (snd (fst r) <> None -> fst (fst r) = "")
  /\ (forall e,
        NewSPDYExecutor w cfg {| exec_Namespace := ns; exec_Name := name;
                                 exec_Container := container; exec_Stdout := true;
                                 exec_Stderr := false; exec_Command := command |} = Some e ->
        r = (("", Some (Errorf ("could not initialize a new SPDY executor: " +:+ Error e))),
             s)).
Proof.
  unfold commandContents. run_body.
  destruct (NewSPDYExecutor _ _ _) as [e|]; run_body.
  - split; [reflexivity|]. split; [reflexivity|]. intros e0 [= <-]. reflexivity.
  - destruct (Stream _ _ _) as [out [e|]]; run_body;
      (split; [reflexivity|]); (split; [congruence || reflexivity | discriminate]).
Qed.

End Probe.

(** ** The whole run *)

Section WholeRun.

Variable w : World.
Variable m : jobManager w.

(** Lines 216-240 in one equation: the result is the probe's, the
    credential artifact is the kubeconfig or nothing accordingly, the
    snippet comes from whatever the log fetch handed back, and the patch is
    always sent; neither the log fetch nor the patch can change the
    result. *)
Lemma deliver_outcome namespace target kubeconfig s o s' :
  deliver w m namespace target kubeconfig s = (o, s') ->
  exists r s6 logs evs,
    waitForClusterReachable w kubeconfig
      {| job := set_Credentials (job s) kubeconfig; trace := trace s |} = (r, s6)
    /\ o = Return (wrapUnreachable r)
    /\ job s' = set_PasswordSnippet
                  (set_Credentials (job s)
                     match r with Some _ => "" | None => kubeconfig end)
                  (reFixLines_ReplaceAllString logs)
    /\ trace s' = trace s6 ++ evs
    /\ In (EvGetLogs namespace target "setup" 2) evs
    /\ In (EvPatch (prowNamespace m) (Name (job s)) MergePatchType channelPatch) evs
    /\ Forall (fun e => match e with
                        | EvGetLogs _ _ _ _ | EvPatch _ _ _ _ | EvLog _ => True
                        | _ => False
                        end) evs.
Proof.
  unfold deliver. run_body.
  pose proof (waitForClusterReachable_cases w kubeconfig
                {| job := set_Credentials (job s) kubeconfig; trace := trace s |}) as Hw.
  destruct (waitForClusterReachable w kubeconfig _) as [r s6].
  destruct (Hw r s6 eq_refl) as [Hj6 _]. cbn [job] in Hj6.
  destruct r as [err|]; run_cases; intros [= <- <-]; cbn [job trace];
    rewrite Hj6; cbn [Name set_Credentials set_PasswordSnippet];
    (do 4 eexists; split; [reflexivity|]; split; [reflexivity|]; split; [reflexivity|];
     split; [rewrite <- ?app_assoc; reflexivity|];
     split; [cbn; tauto|]; split; [cbn; tauto|]; repeat constructor).
Qed.

Lemma submit_exit_error s o :
  fst (submit w m s) = Exit o -> exists e, o = Return (Some e).
Proof.
  unfold submit, jobResource, OverrideJobEnvironment, findTargetName.
  cbv beta iota zeta delta [bind getJob].
  destruct (JobForConfig w (prowConfigLoader m) (JobName (job s)) s) as [[err|pj] s1];
    run_body; [intros [= <-]; eauto|].
  destruct (spec_PodSpec (pj_Spec pj)) as [ps|]; [|intros [= <-]; eauto].
  destruct (findTargetContainers (Containers ps)); [|intros [= <-]; eauto].
  destruct (len (UpgradeImage (job s)) >? 0); run_body;
    destruct (Create _ _ _ _) as [e|]; try destruct (IsAlreadyExists e); cbn [negb];
    run_body; intros [= <-]; eauto.
Qed.

Lemma fetchKubeconfig_exit_error namespace target s o :
  fst (fetchKubeconfig w m namespace target s) = Exit o -> exists e, o = Return (Some e).
Proof.
  unfold fetchKubeconfig. run_body.
  destruct (PollImmediate _ _ _ _ _ _) as [[[e|] l] s']; run_body; intros [= <-]; eauto.
Qed.

(** Where a run that started unfulfilled can end: on an error of a stage
    before the delivery, the request untouched but for its URL; after the
    URL stage, for a mode other than "launch"; or in the delivery. *)
Lemma launchJob_inversion s o s' :
  fulfilled (job s) = false ->
  launchJob w m s = (o, s') ->
  (exists e, o = Return (Some e) /\ advances anyEvent s s')
  \/ (exists namespace target,
        urlRecorded w m s namespace target s' /\ Mode (job s) <> "launch" /\ o = Return None)
  \/ (exists namespace target kubeconfig s5,
        credentialsRetrieved w m s namespace target kubeconfig s5
        /\ deliver w m namespace target kubeconfig s5 = (o, s')).
Proof.
  intros Hf. unfold launchJob, andThen. cbv beta iota zeta delta [bind getJob]. rewrite Hf.
  pose proof (submit_exit_error s) as X1.
  pose proof (submit_advances w m s) as A1.
  apply (advances_weaken _ anyEvent) in A1; [|intros; exact I].
  destruct (submit w m s) as [[o1|[namespace target]] s1] eqn:Hs; cbn [fst snd] in *.
  { intros [= <- <-]. left. destruct (X1 o1 eq_refl) as [e ->]. eauto. }
  pose proof (awaitURL_cases w m s1) as X2.
  pose proof (awaitURL_advances w m s1) as A2.
  apply (advances_weaken _ anyEvent) in A2; [|intros; exact I].
  destruct (awaitURL w m s1) as [[o2|[]] s2] eqn:Hu; cbn [fst snd] in *.
  { intros [= <- <-]. left.
    destruct (X2 _ _ eq_refl) as [(Hx & _)|(e & Hx & _)]; [discriminate|].
    injection Hx as ->. exists (Errorf ("did not retrieve job url due to an error: "
                                         +:+ Error e)).
    split; [reflexivity | eapply advances_trans; eauto]. }
  assert (Hur : urlRecorded w m s namespace target s2) by (split; eauto).
  assert (A12 : advances anyEvent s s2) by (eapply advances_trans; eauto).
  assert (Hmode : Mode (job s2) = Mode (job s)).
  { destruct A12 as [_ Hj]. rewrite Hj. reflexivity. }
  unfold afterURL, andThen. cbv beta iota zeta delta [bind getJob]. rewrite Hmode.
  destruct (String.eqb_spec (Mode (job s)) "launch") as [Hm|Hm]; cbn [negb].
  2:{ unfold ret. intros [= <- <-]. right. left. eauto 6. }
  pose proof (awaitPod_cases w m s2) as X3.
  pose proof (awaitPod_advances w m s2) as A3.
  destruct (awaitPod w m s2) as [[o3|[]] s3] eqn:Hp; cbn [fst snd] in *.
  { intros [= <- <-]. left.
    destruct (X3 _ _ eq_refl) as [_ [(Hx & _)|(e & Hx)]]; [discriminate|].
    injection Hx as ->. eexists. split; [reflexivity | eapply advances_trans; eauto]. }
  pose proof (awaitSetup_cases w m namespace target s3) as X4.
  pose proof (awaitSetup_advances w m namespace target s3) as A4.
  destruct (awaitSetup w m namespace target s3) as [[o4|[]] s4] eqn:Hse; cbn [fst snd] in *.
  { intros [= <- <-]. left.
    destruct (X4 _ _ eq_refl) as [_ [(Hx & _)|(e & Hx)]]; [discriminate|].
    injection Hx as ->. eexists. split; [reflexivity|].
    eapply advances_trans; [|exact A4]. eapply advances_trans; eauto. }
  pose proof (fetchKubeconfig_exit_error namespace target s4) as X5.
  pose proof (fetchKubeconfig_advances w m namespace target s4) as A5.
  destruct (fetchKubeconfig w m namespace target s4) as [[o5|k] s5] eqn:Hk;
    cbn [fst snd] in *.
  { intros [= <- <-]. left. destruct (X5 o5 eq_refl) as [e ->]. eexists.
    split; [reflexivity|].
    eapply advances_trans; [|exact A5]. eapply advances_trans; [|exact A4].
    eapply advances_trans; eauto. }
  intros Hd. right. right. exists namespace, target, k, s5. split; [|exact Hd].
  exists s2, s3, s4. rewrite Hmode. auto.
Qed.

Lemma kubeconfigCondition_keeps_job namespace target l s :
  job (snd (kubeconfigCondition w m namespace target l s)) = job s.
Proof.
  unfold kubeconfigCondition, commandContents. run_cases; reflexivity.
Qed.

Lemma fetchKubeconfig_keeps_job namespace target s :
  job (snd (fetchKubeconfig w m namespace target s)) = job s.
Proof.
  unfold fetchKubeconfig. run_body. unfold PollImmediate. cbn [trace].
  match goal with
  | |- context [pollLoop ?n ?c ?l0 ?s1] =>
      pose proof (pollLoop_keeps c (fun a b => job b = job a)
                    (fun _ _ _ H1 H2 => eq_trans H2 H1)
                    (kubeconfigCondition_keeps_job namespace target) n l0 s1) as Hj;
      destruct (pollLoop n c l0 s1) as [[[e|] k] s2]
  end; run_body; exact Hj.
Qed.

(** Where the request stands when the kubeconfig is retrieved: only its
    URL was written, and it is not empty. *)
Lemma credentialsRetrieved_request s namespace target kubeconfig s5 :
  credentialsRetrieved w m s namespace target kubeconfig s5 ->
  job s5 = set_URL (job s) (URL (job s5)) /\ URL (job s5) <> "" /\ kubeconfig <> "".
Proof.
  intros (s2 & s3 & s4 & (Hf & s1 & Hs & Hu) & Hm & Hp & Hse & Hk).
  pose proof (submit_advances w m s) as [_ J1]. rewrite Hs in J1. cbn [snd] in J1.
  destruct (awaitURL_cases w m s1 _ _ Hu) as [(_ & Hne & J2 & _)|(e & Hx & _)];
    [|discriminate].
  destruct (awaitPod_cases w m s2 _ _ Hp) as [J3 _].
  destruct (awaitSetup_cases w m namespace target s3 _ _ Hse) as [J4 _].
  pose proof (fetchKubeconfig_keeps_job namespace target s4) as J5. rewrite Hk in J5.
  cbn [snd] in J5.
  assert (E : job s5 = job s2) by congruence.
  rewrite E. split; [|split; [exact Hne | eapply fetchKubeconfig_nonempty; eauto]].
  unfold sameButURL in J1. rewrite J2, J1. reflexivity.
Qed.


Lemma launchJob_nil_outputs s s' :
  fulfilled (job s) = false ->
  Mode (job s) = "launch" ->
  launchJob w m s = (Return None, s') ->
  URL (job s') <> "" /\ Credentials (job s') <> "".
Proof.
  intros Hf Hm Hl.
  destruct (launchJob_inversion s _ _ Hf Hl)
    as [(e & He & _)|[(ns & tgt & _ & Hmode & _)|(ns & tgt & k & s5 & Hcr & Hd)]];
    [discriminate | contradiction |].
  destruct (credentialsRetrieved_request _ _ _ _ _ Hcr) as (Hj & Hu & Hk).
  destruct (deliver_outcome _ _ _ _ _ _ Hd)
    as (r & s6 & logs & evs & _ & Hr & Hjob & _).
  destruct r as [err|]; [discriminate Hr|].
  rewrite Hjob. cbn [URL Credentials set_PasswordSnippet set_Credentials]. auto.
Qed.

(** X20. A nil result of a "launch" request that was not yet fulfilled means the
    outputs are there: neither the URL nor the credential artifact is
    empty. *)
Theorem launchJob_nil_means_delivered s s' :
  fulfilled (job s) = false ->
  Mode (job s) = "launch" ->
  launchJob w m s = (Return None, s') ->
  URL (job s') <> "" /\ Credentials (job s') <> "".
Proof. exact (launchJob_nil_outputs s s'). Qed.

(** X21. An error result never comes with a credential artifact stored by this
    run: either the artifact is empty, or the run ended before the delivery
    and the request is as it was but for its URL. *)
Theorem launchJob_error_keeps_credentials_back s e s' :
  launchJob w m s = (Return (Some e), s') ->
  Credentials (job s') = "" \/ job s' = set_URL (job s) (URL (job s')).
Proof.
  intros Hl. destruct (fulfilled (job s)) eqn:Hf.
  { revert Hl. unfold launchJob. cbv beta iota zeta delta [bind getJob]. rewrite Hf.
    discriminate. }
  destruct (launchJob_inversion s _ _ Hf Hl)
    as [(e0 & _ & _ & Hj)|[(ns & tgt & _ & _ & Hx)|(ns & tgt & k & s5 & Hcr & Hd)]];
    [right; exact Hj | discriminate |].
  destruct (deliver_outcome _ _ _ _ _ _ Hd)
    as (r & s6 & logs & evs & _ & Hr & Hjob & _).
  destruct r as [err|]; [|discriminate Hr].
  left. rewrite Hjob. reflexivity.
Qed.

Lemma sameButURL_outputs j j' :
  sameButURL j j' ->
  j' = set_PasswordSnippet (set_Credentials (set_URL j (URL j')) (Credentials j))
                           (PasswordSnippet j).
Proof.
  unfold sameButURL. intros H. rewrite H at 1. destruct j; reflexivity.
Qed.

(** X22. [launchJob] writes to the three outputs of the request and to nothing
    else, and only adds to the calls made. *)
Theorem launchJob_writes_outputs_only s o s' :
  launchJob w m s = (o, s') ->
  (exists url credentials snippet,
     job s' = set_PasswordSnippet (set_Credentials (set_URL (job s) url) credentials) snippet)
  /\ appends anyEvent s s'.
Proof.
  intros Hl. destruct (fulfilled (job s)) eqn:Hf.
  { revert Hl. unfold launchJob. cbv beta iota zeta delta [bind getJob]. rewrite Hf.
    intros [= <- <-]. split; [|apply appends_refl].
    exists (URL (job s)), (Credentials (job s)), (PasswordSnippet (job s)).
    destruct (job s); reflexivity. }
  destruct (launchJob_inversion s _ _ Hf Hl)
    as [(e0 & _ & Ha & Hj)|[(ns & tgt & Hu & _ & _)|(ns & tgt & k & s5 & Hcr & Hd)]].
  - split; [|exact Ha]. eauto using sameButURL_outputs.
  - destruct (urlRecorded_advances w m _ _ _ _ Hu) as [Ha Hj]. split.
    + eauto using sameButURL_outputs.
    + eapply appends_weaken; [|exact Ha]. intros; exact I.
  - destruct (credentialsRetrieved_advances w m _ _ _ _ _ Hcr) as [Ha Hj].
    pose proof (deliver_appends w m ns tgt k s5) as Ha'. rewrite Hd in Ha'. cbn [snd] in Ha'.
    split; [|eapply appends_trans; eauto].
    destruct (deliver_outcome _ _ _ _ _ _ Hd)
      as (r & s6 & logs & evs & _ & _ & Hjob & _).
    unfold sameButURL in Hj. rewrite Hjob, Hj.
    exists (URL (job s5)). eexists _, _.
    destruct (job s); reflexivity.
Qed.

(** X23. Re-entry. After a nil result for a "launch" request with a snippet that
    is not empty, a further invocation, on any platform, does nothing. *)
Theorem launchJob_reentry s s' (w' : World) (m' : jobManager w') :
  fulfilled (job s) = false ->
  Mode (job s) = "launch" ->
  launchJob w m s = (Return None, s') ->
  PasswordSnippet (job s') <> "" ->
  launchJob w' m' s' = (Return None, s').
Proof.
  intros Hf Hm Hl Hp. destruct (launchJob_nil_outputs s s' Hf Hm Hl) as [_ Hc].
  unfold launchJob. cbv beta iota zeta delta [bind getJob]. unfold fulfilled.
  rewrite (len_nonempty _ Hc), (len_nonempty _ Hp). reflexivity.
Qed.

End WholeRun.

(** ** The encoding loses nothing *)

Lemma byte_high_bit b i : 0 <= b < 256 -> 8 <= i -> Z.testbit b i = false.
Proof.
  intros Hb Hi. rewrite <- (Z.mod_small b (2 ^ 8)) by exact Hb.
  apply Z.mod_pow2_bits_high. lia.
Qed.

Lemma word_bits b0 b1 b2 b3 i :
  0 <= b0 < 256 -> 0 <= b1 < 256 -> 0 <= b2 < 256 -> 0 <= b3 < 256 -> 0 <= i ->
  Z.testbit (word_of_bytes b0 b1 b2 b3) i
  = if i <? 8 then Z.testbit b3 i
    else if i <? 16 then Z.testbit b2 (i - 8)
    else if i <? 24 then Z.testbit b1 (i - 16)
    else Z.testbit b0 (i - 24).
Proof.
  intros H0 H1 H2 H3 Hi. unfold word_of_bytes.
  rewrite !Z.lor_spec, !Z.shiftl_spec by exact Hi.
  destruct (Z.ltb_spec i 8).
  { rewrite !(Z.testbit_neg_r _ (i - _)) by lia. reflexivity. }
  rewrite (byte_high_bit b3) by lia.
  destruct (Z.ltb_spec i 16).
  { rewrite (Z.testbit_neg_r _ (i - 24)), (Z.testbit_neg_r _ (i - 16)) by lia.
    now rewrite orb_false_r. }
  rewrite (byte_high_bit b2) by lia.
  destruct (Z.ltb_spec i 24).
  { rewrite (Z.testbit_neg_r _ (i - 24)) by lia. now rewrite !orb_false_r. }
  rewrite (byte_high_bit b1) by lia. now rewrite !orb_false_r.
Qed.

Lemma word_of_bytes_inj b0 b1 b2 b3 c0 c1 c2 c3 :
  0 <= b0 < 256 -> 0 <= b1 < 256 -> 0 <= b2 < 256 -> 0 <= b3 < 256 ->
  0 <= c0 < 256 -> 0 <= c1 < 256 -> 0 <= c2 < 256 -> 0 <= c3 < 256 ->
  word_of_bytes b0 b1 b2 b3 = word_of_bytes c0 c1 c2 c3 ->
  [b0; b1; b2; b3] = [c0; c1; c2; c3].
Proof.
  intros B0 B1 B2 B3 C0 C1 C2 C3 Hw.
  assert (Hbit : forall i, 0 <= i ->
            Z.testbit (word_of_bytes b0 b1 b2 b3) i = Z.testbit (word_of_bytes c0 c1 c2 c3) i)
    by (intros; now rewrite Hw).
  assert (byte_eq : forall b c, 0 <= b < 256 -> 0 <= c < 256 ->
            (forall i, 0 <= i < 8 -> Z.testbit b i = Z.testbit c i) -> b = c).
  { intros b c Hb Hc H. apply Z.bits_inj'. intros i Hi.
    destruct (Z.lt_ge_cases i 8); [apply H; lia|].
    now rewrite !byte_high_bit by assumption. }
  repeat f_equal.
  - apply (byte_eq _ _ B0 C0). intros i Hi. specialize (Hbit (i + 24) ltac:(lia)).
    rewrite !word_bits in Hbit by (assumption || lia).
    repeat match type of Hbit with context [?a <? ?b] =>
      destruct (Z.ltb_spec a b); try lia end.
    replace (i + 24 - 24) with i in Hbit by lia. exact Hbit.
  - apply (byte_eq _ _ B1 C1). intros i Hi. specialize (Hbit (i + 16) ltac:(lia)).
    rewrite !word_bits in Hbit by (assumption || lia).
    repeat match type of Hbit with context [?a <? ?b] =>
      destruct (Z.ltb_spec a b); try lia end.
    replace (i + 16 - 16) with i in Hbit by lia. exact Hbit.
  - apply (byte_eq _ _ B2 C2). intros i Hi. specialize (Hbit (i + 8) ltac:(lia)).
    rewrite !word_bits in Hbit by (assumption || lia).
    repeat match type of Hbit with context [?a <? ?b] =>
      destruct (Z.ltb_spec a b); try lia end.
    replace (i + 8 - 8) with i in Hbit by lia. exact Hbit.
  - apply (byte_eq _ _ B3 C3). intros i Hi. specialize (Hbit i ltac:(lia)).
    rewrite !word_bits in Hbit by (assumption || lia).
    repeat match type of Hbit with context [?a <? ?b] =>
      destruct (Z.ltb_spec a b); try lia end.
    exact Hbit.
Qed.

Lemma group_bit v k j :
  0 <= j < 5 -> 3 <= 5 * (6 - k) + j ->
  Z.testbit (group v k) j = Z.testbit v (5 * (6 - k) + j - 3).
Proof.
  intros Hj Hk. unfold group. rewrite Z.land_spec.
  change 31 with (Z.ones 5). rewrite Z.ones_spec_low by lia. rewrite andb_true_r.
  rewrite Z.shiftr_spec by lia. rewrite Z.shiftl_spec by lia.
  f_equal. lia.
Qed.

Lemma groups_inj b0 b1 b2 b3 c0 c1 c2 c3 :
  0 <= b0 < 256 -> 0 <= b1 < 256 -> 0 <= b2 < 256 -> 0 <= b3 < 256 ->
  0 <= c0 < 256 -> 0 <= c1 < 256 -> 0 <= c2 < 256 -> 0 <= c3 < 256 ->
  (forall k, 0 <= k <= 6 ->
     group (word_of_bytes b0 b1 b2 b3) k = group (word_of_bytes c0 c1 c2 c3) k) ->
  word_of_bytes b0 b1 b2 b3 = word_of_bytes c0 c1 c2 c3.
Proof.
  intros B0 B1 B2 B3 C0 C1 C2 C3 Hg. apply Z.bits_inj'. intros i Hi.
  destruct (Z.lt_ge_cases i 32) as [Hlt|Hge].
  - pose proof (Z.div_mod (i + 3) 5 ltac:(lia)) as Hdm.
    pose proof (Z.mod_pos_bound (i + 3) 5 ltac:(lia)) as Hm.
    assert (Hq : 0 <= (i + 3) / 5 <= 6).
    { split; [apply Z.div_pos; lia|]. apply Z.lt_succ_r. apply Z.div_lt_upper_bound; lia. }
    set (k := 6 - (i + 3) / 5). set (j := (i + 3) mod 5).
    assert (Hi' : i = 5 * (6 - k) + j - 3) by (subst k j; lia).
    rewrite Hi'. rewrite <- !group_bit by (subst k j; lia).
    rewrite Hg by (subst k; lia). reflexivity.
  - rewrite !word_bits by assumption.
    repeat match goal with |- context [?a <? ?b] =>
      destruct (Z.ltb_spec a b); try lia end.
    now rewrite !byte_high_bit by (assumption || lia).
Qed.

Lemma alphabet_NoDup : List.NoDup alphabet.
Proof. apply NoDup_ListNoDup. apply (bool_decide_unpack _). vm_compute. exact I. Qed.

Lemma encodeWord_inj b0 b1 b2 b3 c0 c1 c2 c3 :
  0 <= b0 < 256 -> 0 <= b1 < 256 -> 0 <= b2 < 256 -> 0 <= b3 < 256 ->
  0 <= c0 < 256 -> 0 <= c1 < 256 -> 0 <= c2 < 256 -> 0 <= c3 < 256 ->
  encodeWord (word_of_bytes b0 b1 b2 b3) = encodeWord (word_of_bytes c0 c1 c2 c3) ->
  [b0; b1; b2; b3] = [c0; c1; c2; c3].
Proof.
  intros B0 B1 B2 B3 C0 C1 C2 C3 He.
  apply word_of_bytes_inj; try assumption. apply groups_inj; try assumption.
  set (v := word_of_bytes b0 b1 b2 b3) in *. set (v' := word_of_bytes c0 c1 c2 c3) in *.
  unfold encodeWord in He. apply (f_equal list_ascii_of_string) in He.
  rewrite !list_ascii_of_string_of_list_ascii in He.
  assert (Hsym : forall k, In k [0; 1; 2; 3; 4; 5; 6] -> group v k = group v' k).
  { intros k Hk.
    assert (Hn : nth (Z.to_nat (group v k)) alphabet zero
                 = nth (Z.to_nat (group v' k)) alphabet zero).
    { cbn [map] in He. cbn [In] in Hk.
      repeat (destruct Hk as [<-|Hk]; [congruence|]). destruct Hk. }
    pose proof (group_range v k). pose proof (group_range v' k).
    apply (proj1 (NoDup_nth alphabet zero) alphabet_NoDup) in Hn;
      [lia | change (length alphabet) with 32%nat; lia
           | change (length alphabet) with 32%nat; lia]. }
  intros k Hk. apply Hsym. cbn [In].
  assert (k = 0 \/ k = 1 \/ k = 2 \/ k = 3 \/ k = 4 \/ k = 5 \/ k = 6) by lia.
  intuition auto.
Qed.

(** X25. Two sequences of strings get the same hash exactly when the first four
    bytes of their digests agree: the encoding itself never merges two
    values. *)
Theorem namespaceSafeHash_collision values values' :
  namespaceSafeHash values = namespaceSafeHash values'
  <-> take 4 (sha256.Sum256 (concat (map bytes_of_string values)))
      = take 4 (sha256.Sum256 (concat (map bytes_of_string values'))).
Proof.
  unfold namespaceSafeHash. split; [|intros ->; reflexivity].
  destruct (Sum256_first4 (concat (map bytes_of_string values)))
    as (b0 & b1 & b2 & b3 & -> & B0 & B1 & B2 & B3).
  destruct (Sum256_first4 (concat (map bytes_of_string values')))
    as (c0 & c1 & c2 & c3 & -> & C0 & C1 & C2 & C3).
  rewrite !encode_first4 by assumption. apply encodeWord_inj; assumption.
Qed.

Lemma alphabet_alnum c : In c alphabet -> alnum c = true.
Proof.
  intros Hc. assert (H : existsb (Ascii.eqb c) alphabet = true).
  { apply existsb_exists. exists c. split; [exact Hc | apply Ascii.eqb_refl]. }
  rewrite alphabet_members in H. unfold alnum.
  destruct (isDigit c); [reflexivity|]. cbn [orb] in *.
  apply andb_true_iff in H. destruct H as [-> _]. reflexivity.
Qed.

(** X26. Whatever the request is called, the namespace derived for it is a
    valid namespace name of 13 characters. *)
Theorem derivedNamespace_valid name :
  String.length (derivedNamespace name) = 13%nat
  /\ dns1123Label (derivedNamespace name) = true
  /\ HasPrefix (derivedNamespace name) "ci-ln-" = true.
Proof.
  unfold derivedNamespace, namespaceSafeHash.
  destruct (Sum256_first4 (concat (map bytes_of_string [name])))
    as (b0 & b1 & b2 & b3 & -> & B0 & B1 & B2 & B3).
  rewrite encode_first4 by assumption. unfold encodeWord. cbn [map].
  set (v := word_of_bytes b0 b1 b2 b3).
  assert (Hs : forall k, alnum (nth (Z.to_nat (group v k)) alphabet zero) = true)
    by (intros k; apply alphabet_alnum, symbol_alphabet, group_range).
  set (syms := [_; _; _; _; _; _; _]).
  change ("ci-ln-" +:+ string_of_list_ascii syms)
    with (string_of_list_ascii (list_ascii_of_string "ci-ln-" ++ syms)).
  split; [reflexivity|]. split; [|reflexivity].
  unfold dns1123Label. rewrite list_ascii_of_string_of_list_ascii. subst syms.
  cbn [list_ascii_of_string app length rev forallb Nat.leb].
  unfold labelChar. rewrite !Hs. reflexivity.
Qed.

(** ** The log snippet *)

Lemma append_assoc_s a b c : (a +:+ b) +:+ c = a +:+ (b +:+ c).
Proof.
  induction a as [|x a IH]; [reflexivity|].
  change (String x a +:+ b) with (String x (a +:+ b)).
  change (String x (a +:+ b) +:+ c) with (String x ((a +:+ b) +:+ c)).
  change (String x a +:+ (b +:+ c)) with (String x (a +:+ (b +:+ c))). now rewrite IH.
Qed.

Lemma substring_skip a m s :
  String.substring (String.length a) m (a +:+ s) = String.substring 0 m s.
Proof.
  induction a as [|c a IH]; [reflexivity|].
  change (String c a +:+ s) with (String c (a +:+ s)).
  cbn [String.length String.substring]. exact IH.
Qed.

Lemma substring_head b c :
  String.substring 0 (String.length b) (b +:+ c) = b.
Proof.
  induction b as [|x b IH].
  - destruct c; reflexivity.
  - change (String x b +:+ c) with (String x (b +:+ c)).
    cbn [String.length String.substring]. now rewrite IH.
Qed.

Lemma fixLine_decorated x : fixLine (fixLinePrefix +:+ x +:+ quote) = x.
Proof.
  unfold fixLine. rewrite HasPrefix_app.
  rewrite !length_append. change (String.length quote) with 1%nat.
  replace (String.length fixLinePrefix + 1
           <=? String.length fixLinePrefix + (String.length x + 1))%nat
    with true by (symmetry; apply Nat.leb_le; lia).
  replace (String.length fixLinePrefix + (String.length x + 1) - 1)%nat
    with (String.length (fixLinePrefix +:+ x)) by (rewrite length_append; lia).
  replace (String.length fixLinePrefix + (String.length x + 1)
           - String.length fixLinePrefix - 1)%nat
    with (String.length x) by lia.
  rewrite <- append_assoc_s, substring_skip.
  change (String.substring 0 1 quote) with quote. rewrite String.eqb_refl. cbn [andb].
  rewrite append_assoc_s, substring_skip.
  apply substring_head.
Qed.

Lemma fixLine_other line : HasPrefix line fixLinePrefix = false -> fixLine line = line.
Proof. unfold fixLine. intros ->. reflexivity. Qed.

Lemma joinLines_cons l ls :
  ls <> [] -> joinLines (l :: ls) = l +:+ String newline (joinLines ls).
Proof. destruct ls; [congruence | reflexivity]. Qed.

Lemma splitLines_nonempty s : splitLines s <> [].
Proof.
  induction s as [|c s IH]; cbn [splitLines]; [discriminate|].
  destruct (Ascii.eqb c newline); [discriminate|]. destruct (splitLines s); discriminate.
Qed.

Lemma splitLines_line l rest :
  oneLine l -> splitLines (l +:+ String newline rest) = l :: splitLines rest.
Proof.
  unfold oneLine. induction l as [|c l IH]; intros Hl.
  - change ("" +:+ String newline rest) with (String newline rest).
    cbn [splitLines]. rewrite Ascii.eqb_refl. reflexivity.
  - change (String c l +:+ String newline rest) with (String c (l +:+ String newline rest)).
    cbn [splitLines]. cbn [list_ascii_of_string In] in Hl.
    destruct (Ascii.eqb_spec c newline) as [->|_]; [exfalso; apply Hl; left; reflexivity|].
    rewrite IH by (intros H; apply Hl; right; exact H). reflexivity.
Qed.

Lemma splitLines_single l : oneLine l -> splitLines l = [l].
Proof.
  unfold oneLine. induction l as [|c l IH]; intros Hl; [reflexivity|].
  cbn [splitLines]. cbn [list_ascii_of_string In] in Hl.
  destruct (Ascii.eqb_spec c newline) as [->|_]; [exfalso; apply Hl; left; reflexivity|].
  rewrite IH by (intros H; apply Hl; right; exact H). reflexivity.
Qed.

Lemma splitLines_joinLines ls :
  ls <> [] -> Forall oneLine ls -> splitLines (joinLines ls) = ls.
Proof.
  induction ls as [|l ls IH]; [congruence|]. intros _ Hall.
  inversion_clear Hall as [|? ? Hl Hls]. destruct ls as [|l' ls].
  - apply splitLines_single, Hl.
  - rewrite joinLines_cons by discriminate. rewrite splitLines_line by exact Hl.
    rewrite IH by (discriminate || assumption). reflexivity.
Qed.

Lemma joinLines_splitLines s : joinLines (splitLines s) = s.
Proof.
  induction s as [|c s IH]; [reflexivity|]. cbn [splitLines].
  destruct (Ascii.eqb_spec c newline) as [->|Hc].
  - rewrite joinLines_cons by apply splitLines_nonempty. rewrite IH. reflexivity.
  - pose proof (splitLines_nonempty s) as Hne.
    destruct (splitLines s) as [|l ls]; [congruence|].
    destruct ls as [|l' ls].
    + cbn [joinLines] in *. now rewrite IH.
    + rewrite joinLines_cons in * by discriminate.
      change (String c l +:+ String newline (joinLines (l' :: ls)))
        with (String c (l +:+ String newline (joinLines (l' :: ls)))).
      now rewrite IH.
Qed.

(** X27. The snippet, line by line: a log made of the lines [ls] becomes the
    log made of their rewritings, where a decorated line becomes its
    message, whatever it is, and a line that does not start like one is
    kept. *)
Theorem reFixLines_line_by_line ls :
  ls <> [] -> Forall oneLine ls ->
  reFixLines_ReplaceAllString (joinLines ls) = joinLines (map fixLine ls)
  /\ (forall message, fixLine (fixLinePrefix +:+ message +:+ quote) = message)
  /\ (forall line, HasPrefix line fixLinePrefix = false -> fixLine line = line).
Proof.
  intros Hne Hall. split; [|split; [apply fixLine_decorated | apply fixLine_other]].
  unfold reFixLines_ReplaceAllString. now rewrite splitLines_joinLines.
Qed.

(** X28. A log without any line that starts like a decorated one is the
    snippet as it is; in particular, an empty log gives an empty snippet. *)
Theorem reFixLines_plain_log logs :
  Forall (fun line => HasPrefix line fixLinePrefix = false) (splitLines logs) ->
  reFixLines_ReplaceAllString logs = logs.
Proof.
  intros Hall. unfold reFixLines_ReplaceAllString.
  replace (map fixLine (splitLines logs)) with (splitLines logs);
    [apply joinLines_splitLines|].
  induction Hall as [|l ls Hl _ IH]; [reflexivity|].
  cbn [map]. now rewrite fixLine_other, <- IH.
Qed.

(** ** What the stages hand over *)

Section Handover.

Variable w : World.
Variable m : jobManager w.

(** X9. A submission that passes hands over the namespace derived from the
    request's name and the target the template names; one template was
    read, one resource was created, and the request is as it was. *)
Theorem submit_outcome s namespace target s' :
  submit w m s = (Next (namespace, target), s') ->
  namespace = derivedNamespace (Name (job s))
  /\ job s' = job s
  /\ exists tmpl pj,
       fst (JobForConfig w (prowConfigLoader m) (JobName (job s)) s) = inr tmpl
       /\ findTargetName (spec_PodSpec (pj_Spec tmpl)) = inr target
       /\ jobResource w m (job s) namespace tmpl = Some pj
       /\ trace s'
          = trace s ++ [EvConfig; EvCreate (prowNamespace m) (ObjectToUnstructured pj);
                        EvLog ("prow job " +:+ Name (job s)
                               +:+ " launched to target namespace " +:+ namespace)].
Proof.
  destruct (JobForConfig w (prowConfigLoader m) (JobName (job s)) s) as [[err|tmpl] s1] eqn:Hj.
  { unfold submit. cbv beta iota zeta delta [bind getJob]. rewrite Hj. discriminate. }
  destruct (findTargetName (spec_PodSpec (pj_Spec tmpl))) as [err|tgt] eqn:Ht.
  { unfold submit. cbv beta iota zeta delta [bind getJob]. rewrite Hj, Ht. discriminate. }
  destruct (submit_resolved w m s tmpl s1 tgt Hj Ht) as (pj & Hr & Hs1 & Hsub).
  cbv zeta in Hsub. rewrite Hsub. subst s1. cbn [trace].
  destruct (Create _ _ _ _) as [e|]; [destruct (IsAlreadyExists e); [|discriminate]|];
    intros [= <- <- <-]; (split; [reflexivity|]); (split; [reflexivity|]);
    exists tmpl, pj; cbn [fst job trace]; rewrite <- app_assoc; auto.
Qed.

(** X16. The kubeconfig the credential stage hands over is the output, not
    empty, of the last execution of the read command in the target pod;
    the request is as it was. *)
Theorem fetchKubeconfig_outcome namespace target s kubeconfig s' :
  fetchKubeconfig w m namespace target s = (Next kubeconfig, s') ->
  kubeconfig <> ""
  /\ job s' = job s
  /\ exists l0 s0,
       commandContents w (coreConfig m) namespace target "test"
                       ["cat"; "/tmp/admin.kubeconfig"] s0
       = ((kubeconfig, None), s')
       /\ kubeconfigCondition w m namespace target l0 s0 = ((true, None), kubeconfig, s').
Proof.
  intros Hk. split; [eapply fetchKubeconfig_nonempty, Hk|].
  pose proof (fetchKubeconfig_keeps_job w m namespace target s) as Hj. rewrite Hk in Hj.
  split; [exact Hj|]. clear Hj.
  revert Hk. unfold fetchKubeconfig. run_body. unfold PollImmediate.
  destruct (pollLoop _ _ _ _) as [[[e|] k] s1] eqn:Hp; cbn [fst snd]; [discriminate|].
  intros [= <- <-].
  apply pollLoop_success in Hp. destruct Hp as (l0 & s0 & Hc).
  exists l0, s0. split; [|exact Hc].
  revert Hc. unfold kubeconfigCondition. cbv beta iota zeta delta [bind].
  destruct (commandContents _ _ _ _ _ _ _) as [[contents [err|]] s2]; cbn [fst snd].
  - run_cases; discriminate.
  - unfold ret. intros [= _ <- <-]. reflexivity.
Qed.

(** X24. [OverrideJobEnvironment] dereferences the pod spec and so panics on a
    template without one; [launchJob] never gets there, since
    [findTargetName] turns such a template down first. *)
Theorem launchJob_guards_pod_spec s :
  fst (launchJob w m s) <> Panic
  /\ (forall spec image initialImage namespace,
        OverrideJobEnvironment spec image initialImage namespace = None
        <-> spec_PodSpec spec = None).
Proof.
  split.
  - destruct (launchJob_returns w m s) as [err H]. rewrite H. discriminate.
  - intros spec image initialImage namespace. unfold OverrideJobEnvironment.
    destruct (spec_PodSpec spec); split; congruence.
Qed.

End Handover.

(** ** The further statements at concrete inputs *)

Lemma oneLine_check l :
  forallb (fun c => negb (Ascii.eqb c newline)) (list_ascii_of_string l) = true -> oneLine l.
Proof.
  unfold oneLine. intros H Hin. rewrite forallb_forall in H. specialize (H _ Hin).
  rewrite Ascii.eqb_refl in H. discriminate H.
Qed.

Lemma findTargetName_sound_witness :
  findTargetName (Some Cases.templatePod) = inr "test"
  /\ "test" <> ""
  /\ exists ps c,
       Some Cases.templatePod = Some ps /\ In c (Containers ps) /\ c_Name c = ""
       /\ In ("--target=" +:+ "test") (c_Args c).
Proof.
  split; [reflexivity|]. exact (findTargetName_sound (Some Cases.templatePod) "test" eq_refl).
Defined.

Lemma findTargetName_complete_witness :
  In Cases.testContainer (Containers Cases.templatePod)
  /\ c_Name Cases.testContainer = ""
  /\ In ("--target=" +:+ "test") (c_Args Cases.testContainer)
  /\ "test" <> ""
  /\ exists name, findTargetName (Some Cases.templatePod) = inr name.
Proof.
  assert (H1 : In Cases.testContainer (Containers Cases.templatePod)) by (left; reflexivity).
  assert (H2 : In ("--target=" +:+ "test") (c_Args Cases.testContainer))
    by (right; left; reflexivity).
  assert (H3 : "test" <> "") by discriminate.
  split; [exact H1|]. split; [reflexivity|]. split; [exact H2|]. split; [exact H3|].
  exact (findTargetName_complete Cases.templatePod Cases.testContainer "test"
           H1 eq_refl H2 H3).
Defined.

Lemma jobResource_image_roles_witness :
  jobResource wUp mUp Cases.upgradeRequest namespace resolved = Some Cases.upgradeResource
  /\ exists tps ps,
       spec_PodSpec (pj_Spec resolved) = Some tps
       /\ spec_PodSpec (pj_Spec Cases.upgradeResource) = Some ps
       /\ length (Containers ps) = length (Containers tps).
Proof.
  assert (H : jobResource wUp mUp Cases.upgradeRequest namespace resolved
              = Some Cases.upgradeResource) by (vm_compute; reflexivity).
  split; [exact H|].
  destruct (jobResource_image_roles wUp mUp _ _ _ _ H)
    as (_ & _ & _ & _ & tps & ps & H1 & H2 & H3 & _).
  exists tps, ps. auto.
Defined.

Lemma launchJob_unusable_template_witness :
  fulfilled Cases.strayRequest = false
  /\ fst (JobForConfig wUp (prowConfigLoader mUp) "no-such-job" (start Cases.strayRequest))
     = inl Cases.noSuchJob
  /\ launchJob wUp mUp (start Cases.strayRequest)
     = (Return (Some Cases.noSuchJob), {| job := Cases.strayRequest; trace := [EvConfig] |}).
Proof.
  assert (H : fst (JobForConfig wUp (prowConfigLoader mUp)
                     (JobName (job (start Cases.strayRequest))) (start Cases.strayRequest))
              = inl Cases.noSuchJob) by (vm_compute; reflexivity).
  split; [reflexivity|]. split; [exact H|].
  exact (launchJob_unusable_template wUp mUp (start Cases.strayRequest) Cases.noSuchJob
           eq_refl (or_introl H)).
Defined.

Lemma awaitURL_outcome_witness :
  awaitURL wUp mUp Cases.upSubmitted = (Next tt, Cases.upURL)
  /\ URL (job Cases.upURL) <> "".
Proof.
  assert (H : awaitURL wUp mUp Cases.upSubmitted = (Next tt, Cases.upURL))
    by (vm_compute; reflexivity).
  split; [exact H|].
  destruct (awaitURL_outcome wUp mUp _ _ _ H) as [(_ & Hu & _)|(e & Hx & _)];
    [exact Hu | discriminate Hx].
Defined.

Lemma awaitPod_outcome_witness :
  awaitPod wUp mUp Cases.upURL = (Next tt, Cases.upPod)
  /\ job Cases.upPod = job Cases.upURL.
Proof.
  assert (H : awaitPod wUp mUp Cases.upURL = (Next tt, Cases.upPod))
    by (vm_compute; reflexivity).
  split; [exact H|]. exact (proj1 (awaitPod_outcome wUp mUp _ _ _ H)).
Defined.

Lemma awaitSetup_outcome_witness :
  awaitSetup wUp mUp namespace target Cases.upPod = (Next tt, Cases.upSetup)
  /\ job Cases.upSetup = job Cases.upPod.
Proof.
  assert (H : awaitSetup wUp mUp namespace target Cases.upPod = (Next tt, Cases.upSetup))
    by (vm_compute; reflexivity).
  split; [exact H|]. exact (proj1 (awaitSetup_outcome wUp mUp _ _ _ _ _ H)).
Defined.

Lemma awaitSetup_pod_deleted_witness :
  fst (awaitSetup wUp Cases.mLeaving namespace target Cases.fresh)
  = Exit (Return (Some (Errorf "pod never became available: pod was deleted"))).
Proof.
  rewrite (awaitSetup_pod_deleted wUp Cases.mLeaving namespace target Cases.fresh 2
             Cases.pendingPod None (StatusError StatusReasonNotFound "pods not found")
             eq_refl eq_refl eq_refl eq_refl eq_refl eq_refl).
  reflexivity.
Defined.

Lemma awaitSetup_terminal_phase_witness :
  fst (awaitSetup wUp Cases.mExited namespace target Cases.fresh)
  = Exit (Return (Some (Errorf "pod never became available: pod has already exited"))).
Proof.
  rewrite (awaitSetup_terminal_phase wUp Cases.mExited namespace target Cases.fresh
             Cases.exitedPod eq_refl eq_refl).
  reflexivity.
Defined.

Lemma waitForClusterReachable_outcome_witness :
  waitForClusterReachable wDown "kubeconfig" Cases.fresh
  = (Some ErrWaitTimeout, snd (waitForClusterReachable wDown "kubeconfig" Cases.fresh))
  /\ job (snd (waitForClusterReachable wDown "kubeconfig" Cases.fresh)) = job Cases.fresh.
Proof.
  assert (H : waitForClusterReachable wDown "kubeconfig" Cases.fresh
              = (Some ErrWaitTimeout,
                 snd (waitForClusterReachable wDown "kubeconfig" Cases.fresh)))
    by (vm_compute; reflexivity).
  split; [exact H|]. exact (proj1 (waitForClusterReachable_outcome wDown _ _ _ _ H)).
Defined.



Lemma launchJob_nil_means_delivered_witness :
  launchJob wUp mUp Cases.fresh = (Return None, Cases.upDone)
  /\ URL (job Cases.upDone) <> "" /\ Credentials (job Cases.upDone) <> "".
Proof.
  assert (H : launchJob wUp mUp Cases.fresh = (Return None, Cases.upDone))
    by (vm_compute; reflexivity).
  split; [exact H|].
  exact (launchJob_nil_means_delivered wUp mUp Cases.fresh Cases.upDone eq_refl eq_refl H).
Defined.

Lemma launchJob_error_keeps_credentials_back_witness :
  launchJob wUp mForbidden Cases.fresh
  = (Return (Some (Errorf "pod never became available: timed out waiting for the condition")),
     Cases.forbiddenEnd)
  /\ (Credentials (job Cases.forbiddenEnd) = ""
      \/ job Cases.forbiddenEnd = set_URL (job Cases.fresh) (URL (job Cases.forbiddenEnd))).
Proof.
  assert (H : launchJob wUp mForbidden Cases.fresh
              = (Return (Some (Errorf
                   "pod never became available: timed out waiting for the condition")),
                 Cases.forbiddenEnd)) by (vm_compute; reflexivity).
  split; [exact H|].
  exact (launchJob_error_keeps_credentials_back wUp mForbidden _ _ _ H).
Defined.

Lemma launchJob_writes_outputs_only_witness :
  launchJob wUp mUp Cases.fresh = (Return None, Cases.upDone)
  /\ exists url credentials snippet,
       job Cases.upDone
       = set_PasswordSnippet (set_Credentials (set_URL (job Cases.fresh) url) credentials)
                             snippet.
Proof.
  assert (H : launchJob wUp mUp Cases.fresh = (Return None, Cases.upDone))
    by (vm_compute; reflexivity).
  split; [exact H|]. exact (proj1 (launchJob_writes_outputs_only wUp mUp _ _ _ H)).
Defined.

Lemma launchJob_reentry_witness :
  launchJob wUp mUp Cases.fresh = (Return None, Cases.upDone)
  /\ PasswordSnippet (job Cases.upDone) <> ""
  /\ launchJob wDown mDown Cases.upDone = (Return None, Cases.upDone).
Proof.
  assert (H : launchJob wUp mUp Cases.fresh = (Return None, Cases.upDone))
    by (vm_compute; reflexivity).
  assert (Hp : PasswordSnippet (job Cases.upDone) <> "") by (vm_compute; discriminate).
  split; [exact H|]. split; [exact Hp|].
  exact (launchJob_reentry wUp mUp Cases.fresh Cases.upDone wDown mDown eq_refl eq_refl H Hp).
Defined.

Lemma reFixLines_line_by_line_witness :
  Cases.setupLog <> [] /\ Forall oneLine Cases.setupLog
  /\ reFixLines_ReplaceAllString (joinLines Cases.setupLog)
     = joinLines (map fixLine Cases.setupLog).
Proof.
  assert (H1 : Cases.setupLog <> []) by discriminate.
  assert (H2 : Forall oneLine Cases.setupLog)
    by (repeat constructor; apply oneLine_check; vm_compute; reflexivity).
  split; [exact H1|]. split; [exact H2|].
  exact (proj1 (reFixLines_line_by_line Cases.setupLog H1 H2)).
Defined.

Lemma reFixLines_plain_log_witness :
  Forall (fun line => HasPrefix line fixLinePrefix = false) (splitLines "Install complete")
  /\ reFixLines_ReplaceAllString "Install complete" = "Install complete".
Proof.
  assert (H : Forall (fun line => HasPrefix line fixLinePrefix = false)
                     (splitLines "Install complete"))
    by (vm_compute; repeat constructor).
  split; [exact H|]. exact (reFixLines_plain_log "Install complete" H).
Defined.

Lemma submit_outcome_witness :
  submit wUp mUp Cases.fresh = (Next (namespace, target), Cases.upSubmitted)
  /\ namespace = derivedNamespace (Name (job Cases.fresh))
  /\ job Cases.upSubmitted = job Cases.fresh.
Proof.
  assert (H : submit wUp mUp Cases.fresh = (Next (namespace, target), Cases.upSubmitted))
    by (vm_compute; reflexivity).
  split; [exact H|].
  destruct (submit_outcome wUp mUp _ _ _ _ H) as (H1 & H2 & _). auto.
Defined.

Lemma fetchKubeconfig_outcome_witness :
  fetchKubeconfig wUp mUp namespace target Cases.upSetup
  = (Next "kubeconfig", Cases.upCredentials)
  /\ "kubeconfig" <> "" /\ job Cases.upCredentials = job Cases.upSetup.
Proof.
  assert (H : fetchKubeconfig wUp mUp namespace target Cases.upSetup
              = (Next "kubeconfig", Cases.upCredentials)) by (vm_compute; reflexivity).
  split; [exact H|].
  destruct (fetchKubeconfig_outcome wUp mUp _ _ _ _ _ H) as (H1 & H2 & _). auto.
Defined.
